(** * Resilience and streaming core of the assist-chat API

    A shallow embedding of the classes
    - [CircuitBreakerService]  (ai/circuit-breaker.service.ts),
    - [AIService]              (ai/ai.service.ts),
    - [ChatService]            (chat/chat.service.ts),
    - [ChatGateway]            (websocket/gateways/chat.gateway.ts),
    of [assist-chat-api/src], together with the properties of the system
    specification that concern them: the circuit-breaker state machine,
    the retrying streaming pipeline, the context window and the session
    transcript.

    Conventions.
    - JavaScript numbers that hold counters, token counts and millisecond
      timestamps are integers here ([Z]); [Date.now()] is read from an
      explicit clock.
    - A JavaScript string is a [string]: one character per code unit, so
      that [String.length] is the source's [.length].
    - A rejected promise / thrown exception is the [Rejected] case of
      [Settled]; asynchronous code is run to completion, one request at a
      time (no interleaving of concurrent requests is modelled).
    - [crypto.randomUUID()] draws from an explicit supply. *)

From Stdlib Require Import ZArith Lia Ascii String.
From stdpp Require Import base numbers option list strings pretty gmap.

Local Open Scope Z_scope.

(* ===================================================================== *)
(** * JavaScript truthiness of the values that the source tests          *)
(* ===================================================================== *)

Module JS.

(** [if (s)] for a string: every string but the empty one is truthy. *)
Definition truthy_string (s : string) : bool :=
  match s with
  | EmptyString => false
  | String _ _ => true
  end.

(** [if (x)] for [string | null | undefined]. *)
Definition truthy (x : option string) : bool :=
  match x with
  | Some s => truthy_string s
  | None => false
  end.

(** [if (n)] for an integer-valued number. *)
Definition truthy_number (n : Z) : bool := negb (n =? 0).

(** [a || b] on [string | undefined]. *)
Definition or_else (a : option string) (b : string) : string :=
  match a with
  | Some s => if truthy_string s then s else b
  | None => b
  end.

End JS.

(* ===================================================================== *)
(** * Exceptions                                                          *)
(* ===================================================================== *)

(** The error object raised by the OpenAI client: [error.message] and, when
    the failure is an HTTP one, [error.response] with its [status] and
    [data?.error?.message]. *)
Record ApiResponse := {
  status : Z;
  data_error_message : option string;
}.

Record ApiError := {
  message : string;
  response : option ApiResponse;
}.

(** Every exception class that travels through the core, by constructor
    call.  [CircuitBreakerOpenException] keeps the two constructor arguments
    ([message?], [failureCount?]). *)
Inductive Exception :=
| CircuitBreakerOpenException (msg : option string) (failures : option Z)
| AIRateLimitException (msg : string)
| AIAuthenticationException (msg : string)
| AIUnexpectedErrorException (msg : string) (statusCode : option Z)
| RawError (e : ApiError)
| MessageProcessingException (msg : string) (originalError : Exception).

(** Outcome of an awaited promise. *)
Inductive Settled (T : Type) :=
| Resolved (v : T)
| Rejected (e : Exception).
Arguments Resolved {T} v.
Arguments Rejected {T} e.

(* ===================================================================== *)
(** * CircuitBreakerService  (circuit-breaker.service.ts)                 *)
(* ===================================================================== *)

Inductive CircuitState := CLOSED | OPEN | HALF_OPEN.

Record CircuitBreakerConfig := {
  failureThreshold : Z;
  successThreshold : Z;
  timeout : Z;
}.

Module CircuitBreakerService.

(** The mutable fields of one service instance; also the shape of
    [CircuitBreakerStats]. *)
Record t := {
  state : CircuitState;
  failureCount : Z;
  successCount : Z;
  lastFailureTime : option Z;
}.

(** [new CircuitBreakerService()] without a custom configuration. *)
Definition defaultConfig : CircuitBreakerConfig :=
  {| failureThreshold := 5; successThreshold := 2; timeout := 60000 |}.

Definition initial : t :=
  {| state := CLOSED; failureCount := 0; successCount := 0;
     lastFailureTime := None |}.

Definition transitionToClosed (cb : t) : t :=
  {| state := CLOSED; failureCount := failureCount cb; successCount := 0;
     lastFailureTime := lastFailureTime cb |}.

Definition transitionToOpen (cb : t) : t :=
  {| state := OPEN; failureCount := failureCount cb;
     successCount := successCount cb;
     lastFailureTime := lastFailureTime cb |}.

Definition transitionToHalfOpen (cb : t) : t :=
  {| state := HALF_OPEN; failureCount := failureCount cb;
     successCount := successCount cb;
     lastFailureTime := lastFailureTime cb |}.

Definition getState (cb : t) : CircuitState := state cb.

Definition getStats (cb : t) : t :=
  {| state := state cb; failureCount := failureCount cb;
     successCount := successCount cb;
     lastFailureTime := lastFailureTime cb |}.

Definition reset (cb : t) : t :=
  {| state := CLOSED; failureCount := 0; successCount := 0;
     lastFailureTime := None |}.

Section Service.
Variable config : CircuitBreakerConfig.

(** [now] is the value of [Date.now()] at the call. *)
Definition shouldAttemptReset (cb : t) (now : Z) : bool :=
  match lastFailureTime cb with
  | None => false
  | Some last => timeout config <=? now - last
  end.

Definition onSuccess (cb : t) : t :=
  let cb := {| state := state cb; failureCount := 0;
               successCount := successCount cb;
               lastFailureTime := lastFailureTime cb |} in
  match state cb with
  | HALF_OPEN =>
      let cb := {| state := state cb; failureCount := failureCount cb;
                   successCount := successCount cb + 1;
                   lastFailureTime := lastFailureTime cb |} in
      if successThreshold config <=? successCount cb
      then transitionToClosed cb
      else cb
  | _ => cb
  end.

Definition onFailure (cb : t) (now : Z) : t :=
  let cb := {| state := state cb; failureCount := failureCount cb + 1;
               successCount := 0;
               lastFailureTime := Some now |} in
  if failureThreshold config <=? failureCount cb
  then transitionToOpen cb
  else cb.

(** The prologue of [execute]: what happens before [fn] is called.
    [inl] is the exception thrown without calling [fn]; [inr] is the
    breaker with which [fn] is then run. *)
Definition gate (cb : t) (now : Z) : Exception + t :=
  match state cb with
  | OPEN =>
      if shouldAttemptReset cb now
      then inr (transitionToHalfOpen cb)
      else inl (CircuitBreakerOpenException None (Some (failureCount cb)))
  | _ => inr cb
  end.

(** [execute(fn)].  The protected operation acts on a world [W] of its
    own (whatever it reads and writes); [Date_now] reads the clock of
    that world.  The clock is read once before [fn] (in
    [shouldAttemptReset]) and once after a failure (in [onFailure]). *)
Definition execute {W T : Type} (Date_now : W -> Z)
    (fn : W -> W * Settled T) (cb : t) (w : W) : t * W * Settled T :=
  match gate cb (Date_now w) with
  | inl exn => (cb, w, Rejected exn)
  | inr cb =>
      match fn w with
      | (w', Resolved result) => (onSuccess cb, w', Resolved result)
      | (w', Rejected error) =>
          (onFailure cb (Date_now w'), w', Rejected error)
      end
  end.

End Service.

End CircuitBreakerService.

(** The message that [CircuitBreakerOpenException]'s constructor builds
    decides between the plain default text and the text with the count:
    [failureCount ? `... (N failures detected)` : defaultMessage], unless a
    custom [message] is given. *)
Inductive OpenMessage :=
| CustomMessage (m : string)
| DetailedMessage (failures : Z)
| DefaultMessage.

Definition openExceptionMessage (msg : option string) (failures : option Z)
  : OpenMessage :=
  let detailed :=
    match failures with
    | Some n => if JS.truthy_number n then DetailedMessage n else DefaultMessage
    | None => DefaultMessage
    end in
  match msg with
  | Some m => if JS.truthy_string m then CustomMessage m else detailed
  | None => detailed
  end.

(** The same message as text: [defaultMessage], and the template
    [`${defaultMessage} (${failureCount} failures detected)`]. *)
Definition defaultMessage : string :=
  "Service temporarily unavailable due to repeated failures".

Definition openExceptionText (msg : option string) (failures : option Z)
  : string :=
  match openExceptionMessage msg failures with
  | CustomMessage m => m
  | DetailedMessage n =>
      defaultMessage +:+ " (" +:+ pretty n +:+ " failures detected)"
  | DefaultMessage => defaultMessage
  end.

(** The message that each exception class of the AI service hands to its
    base class (base-response.dto.ts):
    [message || 'AI service rate limit exceeded. Please try again later.'],
    [message || 'AI service authentication failed'] and
    [`AI service error${statusCode ? ` (${statusCode})` : ''}: ${message}`]. *)
Definition rateLimitText (message : string) : string :=
  JS.or_else (Some message)
    "AI service rate limit exceeded. Please try again later.".

Definition authenticationText (message : string) : string :=
  JS.or_else (Some message) "AI service authentication failed".

Definition unexpectedErrorText (message : string) (statusCode : option Z)
  : string :=
  "AI service error"
  +:+ match statusCode with
      | Some n =>
          if JS.truthy_number n then " (" +:+ pretty n +:+ ")"
          else EmptyString
      | None => EmptyString
      end
  +:+ ": " +:+ message.

(** [error.message].  For the classes built on [Error] it is the message
    given to the constructor; for those built on [HttpException], whose
    constructor is given a response object, it is the [message] of that
    object. *)
Definition error_message (error : Exception) : string :=
  match error with
  | CircuitBreakerOpenException msg failures => openExceptionText msg failures
  | AIRateLimitException msg => rateLimitText msg
  | AIAuthenticationException msg => authenticationText msg
  | AIUnexpectedErrorException msg statusCode =>
      unexpectedErrorText msg statusCode
  | RawError e => message e
  | MessageProcessingException msg _ => msg
  end.

(* ===================================================================== *)
(** * Messages and sessions                                               *)
(* ===================================================================== *)

(** [MessageRole]: ['user'], ['assistant'], ['system']. *)
Inductive MessageRole := USER | ASSISTANT | SYSTEM.

Module Message.
Record t := {
  id : string;
  role : MessageRole;
  content : string;
  timestamp : Z;
  sessionId : option string;
}.

(** [m.role === 'system'] *)
Definition isSystem (m : t) : bool :=
  match role m with
  | SYSTEM => true
  | _ => false
  end.
End Message.

(** What is sent upstream for one message: [{role, content}]. *)
Record AIMessage := {
  ai_role : MessageRole;
  ai_content : string;
}.

Module ChatSession.
Record t := {
  id : string;
  messages : list Message.t;
  createdAt : Z;
  updatedAt : Z;
}.
End ChatSession.

(* ===================================================================== *)
(** * RxJS Subject                                                        *)
(* ===================================================================== *)

Inductive Notification :=
| Next (chunk : string)
| Error (e : Exception)
| Complete.

(** A [Subject<string>]: the notifications it has delivered so far and
    whether it has stopped.  After [error] or [complete] every further call
    is ignored. *)
Module Subject.
Record t := {
  isStopped : bool;
  emitted : list Notification;
}.

Definition fresh : t := {| isStopped := false; emitted := [] |}.

Definition next (chunk : string) (s : t) : t :=
  if isStopped s then s
  else {| isStopped := false; emitted := emitted s ++ [Next chunk] |}.

Definition error (e : Exception) (s : t) : t :=
  if isStopped s then s
  else {| isStopped := true; emitted := emitted s ++ [Error e] |}.

Definition complete (s : t) : t :=
  if isStopped s then s
  else {| isStopped := true; emitted := emitted s ++ [Complete] |}.
End Subject.

(** The callbacks passed to [subscribe]; each runs on the subscriber's own
    state [S] and may read the clock ([new Date()]). *)
Record Observer (S : Type) := {
  on_next : string -> Z -> S -> S;
  on_error : Exception -> Z -> S -> S;
  on_complete : Z -> S -> S;
}.
Arguments on_next {S} _ _ _ _.
Arguments on_error {S} _ _ _ _.
Arguments on_complete {S} _ _ _.

(* ===================================================================== *)
(** * The upstream completion client, as a scripted stub                  *)
(* ===================================================================== *)

(** One element of the streamed completion; [None] fields are
    [undefined]/[null].  [choices0 = None] is a chunk without choices. *)
Record Choice := {
  delta_content : option string;
  finish_reason : option string;
}.

Record Chunk := { choices0 : option Choice }.

(** How the async iteration ends if it is read to its end. *)
Inductive StreamEnd :=
| Exhausted
| Throws (e : ApiError).

(** One call of [openai.chat.completions.create({..., stream: true})]:
    the chunks it yields, how the iteration ends, and the time it takes.
    A call that rejects at once is [chunks = []] with [Throws e]. *)
Record Attempt := {
  latency : Z;
  chunks : list Chunk;
  ending : StreamEnd;
}.

(** The stub: the behaviour of the [n]-th call (counted from 0) on the
    given messages. *)
Definition OpenAI : Type := nat -> list AIMessage -> Attempt.

(* ===================================================================== *)
(** * AIService  (ai.service.ts)                                          *)
(* ===================================================================== *)

Module AIService.

Record AIServiceConfig := {
  maxRetries : nat;
  defaultContextWindow : Z;
}.

(** The constructor fixes [maxRetries: 3] and
    [defaultContextWindow: 4000]. *)
Definition config : AIServiceConfig :=
  {| maxRetries := 3; defaultContextWindow := 4000 |}.

(** Everything one streaming request reads and writes: the clock, the
    number of calls the stub has received, the request's [Subject] and
    the state of its subscriber. *)
Record World (S : Type) := {
  clock : Z;
  calls : nat;
  stream : Subject.t;
  sink : S;
}.
Arguments clock {S} _.
Arguments calls {S} _.
Arguments stream {S} _.
Arguments sink {S} _.

(** [Math.ceil(text.length / 4)] *)
Definition estimateTokens (text : string) : Z :=
  (Z.of_nat (String.length text) + 3) / 4.

(** [Math.min(1000 * Math.pow(2, attempt - 1), 10000)], for the 1-based
    attempt numbers that [streamWithRetry] passes. *)
Definition calculateRetryDelay (attempt : nat) : Z :=
  Z.min (1000 * 2 ^ (Z.of_nat attempt - 1)) 10000.

(** [handleOpenAIError]: always throws; this is what it throws. *)
Definition handleOpenAIError (error : ApiError) : Exception :=
  match response error with
  | Some r =>
      let message :=
        JS.or_else (data_error_message r) (message error) in
      if status r =? 429 then AIRateLimitException message
      else if status r =? 401 then AIAuthenticationException message
      else if (status r =? 500) || (status r =? 502) || (status r =? 503)
      then AIUnexpectedErrorException message (Some (status r))
      else AIUnexpectedErrorException message (Some (status r))
  | None => RawError error
  end.

Section Pipeline.
Context {S : Type}.
Variable openai : OpenAI.
Variable observer : Observer S.

(** [stream.next(content)] with the subscriber's [next] callback. *)
Definition stream_next (content : string) (w : World S) : World S :=
  if Subject.isStopped (stream w) then w
  else {| clock := clock w; calls := calls w;
          stream := Subject.next content (stream w);
          sink := on_next observer content (clock w) (sink w) |}.

Definition stream_error (e : Exception) (w : World S) : World S :=
  if Subject.isStopped (stream w) then w
  else {| clock := clock w; calls := calls w;
          stream := Subject.error e (stream w);
          sink := on_error observer e (clock w) (sink w) |}.

Definition stream_complete (w : World S) : World S :=
  if Subject.isStopped (stream w) then w
  else {| clock := clock w; calls := calls w;
          stream := Subject.complete (stream w);
          sink := on_complete observer (clock w) (sink w) |}.

(** [sleep(ms)] *)
Definition sleep (ms : Z) (w : World S) : World S :=
  {| clock := clock w + ms; calls := calls w;
     stream := stream w; sink := sink w |}.

(** The body of [for await (const chunk of completion)].  The boolean
    tells whether the loop was left by [break]. *)
Fixpoint forAwait (completion : list Chunk) (w : World S)
  : World S * bool :=
  match completion with
  | [] => (w, false)
  | chunk :: rest =>
      let content := choices0 chunk ≫= delta_content in
      let w :=
        match content with
        | Some text => if JS.truthy content then stream_next text w else w
        | None => w
        end in
      if JS.truthy (choices0 chunk ≫= finish_reason)
      then (w, true)
      else forAwait rest w
  end.

(** [executeStream]: one call of the stub. *)
Definition executeStream (messages : list AIMessage) (w : World S)
  : World S * Settled unit :=
  let completion := openai (calls w) messages in
  let w := {| clock := clock w + latency completion;
              calls := Datatypes.S (calls w);
              stream := stream w; sink := sink w |} in
  let '(w, broke) := forAwait (chunks completion) w in
  if broke then (stream_complete w, Resolved tt)
  else
    match ending completion with
    | Exhausted => (stream_complete w, Resolved tt)
    | Throws error => (w, Rejected (handleOpenAIError error))
    end.

(** [streamWithRetry(messages, stream, attempt)].  The recursion of the
    source is bounded by [attempt < maxRetries]; [fuel] bounds the
    number of recursive calls and is never the reason to stop when
    [maxRetries <= attempt + fuel]. *)
Fixpoint streamWithRetry (fuel : nat) (messages : list AIMessage)
    (attempt : nat) (w : World S) : World S * Settled unit :=
  match executeStream messages w with
  | (w, Resolved v) => (w, Resolved v)
  | (w, Rejected error) =>
      if (attempt <? maxRetries config)%nat then
        match fuel with
        | O => (w, Rejected error)
        | Datatypes.S fuel =>
            let delay := calculateRetryDelay attempt in
            streamWithRetry fuel messages (Datatypes.S attempt)
              (sleep delay w)
        end
      else (w, Rejected error)
  end.

(** [messages.map((msg) => ({ role: msg.role, content: msg.content }))] *)
Definition toOpenAI (messages : list Message.t) : list AIMessage :=
  map (fun msg => {| ai_role := Message.role msg;
                     ai_content := Message.content msg |}) messages.

(** [streamCompletion(messages)] followed by the run of the promise it
    starts.  The world [w] gives the clock and the call count of the
    stub when the request is made and the subscriber's state; the
    request gets a [Subject] of its own. *)
Definition streamCompletion (cfg : CircuitBreakerConfig)
    (messages : list Message.t)
    (cb : CircuitBreakerService.t) (w : World S)
  : CircuitBreakerService.t * World S :=
  let w := {| clock := clock w; calls := calls w;
              stream := Subject.fresh; sink := sink w |} in
  let openaiMessages := toOpenAI messages in
  match CircuitBreakerService.execute cfg clock
          (streamWithRetry (maxRetries config) openaiMessages 1%nat)
          cb w with
  | (cb, w, Resolved _) => (cb, w)
  | (cb, w, Rejected error) => (cb, stream_error error w)
  end.

End Pipeline.

(** [fitToContextWindow(messages, maxContextTokens)] *)
Section ContextWindow.
Variable maxContextTokens : Z.

(** The [for (let i = messages.length - 1; i >= 0; i--)] loop, over the
    messages still to visit (most recent first). *)
Fixpoint backwards (pending : list Message.t) (totalTokens : Z)
    (fittedMessages : list Message.t) : Z * list Message.t :=
  match pending with
  | [] => (totalTokens, fittedMessages)
  | message :: older =>
      if Message.isSystem message
      then backwards older totalTokens fittedMessages
      else
        let messageTokens := estimateTokens (Message.content message) in
        if maxContextTokens <? totalTokens + messageTokens
        then (totalTokens, fittedMessages)
        else backwards older (totalTokens + messageTokens)
               (message :: fittedMessages)
  end.

Definition fitToContextWindow (messages : list Message.t)
  : list Message.t :=
  let systemMessage := List.find Message.isSystem messages in
  let '(totalTokens, fittedMessages) :=
    match systemMessage with
    | Some m => (estimateTokens (Message.content m), [m])
    | None => (0, [])
    end in
  snd (backwards (rev messages) totalTokens fittedMessages).
End ContextWindow.

End AIService.

(* ===================================================================== *)
(** * ChatService  (chat.service.ts)                                      *)
(* ===================================================================== *)

Module ChatService.

Record ChatServiceConfig := {
  maxContextMessages : nat;
  maxSessionAgeMinutes : Z;
}.

Definition config : ChatServiceConfig :=
  {| maxContextMessages := 10; maxSessionAgeMinutes := 60 |}.

(** The service's [sessions] map, and how many identifiers have been
    drawn from [randomUUID] so far. *)
Record State := {
  sessions : gmap string ChatSession.t;
  uuids : nat;
}.

Definition empty : State := {| sessions := ∅; uuids := O |}.

Record ProcessedMessage := {
  messageId : string;
  sessionId : string;
}.

Definition getSystemPrompt : string :=
"You are EstateAssist, a professional AI real estate agent specializing in residential and commercial properties.

Your role is to provide expert guidance on:
- Property valuations and market analysis
- Buying and selling processes
- Rental agreements and tenant relations
- Property investment strategies
- Mortgage and financing options
- Real estate market trends and insights
- Property inspection and maintenance advice
- Legal considerations in real estate transactions

Always prioritize:
1. Accuracy of information and current market data
2. Clear, professional communication
3. Ethical real estate practices
4. Client's best interests and financial well-being
5. Transparency about limitations and regulations

Communication style:
- Be knowledgeable yet approachable
- Explain complex real estate concepts in simple terms
- Provide specific, actionable advice when possible
- Ask clarifying questions to better understand the client's needs
- Acknowledge regional differences in real estate practices

If you don't have specific information about local regulations, market conditions, or pricing, clearly state this and recommend consulting with a licensed local real estate professional or legal advisor.".

(** [array.slice(-n)]: the last [n] elements; [slice(-0)] is the whole
    array. *)
Definition slice_last {A : Type} (n : nat) (l : list A) : list A :=
  match n with
  | O => l
  | _ => drop (length l - n)%nat l
  end.

Section Service.
(** [crypto.randomUUID()]: the [n]-th identifier drawn. *)
Variable randomUUID : nat -> string.

Definition draw (st : State) : string * State :=
  (randomUUID (uuids st),
   {| sessions := sessions st; uuids := Datatypes.S (uuids st) |}).

(** [createMessage(role, content, sessionId, id?)]; [id || randomUUID()]
    draws an identifier only when [id] is falsy. *)
Definition createMessage (role : MessageRole) (content : string)
    (sessionId : string) (id : option string) (now : Z) (st : State)
  : Message.t * State :=
  let '(id, st) :=
    match id with
    | Some i => if JS.truthy_string i then (i, st) else draw st
    | None => draw st
    end in
  ({| Message.id := id; Message.role := role;
      Message.content := content; Message.timestamp := now;
      Message.sessionId := Some sessionId |}, st).

Definition newSession (sessionId : string) (now : Z) : ChatSession.t :=
  {| ChatSession.id := sessionId; ChatSession.messages := [];
     ChatSession.createdAt := now; ChatSession.updatedAt := now |}.

(** [createSession()] *)
Definition createSession (now : Z) (st : State) : string * State :=
  let '(sessionId, st) := draw st in
  (sessionId,
   {| sessions := <[sessionId := newSession sessionId now]> (sessions st);
      uuids := uuids st |}).

(** [getOrCreateSession(sessionId)]: the map afterwards; the session
    object returned is the one stored under [sessionId]. *)
Definition getOrCreateSession (sessionId : string) (now : Z) (st : State)
  : State :=
  match sessions st !! sessionId with
  | Some _ => st
  | None =>
      {| sessions :=
           <[sessionId := newSession sessionId now]> (sessions st);
         uuids := uuids st |}
  end.

(** [session.messages.push(m)] on the session object stored under
    [sessionId]. *)
Definition push (m : Message.t) (session : ChatSession.t) : ChatSession.t :=
  {| ChatSession.id := ChatSession.id session;
     ChatSession.messages := ChatSession.messages session ++ [m];
     ChatSession.createdAt := ChatSession.createdAt session;
     ChatSession.updatedAt := ChatSession.updatedAt session |}.

(** [session.updatedAt = new Date()] *)
Definition touch (now : Z) (session : ChatSession.t) : ChatSession.t :=
  {| ChatSession.id := ChatSession.id session;
     ChatSession.messages := ChatSession.messages session;
     ChatSession.createdAt := ChatSession.createdAt session;
     ChatSession.updatedAt := now |}.

Definition modify (sessionId : string)
    (f : ChatSession.t -> ChatSession.t) (st : State) : State :=
  {| sessions := alter f sessionId (sessions st); uuids := uuids st |}.

(** [buildConversationContext(session)] *)
Definition buildConversationContext (session : ChatSession.t) (now : Z)
    (st : State) : list Message.t * State :=
  let recentMessages :=
    slice_last (maxContextMessages config)
      (ChatSession.messages session) in
  let hasSystemMessage :=
    match recentMessages with
    | first :: _ => Message.isSystem first
    | [] => false
    end in
  if hasSystemMessage then (recentMessages, st)
  else
    let '(systemMessage, st) :=
      createMessage SYSTEM getSystemPrompt (ChatSession.id session)
        None now st in
    (systemMessage :: recentMessages, st).

(** The state of the subscriber that [processMessage] attaches to the
    AI stream: the service itself, the local [assistantContent] buffer
    and the [Subject] handed to the caller. *)
Record Subscriber := {
  service : State;
  assistantContent : string;
  out : Subject.t;
}.

(** The three callbacks of
    [this.aiService.streamCompletion(context).subscribe({...})]. *)
Definition subscriber (actualSessionId assistantMessageId : string)
  : Observer Subscriber :=
  {| on_next := fun chunk _ s =>
       {| service := service s;
          assistantContent := assistantContent s +:+ chunk;
          out := Subject.next chunk (out s) |};
     on_error := fun error _ s =>
       {| service := service s;
          assistantContent := assistantContent s;
          out := Subject.error
                   (MessageProcessingException
                      "Failed to generate AI response" error) (out s) |};
     on_complete := fun now s =>
       let '(assistantMessage, st) :=
         createMessage ASSISTANT (assistantContent s) actualSessionId
           (Some assistantMessageId) now (service s) in
       let st :=
         modify actualSessionId
           (fun session => touch now (push assistantMessage session)) st in
       {| service := st;
          assistantContent := assistantContent s;
          out := Subject.complete (out s) |} |}.

End Service.

End ChatService.

(* ===================================================================== *)
(** * The assembled server: one request at a time                         *)
(* ===================================================================== *)

Record Server := {
  breaker : CircuitBreakerService.t;
  now : Z;
  upstreamCalls : nat;
  chat : ChatService.State;
}.

Section Assembly.
Variable breakerConfig : CircuitBreakerConfig.
Variable openai : OpenAI.
Variable randomUUID : nat -> string.

(** [sessionId || this.createSession()] *)
Definition resolveSession (sessionId : option string) (now : Z)
    (st : ChatService.State) : string * ChatService.State :=
  match sessionId with
  | Some sid =>
      if JS.truthy_string sid then (sid, st)
      else ChatService.createSession randomUUID now st
  | None => ChatService.createSession randomUUID now st
  end.

(** What [processMessage] has in hand when it subscribes to the AI
    stream. *)
Record Submission := {
  actualSessionId : string;
  userMessage : Message.t;
  context : list Message.t;
  assistantMessageId : string;
  submitted : ChatService.State;
}.

(** The synchronous part of [processMessage]: resolve or create the
    session, append the user message to it, build the context and draw
    the identifier of the answer.  [session] is the object that
    [getOrCreateSession] returns, which is the one stored in the map. *)
Definition submit (messageContent : string) (sessionId : option string)
    (now : Z) (st : ChatService.State) : Submission :=
  let '(actualSessionId, st) := resolveSession sessionId now st in
  let st := ChatService.getOrCreateSession actualSessionId now st in
  let '(userMessage, st) :=
    ChatService.createMessage randomUUID USER messageContent
      actualSessionId None now st in
  let st :=
    ChatService.modify actualSessionId (ChatService.push userMessage) st in
  let session :=
    default (ChatService.newSession actualSessionId now)
      (ChatService.sessions st !! actualSessionId) in
  let '(context, st) :=
    ChatService.buildConversationContext randomUUID session now st in
  let '(assistantMessageId, st) := ChatService.draw randomUUID st in
  {| actualSessionId := actualSessionId; userMessage := userMessage;
     context := context; assistantMessageId := assistantMessageId;
     submitted := st |}.

(** [ChatService.processMessage(messageContent, sessionId?)], run until
    the AI stream has ended.  Returns the [ProcessedMessage], the
    [Subject] handed to the caller, the [Subject] of the AI stream
    itself, and the server afterwards. *)
Definition processMessage (messageContent : string)
    (sessionId : option string) (srv : Server)
  : ChatService.ProcessedMessage * Subject.t * Subject.t * Server :=
  let sub := submit messageContent sessionId (now srv) (chat srv) in
  let w :=
    {| AIService.clock := now srv;
       AIService.calls := upstreamCalls srv;
       AIService.stream := Subject.fresh;
       AIService.sink :=
         {| ChatService.service := submitted sub;
            ChatService.assistantContent := EmptyString;
            ChatService.out := Subject.fresh |} |} in
  let '(cb, w) :=
    AIService.streamCompletion openai
      (ChatService.subscriber randomUUID (actualSessionId sub)
         (assistantMessageId sub))
      breakerConfig (context sub) (breaker srv) w in
  ({| ChatService.messageId := assistantMessageId sub;
      ChatService.sessionId := actualSessionId sub |},
   ChatService.out (AIService.sink w),
   AIService.stream w,
   {| breaker := cb;
      now := AIService.clock w;
      upstreamCalls := AIService.calls w;
      chat := ChatService.service (AIService.sink w) |}).

(** The session as [getOrCreateSession] hands it to [processMessage],
    before the user message is appended: the stored one when the caller
    names an existing session, a new empty one otherwise. *)
Definition sessionBefore (sessionId : option string) (srv : Server)
  : ChatSession.t :=
  let '(actualSessionId, st) :=
    resolveSession sessionId (now srv) (chat srv) in
  default (ChatService.newSession actualSessionId (now srv))
    (ChatService.sessions st !! actualSessionId).

End Assembly.

(* ===================================================================== *)
(** * ChatGateway.handleMessage  (chat.gateway.ts)                        *)
(* ===================================================================== *)

Record SendMessageDto := {
  dto_message : string;
  dto_sessionId : option string;
}.

(** What [client.emit] sends: ['message-chunk'] and ['error'] events. *)
Inductive ClientEvent :=
| message_chunk (id chunk : string) (isComplete : bool)
| error_event (message details : string).

Module ChatGateway.

(** The three callbacks of [stream.subscribe({...})] in [handleMessage]. *)
Definition forward (messageId : string) (n : Notification) : ClientEvent :=
  match n with
  | Next chunk => message_chunk messageId chunk false
  | Error error =>
      error_event "Failed to generate response" (error_message error)
  | Complete => message_chunk messageId EmptyString true
  end.

(** [handleMessage(data, client)]: the events sent to the client and the
    server afterwards.  The [activeConnections] table is left out. *)
Definition handleMessage (breakerConfig : CircuitBreakerConfig)
    (openai : OpenAI) (randomUUID : nat -> string)
    (data : SendMessageDto) (srv : Server) : list ClientEvent * Server :=
  let '(pm, out, _, srv) :=
    processMessage breakerConfig openai randomUUID
      (dto_message data) (dto_sessionId data) srv in
  (map (forward (ChatService.messageId pm)) (Subject.emitted out), srv).

End ChatGateway.

(* ===================================================================== *)
(** * Vocabulary of the properties                                        *)
(* ===================================================================== *)

(** A subscriber that does nothing: the stream is then observed through
    the notifications recorded in the [Subject]. *)
Definition silent : Observer unit :=
  {| on_next := fun _ _ s => s;
     on_error := fun _ _ s => s;
     on_complete := fun _ s => s |}.

(** Whether reading the chunks leaves the loop by [break], that is, whether
    some chunk carries a truthy [finish_reason]. *)
Definition breaks (completion : list Chunk) : bool :=
  existsb (fun chunk => JS.truthy (choices0 chunk ≫= finish_reason))
    completion.

(** The error with which an attempt fails, if it fails: the iteration is
    read to its end and the end throws. *)
Definition failure (a : Attempt) : option ApiError :=
  if breaks (chunks a) then None
  else match ending a with
       | Throws e => Some e
       | Exhausted => None
       end.

(** One streaming request made [gap] milliseconds after the previous one
    ended, by a caller that only listens. *)
Definition request (cfg : CircuitBreakerConfig) (openai : OpenAI)
    (messages : list Message.t) (gap : Z)
    (st : CircuitBreakerService.t * AIService.World unit)
  : CircuitBreakerService.t * AIService.World unit :=
  AIService.streamCompletion openai silent cfg messages (fst st)
    (AIService.sleep gap (snd st)).

(** A sequence of such requests, one per gap. *)
Definition requests (cfg : CircuitBreakerConfig) (openai : OpenAI)
    (messages : list Message.t) (gaps : list Z)
    (st : CircuitBreakerService.t * AIService.World unit)
  : CircuitBreakerService.t * AIService.World unit :=
  fold_left (fun st gap => request cfg openai messages gap st) gaps st.

(** A server that has just started, at time [t0]. *)
Definition boot (t0 : Z) : CircuitBreakerService.t * AIService.World unit :=
  (CircuitBreakerService.initial,
   {| AIService.clock := t0; AIService.calls := O;
      AIService.stream := Subject.fresh; AIService.sink := tt |}).

Definition start (t0 : Z) : Server :=
  {| breaker := CircuitBreakerService.initial; now := t0;
     upstreamCalls := O; chat := ChatService.empty |}.

(** Total estimated tokens of a list of messages, as the tests of
    [fitToContextWindow] compute it. *)
Definition totalTokens (messages : list Message.t) : Z :=
  fold_right (fun m sum => AIService.estimateTokens (Message.content m) + sum)
    0 messages.

Definition terminal (n : Notification) : bool :=
  match n with
  | Next _ => false
  | _ => true
  end.

(** The specification's notion of trimmed input, [String.prototype.trim]:
    white space and line terminators among the one-byte code units.  The
    server never calls it; it is stated here to compare it with what the
    server stores. *)
Definition isWhiteSpace (c : ascii) : bool :=
  match nat_of_ascii c with
  | 9%nat | 10%nat | 11%nat | 12%nat | 13%nat | 32%nat | 160%nat => true
  | _ => false
  end.

Fixpoint trimStart (s : string) : string :=
  match s with
  | EmptyString => EmptyString
  | String c rest => if isWhiteSpace c then trimStart rest else s
  end.

Fixpoint trimEnd (s : string) : string :=
  match s with
  | EmptyString => EmptyString
  | String c rest =>
      match trimEnd rest with
      | EmptyString => if isWhiteSpace c then EmptyString
                       else String c EmptyString
      | kept => String c kept
      end
  end.

Definition trim (s : string) : string := trimEnd (trimStart s).

(** ** Stubs and inputs of the scenarios *)

Definition http_error (code : Z) : ApiError :=
  {| message := "request failed";
     response := Some {| status := code; data_error_message := None |} |}.

(** A call that rejects at once with the given HTTP status. *)
Definition rejects (code : Z) : Attempt :=
  {| latency := 0; chunks := []; ending := Throws (http_error code) |}.

Definition text_chunk (text : string) : Chunk :=
  {| choices0 := Some {| delta_content := Some text;
                         finish_reason := None |} |}.

Definition stop_chunk : Chunk :=
  {| choices0 := Some {| delta_content := None;
                         finish_reason := Some "stop" |} |}.

(** A call that answers with the given fragments and finishes. *)
Definition answers (fragments : list string) : Attempt :=
  {| latency := 0; chunks := map text_chunk fragments ++ [stop_chunk];
     ending := Exhausted |}.

Definition always (a : Attempt) : OpenAI := fun _ _ => a.

(** The first call behaves as [a], every later one as [b]. *)
Definition first_then (a b : Attempt) : OpenAI :=
  fun n _ => match n with O => a | _ => b end.

Definition uuid_of (n : nat) : string := "uuid-" +:+ pretty n.

Definition hello : Message.t :=
  {| Message.id := "m1"; Message.role := USER; Message.content := "Hello";
     Message.timestamp := 0; Message.sessionId := None |}.

Definition persona (text : string) : Message.t :=
  {| Message.id := "s1"; Message.role := SYSTEM; Message.content := text;
     Message.timestamp := 0; Message.sessionId := None |}.

(** A protected operation for the breaker's own scenarios: the world is
    the clock alone; the operation takes no time and succeeds or fails as
    told. *)
Definition operation (ok : bool) : Z -> Z * Settled unit :=
  fun w =>
    if ok then (w, Resolved tt)
    else (w, Rejected (RawError {| message := "fail"; response := None |})).

(** [execute] calls made at the given times with operations of the given
    outcomes, from the breaker [cb]. *)
Definition drive (cfg : CircuitBreakerConfig) (script : list (Z * bool))
    (cb : CircuitBreakerService.t) : CircuitBreakerService.t :=
  fold_left
    (fun cb step =>
       fst (fst (CircuitBreakerService.execute cfg (fun w : Z => w)
                   (operation (snd step)) cb (fst step))))
    script cb.

(** A protected operation that counts its invocations and then fails. *)
Definition counting_stub : Z * nat -> (Z * nat) * Settled unit :=
  fun w =>
    ((fst w, Datatypes.S (snd w)),
     Rejected (RawError {| message := "fail"; response := None |})).

(** What holds of every breaker that [execute] can produce from a fresh
    one: counts are not negative, and an open circuit has recorded at
    least one failure and its time. *)
Definition consistent (cb : CircuitBreakerService.t) : Prop :=
  0 <= CircuitBreakerService.failureCount cb /\
  (CircuitBreakerService.state cb = OPEN ->
   1 <= CircuitBreakerService.failureCount cb /\
   is_Some (CircuitBreakerService.lastFailureTime cb)).

(** A property of a request's [Subject] and of its subscriber's state that
    every delivered notification maintains. *)
Record preserved {S : Type} (observer : Observer S)
    (P : Subject.t -> S -> Prop) : Prop := {
  preserved_next : forall chunk now sub s,
    chunk <> EmptyString -> Subject.isStopped sub = false -> P sub s ->
    P (Subject.next chunk sub) (on_next observer chunk now s);
  preserved_error : forall e now sub s,
    Subject.isStopped sub = false -> P sub s ->
    P (Subject.error e sub) (on_error observer e now s);
  preserved_complete : forall now sub s,
    Subject.isStopped sub = false -> P sub s ->
    P (Subject.complete sub) (on_complete observer now s);
}.

(** The notifications of a [Subject] are fragments, none of them empty,
    followed, once it has stopped, by exactly one [Error] or [Complete]. *)
Definition well_formed (sub : Subject.t) : Prop :=
  exists fragments : list string,
    Forall (fun chunk => chunk <> EmptyString) fragments /\
    if Subject.isStopped sub
    then exists t, terminal t = true /\
                   Subject.emitted sub = map Next fragments ++ [t]
    else Subject.emitted sub = map Next fragments.

(** The world in which the chunks of a call are read: the call has been
    counted and its latency has passed. *)
Definition entered {S : Type} (openai : OpenAI) (messages : list AIMessage)
    (w : AIService.World S) : AIService.World S :=
  {| AIService.clock :=
       AIService.clock w + latency (openai (AIService.calls w) messages);
     AIService.calls := Datatypes.S (AIService.calls w);
     AIService.stream := AIService.stream w;
     AIService.sink := AIService.sink w |}.

(** The estimated cost of the System message that [fitToContextWindow]
    always includes: that of the first System message of the input, 0 when
    there is none. *)
Definition systemCost (messages : list Message.t) : Z :=
  match List.find Message.isSystem messages with
  | Some m => AIService.estimateTokens (Message.content m)
  | None => 0
  end.

(** The assistant's answer has been committed to the session stored under
    [sid]: an ASSISTANT message has been appended to it and its
    [updatedAt] set, nothing else in the map has changed. *)
Definition committed (sid : string) (st0 st : ChatService.State) : Prop :=
  exists answer t,
    Message.role answer = ASSISTANT /\
    ChatService.sessions st
    = alter (fun session =>
               ChatService.touch t (ChatService.push answer session))
        sid (ChatService.sessions st0).

(** How the service stands with respect to the AI stream of a request that
    started from the state [st0]: untouched while the stream runs and after
    it has ended in an error, committed after it has completed. *)
Definition settles (sid : string) (st0 : ChatService.State)
    (sub : Subject.t) (s : ChatService.Subscriber) : Prop :=
  if Subject.isStopped sub
  then (exists e, last (Subject.emitted sub) = Some (Error e) /\
                  ChatService.service s = st0) \/
       (last (Subject.emitted sub) = Some Complete /\
        committed sid st0 (ChatService.service s))
  else ChatService.service s = st0.

(** A property of the [Subject] and of the subscriber, read on a world. *)
Definition holds {S : Type} (P : Subject.t -> S -> Prop)
    (w : AIService.World S) : Prop :=
  P (AIService.stream w) (AIService.sink w).

(* ===================================================================== *)
(** * Further vocabulary                                                  *)
(* ===================================================================== *)

(** ** The breaker over time *)

(** The breakers one service instance can be in, each with the number of
    [execute] calls in flight: those that have passed the check of the
    state and whose operation has not settled yet.  [execute] awaits its
    operation between that check and [onSuccess] or [onFailure], so calls
    overlap, and each of these steps is taken on whatever the other calls
    and [reset] have made of the breaker in the meantime.  A call that is
    turned away changes nothing. *)
Inductive reachable (cfg : CircuitBreakerConfig)
  : CircuitBreakerService.t -> nat -> Prop :=
| reachable_initial : reachable cfg CircuitBreakerService.initial O
| reachable_enter (cb cb1 : CircuitBreakerService.t) (now : Z)
    (pending : nat) :
    reachable cfg cb pending ->
    CircuitBreakerService.gate cfg cb now = inr cb1 ->
    reachable cfg cb1 (Datatypes.S pending)
| reachable_success (cb : CircuitBreakerService.t) (pending : nat) :
    reachable cfg cb (Datatypes.S pending) ->
    reachable cfg (CircuitBreakerService.onSuccess cfg cb) pending
| reachable_failure (cb : CircuitBreakerService.t) (now : Z)
    (pending : nat) :
    reachable cfg cb (Datatypes.S pending) ->
    reachable cfg (CircuitBreakerService.onFailure cfg cb now) pending
| reachable_reset (cb : CircuitBreakerService.t) (pending : nat) :
    reachable cfg cb pending ->
    reachable cfg (CircuitBreakerService.reset cb) pending.

(** The breakers of an instance whose calls are taken one after the
    other: no call begins before the one before it has settled. *)
Inductive serial (cfg : CircuitBreakerConfig)
  : CircuitBreakerService.t -> Prop :=
| serial_initial : serial cfg CircuitBreakerService.initial
| serial_execute {W T : Type} (Date_now : W -> Z)
    (fn : W -> W * Settled T) (cb : CircuitBreakerService.t) (w : W) :
    serial cfg cb ->
    serial cfg
      (fst (fst (CircuitBreakerService.execute cfg Date_now fn cb w)))
| serial_reset (cb : CircuitBreakerService.t) :
    serial cfg cb -> serial cfg (CircuitBreakerService.reset cb).

(** What the counters say in each state. *)
Record sound (cfg : CircuitBreakerConfig) (cb : CircuitBreakerService.t)
  : Prop := {
  sound_failures : 0 <= CircuitBreakerService.failureCount cb;
  sound_successes : 0 <= CircuitBreakerService.successCount cb;
  sound_closed :
    CircuitBreakerService.state cb = CLOSED ->
    CircuitBreakerService.failureCount cb < failureThreshold cfg /\
    CircuitBreakerService.successCount cb = 0;
  sound_open :
    CircuitBreakerService.state cb = OPEN ->
    CircuitBreakerService.successCount cb = 0 /\
    is_Some (CircuitBreakerService.lastFailureTime cb);
  sound_half_open :
    CircuitBreakerService.state cb = HALF_OPEN ->
    CircuitBreakerService.successCount cb < successThreshold cfg /\
    is_Some (CircuitBreakerService.lastFailureTime cb);
}.

(** The lengths of the runs of consecutive failures in a script of
    [execute] calls: after each call, how many failures in a row have just
    been seen, starting from a run of [k]. *)
Fixpoint streaks (k : Z) (script : list (Z * bool)) : list Z :=
  match script with
  | [] => []
  | (_, ok) :: rest =>
      let k := if ok then 0 else k + 1 in
      k :: streaks k rest
  end.

(** ** What a request delivers *)

(** The fragments that reading one completion forwards: the truthy
    contents of its chunks, in order, up to and including the first chunk
    with a truthy [finish_reason]. *)
Fixpoint delivered (completion : list Chunk) : list string :=
  match completion with
  | [] => []
  | chunk :: rest =>
      let here :=
        match choices0 chunk ≫= delta_content with
        | Some text => if JS.truthy_string text then [text] else []
        | None => []
        end in
      if JS.truthy (choices0 chunk ≫= finish_reason) then here
      else here ++ delivered rest
  end.

(** The fragments delivered by the [n] calls of the stub that start with
    call number [from], one call after the other. *)
Definition fragments_of (openai : OpenAI) (messages : list AIMessage)
    (from n : nat) : list string :=
  concat (map (fun i => delivered (chunks (openai i messages))) (seq from n)).

(** The time those calls take. *)
Definition latencies (openai : OpenAI) (messages : list AIMessage)
    (from n : nat) : Z :=
  foldr Z.add 0 (map (fun i => latency (openai i messages)) (seq from n)).

(** The time slept after [n] failed attempts, the first of them being
    attempt number [attempt]. *)
Definition waits (attempt n : nat) : Z :=
  foldr Z.add 0 (map AIService.calculateRetryDelay (seq attempt n)).

(** The text carried by the fragments of a list of notifications. *)
Fixpoint transcript (log : list Notification) : string :=
  match log with
  | [] => EmptyString
  | Next chunk :: rest => chunk +:+ transcript rest
  | _ :: rest => transcript rest
  end.

(** ** AIService.generateCompletion *)

(** One call of [openai.chat.completions.create({..., stream: false})]:
    the time it takes and either the error it rejects with or
    [choices[0]?.message?.content] of the completion it resolves to. *)
Record CompletionAttempt := {
  completion_latency : Z;
  completion_result : ApiError + option string;
}.

Definition CompletionClient : Type :=
  nat -> list AIMessage -> CompletionAttempt.

(** The clock and the number of calls the client has received. *)
Record Upstream := {
  at_time : Z;
  received : nat;
}.

(** The operation that [generateCompletion] hands to the breaker. *)
Definition createCompletion (client : CompletionClient)
    (messages : list AIMessage) (w : Upstream)
  : Upstream * Settled (option string) :=
  let attempt := client (received w) messages in
  let w := {| at_time := at_time w + completion_latency attempt;
              received := Datatypes.S (received w) |} in
  match completion_result attempt with
  | inl error => (w, Rejected (RawError error))
  | inr content => (w, Resolved content)
  end.

(** [generateCompletion(messages)]: the [catch] logs and rethrows. *)
Definition generateCompletion (cfg : CircuitBreakerConfig)
    (client : CompletionClient) (messages : list Message.t)
    (cb : CircuitBreakerService.t) (w : Upstream)
  : CircuitBreakerService.t * Upstream * Settled string :=
  match CircuitBreakerService.execute cfg at_time
          (createCompletion client (AIService.toOpenAI messages)) cb w with
  | (cb, w, Resolved content) =>
      (cb, w, Resolved (JS.or_else content EmptyString))
  | (cb, w, Rejected error) => (cb, w, Rejected error)
  end.

(** ** What the caller of [processMessage] sees *)

(** The error callback of [processMessage] wraps what it forwards. *)
Definition wrap (n : Notification) : Notification :=
  match n with
  | Error e =>
      Error (MessageProcessingException "Failed to generate AI response" e)
  | _ => n
  end.

(** The caller's [Subject] as the image of the AI stream's. *)
Definition mirror (sub : Subject.t) : Subject.t :=
  {| Subject.isStopped := Subject.isStopped sub;
     Subject.emitted := map wrap (Subject.emitted sub) |}.

(** While the AI stream runs, the service is as [processMessage] left it,
    the buffer holds the text of the fragments so far, and the caller has
    been sent exactly those fragments. *)
Definition running (st0 : ChatService.State) (sub : Subject.t)
    (s : ChatService.Subscriber) : Prop :=
  Subject.isStopped sub = false ->
  ChatService.service s = st0 /\
  ChatService.assistantContent s = transcript (Subject.emitted sub) /\
  ChatService.out s = sub.

(** A call that delivers the given fragments and then breaks off with the
    given HTTP status, after a quarter of a second. *)
Definition falters (fragments : list string) (code : Z) : Attempt :=
  {| latency := 250; chunks := map text_chunk fragments;
     ending := Throws (http_error code) |}.

(** ** The rest of ChatService *)

Inductive ChatServiceException :=
| SessionNotFoundException (sessionId : string).

(** [getSession(sessionId)] *)
Definition getSession (sessionId : string) (st : ChatService.State)
  : option ChatSession.t :=
  ChatService.sessions st !! sessionId.

(** [getSessionOrFail(sessionId)] *)
Definition getSessionOrFail (sessionId : string) (st : ChatService.State)
  : ChatServiceException + ChatSession.t :=
  match ChatService.sessions st !! sessionId with
  | Some session => inr session
  | None => inl (SessionNotFoundException sessionId)
  end.

(** [getActiveSessionsCount()] *)
Definition getActiveSessionsCount (st : ChatService.State) : nat :=
  size (ChatService.sessions st).

(** [deleteSession(sessionId)]: what [Map.delete] answers, and the service
    afterwards. *)
Definition deleteSession (sessionId : string) (st : ChatService.State)
  : bool * ChatService.State :=
  match ChatService.sessions st !! sessionId with
  | Some _ =>
      (true,
       {| ChatService.sessions := delete sessionId (ChatService.sessions st);
          ChatService.uuids := ChatService.uuids st |})
  | None => (false, st)
  end.

(** [sessionAge > maxAge] for a session, at time [now]. *)
Definition expired (maxAge now : Z) (session : ChatSession.t) : bool :=
  maxAge <? now - ChatSession.updatedAt session.

(** One turn of the loop of [clearOldSessions], on the count and the map
    so far. *)
Definition sweep (maxAge now : Z) (id : string) (session : ChatSession.t)
    (acc : nat * gmap string ChatSession.t)
  : nat * gmap string ChatSession.t :=
  if expired maxAge now session
  then (Datatypes.S (fst acc), delete id (snd acc))
  else acc.

(** [clearOldSessions(maxAgeMinutes)], with [None] for the default
    argument.  The loop visits every entry the map had when it started;
    the outcome does not depend on the order. *)
Definition clearOldSessions (maxAgeMinutes : option Z) (now : Z)
    (st : ChatService.State) : nat * ChatService.State :=
  let maxAge :=
    default (ChatService.maxSessionAgeMinutes ChatService.config)
      maxAgeMinutes * 60 * 1000 in
  let '(deleted, sessions) :=
    map_fold (sweep maxAge now) (O, ChatService.sessions st)
      (ChatService.sessions st) in
  (deleted,
   {| ChatService.sessions := sessions;
      ChatService.uuids := ChatService.uuids st |}).

(** ** ChatController *)

Record MessageResponseDto := {
  response_id : string;
  response_role : MessageRole;
  response_content : string;
  response_timestamp : Z;
  response_sessionId : string;
}.

(** The promise that [sendMessage] awaits: [next] collects a chunk,
    [error] rejects, [complete] resolves; [None] while it is pending. *)
Fixpoint collect (log : list Notification) (chunks : list string)
  : list string * option (Settled unit) :=
  match log with
  | [] => (chunks, None)
  | Next chunk :: rest => collect rest (chunks ++ [chunk])
  | Error e :: _ => (chunks, Some (Rejected e))
  | Complete :: _ => (chunks, Some (Resolved tt))
  end.

(** [chunks.join('')] *)
Definition join (chunks : list string) : string :=
  foldr String.append EmptyString chunks.

(** [ChatController.sendMessage(id, dto)]: what the request answers
    ([None] if it never did) and the server afterwards. *)
Definition sendMessage (breakerConfig : CircuitBreakerConfig)
    (openai : OpenAI) (randomUUID : nat -> string)
    (id : string) (dto : SendMessageDto) (srv : Server)
  : option (Settled MessageResponseDto) * Server :=
  let '(pm, out, _, srv) :=
    processMessage breakerConfig openai randomUUID
      (dto_message dto) (Some id) srv in
  let '(chunks, settled) := collect (Subject.emitted out) [] in
  (match settled with
   | Some (Resolved _) =>
       Some (Resolved
               {| response_id := ChatService.messageId pm;
                  response_role := ASSISTANT;
                  response_content := join chunks;
                  response_timestamp := now srv;
                  response_sessionId := id |})
   | Some (Rejected e) => Some (Rejected e)
   | None => None
   end, srv).

(** [ChatController.cleanupOldSessions(body)]:
    [body?.maxAgeMinutes || 60], then [clearOldSessions]. *)
Definition cleanupOldSessions (maxAgeMinutes : option Z) (now : Z)
    (st : ChatService.State) : (nat * Z) * ChatService.State :=
  let maxAge :=
    match maxAgeMinutes with
    | Some n => if JS.truthy_number n then n else 60
    | None => 60
    end in
  let '(deleted, st) := clearOldSessions (Some maxAge) now st in
  ((deleted, maxAge), st).

(** ** The context window *)

(** The messages that [fitToContextWindow] chooses among: all but the
    System messages, in the order of the input. *)
Definition others (messages : list Message.t) : list Message.t :=
  List.filter (fun m => negb (Message.isSystem m)) messages.

(* ===================================================================== *)
(** * Properties of the circuit breaker                                   *)
(* ===================================================================== *)

Section BreakerFacts.
Import CircuitBreakerService.
Variable config : CircuitBreakerConfig.

(** [reset()] from any state yields [{CLOSED, 0, 0, null}], and [getStats()]
    is a plain read. *)
Lemma reset_initial cb : reset cb = initial.
Proof. reflexivity. Qed.

Lemma getStats_read cb : getStats cb = cb /\ getState cb = state cb.
Proof. by destruct cb. Qed.

Lemma shouldAttemptReset_before cb now last :
  lastFailureTime cb = Some last ->
  now < last + timeout config ->
  shouldAttemptReset config cb now = false.
Proof.
  intros Hlast Hlt. unfold shouldAttemptReset. rewrite Hlast.
  apply Z.leb_gt. lia.
Qed.

Lemma shouldAttemptReset_after cb now last :
  lastFailureTime cb = Some last ->
  last + timeout config <= now ->
  shouldAttemptReset config cb now = true.
Proof.
  intros Hlast Hle. unfold shouldAttemptReset. rewrite Hlast.
  apply Z.leb_le. lia.
Qed.

Lemma gate_not_open cb now :
  state cb <> OPEN -> gate config cb now = inr cb.
Proof. unfold gate. destruct (state cb); congruence. Qed.

Lemma gate_open_before cb now last :
  state cb = OPEN ->
  lastFailureTime cb = Some last ->
  now < last + timeout config ->
  gate config cb now
  = inl (CircuitBreakerOpenException None (Some (failureCount cb))).
Proof.
  intros Hopen Hlast Hlt. unfold gate. rewrite Hopen.
  by rewrite (shouldAttemptReset_before _ _ _ Hlast Hlt).
Qed.

Lemma onFailure_successCount cb now :
  successCount (onFailure config cb now) = 0.
Proof. unfold onFailure. by case_match. Qed.

Lemma onFailure_failureCount cb now :
  failureCount (onFailure config cb now) = failureCount cb + 1.
Proof. unfold onFailure. by case_match. Qed.

Lemma onFailure_lastFailureTime cb now :
  lastFailureTime (onFailure config cb now) = Some now.
Proof. unfold onFailure. by case_match. Qed.

Lemma onFailure_state cb now :
  state (onFailure config cb now)
  = if failureThreshold config <=? failureCount cb + 1 then OPEN
    else state cb.
Proof. unfold onFailure. simpl. by case_match. Qed.

(** A failure right after the half-open probe is admitted does reopen the
    circuit: the count that opened it is still in place. *)
Lemma onFailure_reopens cb now :
  failureThreshold config <= failureCount cb + 1 ->
  state (onFailure config cb now) = OPEN.
Proof.
  intros H. rewrite onFailure_state.
  by rewrite (proj2 (Z.leb_le _ _) H).
Qed.

Lemma onSuccess_failureCount cb :
  failureCount (onSuccess config cb) = 0.
Proof. unfold onSuccess. simpl. repeat case_match; done. Qed.

Lemma onSuccess_not_open cb :
  state cb <> OPEN -> state (onSuccess config cb) <> OPEN.
Proof.
  unfold onSuccess. simpl. intros H.
  destruct (state cb) eqn:E; simpl; try congruence.
  case_match; simpl; congruence.
Qed.

Lemma initial_consistent : consistent initial.
Proof. split; simpl; [lia | discriminate]. Qed.

Lemma gate_passes_not_open cb now cb' :
  gate config cb now = inr cb' -> state cb' <> OPEN.
Proof.
  unfold gate. destruct (state cb) eqn:E.
  - intros [= <-]. congruence.
  - case_match; [intros [= <-]; simpl; congruence | discriminate].
  - intros [= <-]. congruence.
Qed.

Lemma gate_passes_failureCount cb now cb' :
  gate config cb now = inr cb' -> failureCount cb' = failureCount cb.
Proof.
  unfold gate. destruct (state cb); [| case_match |];
    try discriminate; by intros [= <-].
Qed.

Lemma execute_consistent {W T : Type} (Date_now : W -> Z)
    (fn : W -> W * Settled T) cb w :
  consistent cb -> consistent (fst (fst (execute config Date_now fn cb w))).
Proof.
  intros [Hnn Hopen]. unfold execute.
  destruct (gate config cb (Date_now w)) as [exn | cb'] eqn:Hgate; simpl.
  { by split. }
  pose proof (gate_passes_not_open _ _ _ Hgate) as Hno.
  pose proof (gate_passes_failureCount _ _ _ Hgate) as Hfc.
  destruct (fn w) as [w' [v | e]]; simpl.
  - split; [rewrite onSuccess_failureCount; lia |].
    intros Hs. by apply onSuccess_not_open in Hs.
  - split; [rewrite onFailure_failureCount; lia |].
    intros _. rewrite onFailure_failureCount, onFailure_lastFailureTime.
    split; [lia | eauto].
Qed.

(** In a consistent open breaker the rejection's message is the one that
    spells out the failure count. *)
Lemma open_message_detailed cb :
  consistent cb -> state cb = OPEN ->
  openExceptionMessage None (Some (failureCount cb))
  = DetailedMessage (failureCount cb).
Proof.
  intros [_ H] Hopen. destruct (H Hopen) as [Hpos _].
  unfold openExceptionMessage, JS.truthy_number.
  destruct (Z.eqb_spec (failureCount cb) 0); [lia | done].
Qed.

Lemma execute_rejects_when_open {W T : Type} (Date_now : W -> Z)
    (fn : W -> W * Settled T) (cb : t) (w : W) (last : Z) :
  state cb = OPEN ->
  lastFailureTime cb = Some last ->
  Date_now w < last + timeout config ->
  execute config Date_now fn cb w
  = (cb, w,
     Rejected (CircuitBreakerOpenException None (Some (failureCount cb)))).
Proof.
  intros Hopen Hlast Hlt. unfold execute.
  by rewrite (gate_open_before _ _ _ Hopen Hlast Hlt).
Qed.

(** C6.  An [execute] call made while the breaker is OPEN, at a time
    strictly before [lastFailureTime + timeout], does not invoke the
    protected operation: whatever the operation is, the world it acts on
    (a call counter, say) is returned untouched; the call rejects with the
    [CircuitBreakerOpenException] built from the current failure count;
    and the breaker's state and counters are the ones it had. *)
Theorem execute_open_before_deadline {W T : Type} (Date_now : W -> Z)
    (fn : W -> W * Settled T) (cb : t) (w : W) (last : Z) :
  state cb = OPEN ->
  lastFailureTime cb = Some last ->
  Date_now w < last + timeout config ->
  let '(cb', w', outcome) := execute config Date_now fn cb w in
  w' = w /\
  outcome
  = Rejected (CircuitBreakerOpenException None (Some (failureCount cb))) /\
  cb' = cb.
Proof.
  intros Hopen Hlast Hlt.
  by rewrite (execute_rejects_when_open Date_now fn cb w last Hopen Hlast Hlt).
Qed.

End BreakerFacts.

Lemma execute_open_before_deadline_witness :
  let cb := {| CircuitBreakerService.state := OPEN;
               CircuitBreakerService.failureCount := 5;
               CircuitBreakerService.successCount := 0;
               CircuitBreakerService.lastFailureTime := Some 1000 |} in
  CircuitBreakerService.state cb = OPEN /\
  CircuitBreakerService.lastFailureTime cb = Some 1000 /\
  fst (60999, O) < 1000 + timeout CircuitBreakerService.defaultConfig /\
  let '(cb', w', outcome) :=
    CircuitBreakerService.execute CircuitBreakerService.defaultConfig fst
      counting_stub cb (60999, O) in
  w' = (60999, O) /\
  outcome = Rejected (CircuitBreakerOpenException None (Some 5)) /\
  cb' = cb.
Proof.
  intros cb. do 3 (split; [reflexivity |]).
  apply (execute_open_before_deadline CircuitBreakerService.defaultConfig
           fst counting_stub cb (60999, O) 1000); reflexivity.
Defined.

(** At the deadline itself the call is let through (and counted). *)
Example execute_open_at_deadline :
  CircuitBreakerService.execute CircuitBreakerService.defaultConfig fst
    counting_stub
    {| CircuitBreakerService.state := OPEN;
       CircuitBreakerService.failureCount := 5;
       CircuitBreakerService.successCount := 0;
       CircuitBreakerService.lastFailureTime := Some 1000 |} (61000, O)
  = ({| CircuitBreakerService.state := OPEN;
        CircuitBreakerService.failureCount := 6;
        CircuitBreakerService.successCount := 0;
        CircuitBreakerService.lastFailureTime := Some 61000 |},
     (61000, 1%nat),
     Rejected (RawError {| message := "fail"; response := None |})).
Proof. reflexivity. Qed.

(** C2.  With the default thresholds, five failures open the circuit; a
    success after the timeout leaves it HALF_OPEN with one success counted
    and the failure count back at 0; the failure that follows resets the
    success counter but finds a failure count of 1, below the threshold,
    and the circuit stays HALF_OPEN instead of going back to OPEN. *)
Theorem half_open_failure_after_success_stays_half_open :
  let opened :=
    drive CircuitBreakerService.defaultConfig
      [(0, false); (1, false); (2, false); (3, false); (4, false)]
      CircuitBreakerService.initial in
  let probed :=
    drive CircuitBreakerService.defaultConfig [(60004, true)] opened in
  let failed :=
    drive CircuitBreakerService.defaultConfig [(60005, false)] probed in
  CircuitBreakerService.state opened = OPEN /\
  CircuitBreakerService.state probed = HALF_OPEN /\
  CircuitBreakerService.successCount probed = 1 /\
  failed = {| CircuitBreakerService.state := HALF_OPEN;
              CircuitBreakerService.failureCount := 1;
              CircuitBreakerService.successCount := 0;
              CircuitBreakerService.lastFailureTime := Some 60005 |}.
Proof. repeat split; reflexivity. Qed.

(** The same failure without a success before it does reopen the circuit. *)
Example half_open_failure_at_once_reopens :
  drive CircuitBreakerService.defaultConfig
    [(0, false); (1, false); (2, false); (3, false); (4, false);
     (60004, false)]
    CircuitBreakerService.initial
  = {| CircuitBreakerService.state := OPEN;
       CircuitBreakerService.failureCount := 6;
       CircuitBreakerService.successCount := 0;
       CircuitBreakerService.lastFailureTime := Some 60004 |}.
Proof. reflexivity. Qed.

(* ===================================================================== *)
(** * Properties of the streaming pipeline                                *)
(* ===================================================================== *)

Section PipelineFacts.
Import AIService.
Context {S : Type}.
Variable openai : OpenAI.
Variable observer : Observer S.

Implicit Types (w : World S) (messages : list AIMessage).

(** ** Clock and call count *)

Lemma forAwait_broke completion w :
  snd (forAwait observer completion w) = breaks completion.
Proof.
  revert w. induction completion as [| chunk rest IH]; intros w; simpl.
  - done.
  - destruct (JS.truthy (choices0 chunk ≫= finish_reason)); simpl; [done |].
    apply IH.
Qed.

Lemma stream_next_frame content w :
  clock (stream_next observer content w) = clock w /\
  calls (stream_next observer content w) = calls w.
Proof. unfold stream_next. by case_match. Qed.

Lemma forAwait_frame completion w :
  clock (fst (forAwait observer completion w)) = clock w /\
  calls (fst (forAwait observer completion w)) = calls w.
Proof.
  revert w. induction completion as [| chunk rest IH]; intros w; simpl.
  - done.
  - set (w1 := match choices0 chunk ≫= delta_content with
               | Some text =>
                   if JS.truthy (choices0 chunk ≫= delta_content)
                   then stream_next observer text w else w
               | None => w
               end).
    assert (clock w1 = clock w /\ calls w1 = calls w) as [Hc Hn].
    { subst w1. repeat case_match; try done. apply stream_next_frame. }
    destruct (JS.truthy (choices0 chunk ≫= finish_reason)); simpl.
    + done.
    + destruct (IH w1) as [-> ->]. done.
Qed.

Lemma stream_complete_frame w :
  clock (stream_complete observer w) = clock w /\
  calls (stream_complete observer w) = calls w.
Proof. unfold stream_complete. by case_match. Qed.

Lemma stream_error_frame e w :
  clock (stream_error observer e w) = clock w /\
  calls (stream_error observer e w) = calls w.
Proof. unfold stream_error. by case_match. Qed.

Lemma executeStream_failure messages w e :
  failure (openai (calls w) messages) = Some e ->
  executeStream openai observer messages w
  = (fst (forAwait observer (chunks (openai (calls w) messages))
            (entered openai messages w)),
     Rejected (handleOpenAIError e)).
Proof.
  unfold failure, executeStream. fold (entered openai messages w).
  pose proof (forAwait_broke (chunks (openai (calls w) messages))
                (entered openai messages w)) as Hb.
  destruct (forAwait observer _ (entered openai messages w)) as [w1 broke].
  simpl in *. subst broke.
  destruct (breaks _); [discriminate |].
  destruct (ending _); [discriminate |]. by intros [= ->].
Qed.

Lemma executeStream_success messages w :
  failure (openai (calls w) messages) = None ->
  executeStream openai observer messages w
  = (stream_complete observer
       (fst (forAwait observer (chunks (openai (calls w) messages))
               (entered openai messages w))),
     Resolved tt).
Proof.
  unfold failure, executeStream. fold (entered openai messages w).
  pose proof (forAwait_broke (chunks (openai (calls w) messages))
                (entered openai messages w)) as Hb.
  destruct (forAwait observer _ (entered openai messages w)) as [w1 broke].
  simpl in *. subst broke.
  destruct (breaks _); [done |].
  destruct (ending _); [done | discriminate].
Qed.

Lemma executeStream_calls messages w :
  calls (fst (executeStream openai observer messages w))
  = Datatypes.S (calls w).
Proof.
  destruct (failure (openai (calls w) messages)) as [e |] eqn:Hf.
  - rewrite (executeStream_failure _ _ _ Hf). simpl.
    by destruct (forAwait_frame (chunks (openai (calls w) messages))
                   (entered openai messages w)) as [_ ->].
  - rewrite (executeStream_success _ _ Hf). simpl.
    destruct (stream_complete_frame
                (fst (forAwait observer
                        (chunks (openai (calls w) messages))
                        (entered openai messages w)))) as [_ ->].
    by destruct (forAwait_frame (chunks (openai (calls w) messages))
                   (entered openai messages w)) as [_ ->].
Qed.

Lemma executeStream_clock messages w :
  clock (fst (executeStream openai observer messages w))
  = clock w + latency (openai (calls w) messages).
Proof.
  destruct (failure (openai (calls w) messages)) as [e |] eqn:Hf.
  - rewrite (executeStream_failure _ _ _ Hf). simpl.
    by destruct (forAwait_frame (chunks (openai (calls w) messages))
                   (entered openai messages w)) as [-> _].
  - rewrite (executeStream_success _ _ Hf). simpl.
    destruct (stream_complete_frame
                (fst (forAwait observer
                        (chunks (openai (calls w) messages))
                        (entered openai messages w)))) as [-> _].
    by destruct (forAwait_frame (chunks (openai (calls w) messages))
                   (entered openai messages w)) as [-> _].
Qed.

Lemma executeStream_outcome messages w :
  snd (executeStream openai observer messages w)
  = match failure (openai (calls w) messages) with
    | Some e => Rejected (handleOpenAIError e)
    | None => Resolved tt
    end.
Proof.
  destruct (failure (openai (calls w) messages)) as [e |] eqn:Hf.
  - by rewrite (executeStream_failure _ _ _ Hf).
  - by rewrite (executeStream_success _ _ Hf).
Qed.
(** ** Retries *)

Lemma streamWithRetry_O messages attempt w :
  streamWithRetry openai observer O messages attempt w
  = match executeStream openai observer messages w with
    | (w, Resolved v) => (w, Resolved v)
    | (w, Rejected error) => (w, Rejected error)
    end.
Proof. simpl. destruct (executeStream _ _ _ _) as [w1 [v | e]]; [done |].
       by case_match. Qed.

Lemma streamWithRetry_S fuel messages attempt w :
  streamWithRetry openai observer (Datatypes.S fuel) messages attempt w
  = match executeStream openai observer messages w with
    | (w, Resolved v) => (w, Resolved v)
    | (w, Rejected error) =>
        if (attempt <? maxRetries config)%nat
        then streamWithRetry openai observer fuel messages
               (Datatypes.S attempt) (sleep (calculateRetryDelay attempt) w)
        else (w, Rejected error)
    end.
Proof. reflexivity. Qed.

Lemma sleep_calls ms w : calls (sleep ms w) = calls w.
Proof. reflexivity. Qed.

Lemma streamWithRetry_calls_ge fuel messages attempt w :
  (calls w < calls (fst (streamWithRetry openai observer fuel messages
                           attempt w)))%nat.
Proof.
  revert attempt w. induction fuel as [| fuel IH]; intros attempt w;
    [rewrite streamWithRetry_O | rewrite streamWithRetry_S];
    pose proof (executeStream_calls messages w) as Hc;
    destruct (executeStream openai observer messages w) as [w1 [v | e]];
    cbn [fst] in *; try lia.
  case_match; cbn [fst]; [| lia].
  specialize (IH (Datatypes.S attempt)
                (sleep (calculateRetryDelay attempt) w1)).
  rewrite sleep_calls in IH. lia.
Qed.

(** A failed attempt that is not the last one is followed by another call
    of the stub, whatever the error was. *)
Lemma streamWithRetry_retries fuel messages attempt w e :
  failure (openai (calls w) messages) = Some e ->
  (attempt < maxRetries config)%nat ->
  (calls w + 2 <= calls (fst (streamWithRetry openai observer
                                (Datatypes.S fuel) messages attempt w)))%nat.
Proof.
  intros Hf Hlt. rewrite streamWithRetry_S.
  pose proof (executeStream_calls messages w) as Hc.
  rewrite (executeStream_failure _ _ _ Hf) in *. cbn [fst] in Hc.
  destruct (Nat.ltb_spec attempt (maxRetries config)); [| lia].
  pose proof (streamWithRetry_calls_ge fuel messages (Datatypes.S attempt)
                (sleep (calculateRetryDelay attempt)
                   (fst (forAwait observer
                           (chunks (openai (calls w) messages))
                           (entered openai messages w))))) as Hge.
  rewrite sleep_calls in Hge. lia.
Qed.

Lemma stream_next_isStopped content w :
  Subject.isStopped (stream (stream_next observer content w))
  = Subject.isStopped (stream w).
Proof.
  unfold stream_next. destruct (Subject.isStopped (stream w)) eqn:E; [done |].
  simpl. unfold Subject.next. by rewrite E.
Qed.

Lemma forAwait_isStopped completion w :
  Subject.isStopped (stream (fst (forAwait observer completion w)))
  = Subject.isStopped (stream w).
Proof.
  revert w. induction completion as [| chunk rest IH]; intros w; simpl;
    [done |].
  set (w1 := match choices0 chunk ≫= delta_content with
             | Some text =>
                 if JS.truthy (choices0 chunk ≫= delta_content)
                 then stream_next observer text w else w
             | None => w
             end).
  assert (Subject.isStopped (stream w1) = Subject.isStopped (stream w))
    as Hw1.
  { subst w1. repeat case_match; try done. apply stream_next_isStopped. }
  destruct (JS.truthy (choices0 chunk ≫= finish_reason)); simpl; [done |].
  by rewrite IH.
Qed.

Lemma stream_complete_isStopped w :
  Subject.isStopped (stream (stream_complete observer w)) = true.
Proof.
  unfold stream_complete. destruct (Subject.isStopped (stream w)) eqn:E;
    [done |].
  simpl. unfold Subject.complete. by rewrite E.
Qed.

Lemma stream_error_isStopped e w :
  Subject.isStopped (stream (stream_error observer e w)) = true.
Proof.
  unfold stream_error. destruct (Subject.isStopped (stream w)) eqn:E;
    [done |].
  simpl. unfold Subject.error. by rewrite E.
Qed.

(** An error delivered on a stream that has not stopped is its last
    notification. *)
Lemma stream_error_last e w :
  Subject.isStopped (stream w) = false ->
  last (Subject.emitted (stream (stream_error observer e w)))
  = Some (Error e).
Proof.
  intros E. unfold stream_error. rewrite E. simpl.
  unfold Subject.error. rewrite E. simpl. apply last_snoc.
Qed.

(** When every call of the stub fails ([err n] being the error of the
    [n]-th call), [streamWithRetry] calls it once per remaining attempt,
    rejects with what [handleOpenAIError] makes of the last error, and
    leaves the stream running. *)
Lemma streamWithRetry_all_fail messages (err : nat -> ApiError) :
  (forall n, failure (openai n messages) = Some (err n)) ->
  forall fuel attempt w,
    (maxRetries config <= attempt + fuel)%nat ->
    (attempt <= maxRetries config)%nat ->
    let r := streamWithRetry openai observer fuel messages attempt w in
    calls (fst r) = (calls w + (maxRetries config - attempt + 1))%nat /\
    snd r = Rejected (handleOpenAIError
                        (err (calls w + (maxRetries config - attempt))%nat)) /\
    Subject.isStopped (stream (fst r)) = Subject.isStopped (stream w).
Proof.
  intros Hall. induction fuel as [| fuel IH]; intros attempt w Hfuel Hle r;
    subst r;
    [rewrite streamWithRetry_O | rewrite streamWithRetry_S];
    pose proof (Hall (calls w)) as Hf;
    pose proof (executeStream_calls messages w) as Hc;
    rewrite (executeStream_failure _ _ _ Hf) in *; cbn [fst snd] in *.
  - replace (calls w + (maxRetries config - attempt))%nat with (calls w)
      by lia.
    split; [lia |]. split; [done |]. by rewrite forAwait_isStopped.
  - destruct (Nat.ltb_spec attempt (maxRetries config)).
    + destruct (IH (Datatypes.S attempt)
                  (sleep (calculateRetryDelay attempt)
                     (fst (forAwait observer
                             (chunks (openai (calls w) messages))
                             (entered openai messages w)))))
        as (Hcalls & Hrej & Hstop); [lia | lia |].
      rewrite Hcalls, Hrej, Hstop, sleep_calls. cbn [sleep stream].
      rewrite forAwait_isStopped. rewrite Hc.
      split; [lia |]. split; [| done].
      do 3 f_equal. lia.
    + cbn [fst snd].
      replace (calls w + (maxRetries config - attempt))%nat with (calls w)
        by lia.
      split; [lia |]. split; [done |]. by rewrite forAwait_isStopped.
Qed.

Lemma streamWithRetry_resolved_isStopped fuel messages attempt w v :
  snd (streamWithRetry openai observer fuel messages attempt w)
  = Resolved v ->
  Subject.isStopped
    (stream (fst (streamWithRetry openai observer fuel messages attempt w)))
  = true.
Proof.
  revert attempt w. induction fuel as [| fuel IH]; intros attempt w;
    [rewrite streamWithRetry_O | rewrite streamWithRetry_S];
    destruct (failure (openai (calls w) messages)) as [e |] eqn:Hf.
  - by rewrite (executeStream_failure _ _ _ Hf).
  - rewrite (executeStream_success _ _ Hf). intros _.
    apply stream_complete_isStopped.
  - rewrite (executeStream_failure _ _ _ Hf).
    case_match; [apply IH | done].
  - rewrite (executeStream_success _ _ Hf). intros _.
    apply stream_complete_isStopped.
Qed.

(** [streamCompletion] when the breaker lets the request through. *)
Lemma streamCompletion_admitted cfg (history : list Message.t) cb w :
  CircuitBreakerService.state cb <> OPEN ->
  let w0 := {| clock := clock w; calls := calls w;
               stream := Subject.fresh; sink := sink w |} in
  let r := streamWithRetry openai observer (maxRetries config)
             (toOpenAI history) 1%nat w0 in
  streamCompletion openai observer cfg history cb w
  = match snd r with
    | Resolved _ => (CircuitBreakerService.onSuccess cfg cb, fst r)
    | Rejected error =>
        (CircuitBreakerService.onFailure cfg cb (clock (fst r)),
         stream_error observer error (fst r))
    end.
Proof.
  intros Hno w0 r. unfold streamCompletion, CircuitBreakerService.execute.
  fold w0. rewrite (gate_not_open cfg cb _ Hno). fold r.
  by destruct r as [w1 [v | e]].
Qed.

(** [streamCompletion] when the breaker rejects the request. *)
Lemma streamCompletion_rejected cfg (history : list Message.t) cb w last :
  CircuitBreakerService.state cb = OPEN ->
  CircuitBreakerService.lastFailureTime cb = Some last ->
  clock w < last + timeout cfg ->
  streamCompletion openai observer cfg history cb w
  = (cb,
     stream_error observer
       (CircuitBreakerOpenException None
          (Some (CircuitBreakerService.failureCount cb)))
       {| clock := clock w; calls := calls w;
          stream := Subject.fresh; sink := sink w |}).
Proof.
  intros Hopen Hlast Hlt. unfold streamCompletion.
  by rewrite (execute_rejects_when_open cfg _ _ cb _ last Hopen Hlast).
Qed.

(** The stream of a request always ends: it has stopped when
    [streamCompletion] is done. *)
Lemma streamCompletion_isStopped cfg (history : list Message.t) cb w :
  Subject.isStopped
    (stream (snd (streamCompletion openai observer cfg history cb w)))
  = true.
Proof.
  unfold streamCompletion, CircuitBreakerService.execute.
  destruct (CircuitBreakerService.gate cfg cb _) as [exn | cb'].
  { apply stream_error_isStopped. }
  pose proof (streamWithRetry_resolved_isStopped (maxRetries config)
                (toOpenAI history) 1%nat
                {| clock := clock w; calls := calls w;
                   stream := Subject.fresh; sink := sink w |}) as Hr.
  destruct (streamWithRetry _ _ _ _ _ _) as [w1 [v | e]]; simpl in *.
  - by apply (Hr v).
  - apply stream_error_isStopped.
Qed.

(** ** What the subscriber sees *)

Section Preserved.
Variable P : Subject.t -> S -> Prop.
Hypothesis HP : preserved observer P.

Abbreviation holds := (holds P).

Lemma stream_next_preserved content w :
  content <> EmptyString -> holds w ->
  holds (stream_next observer content w).
Proof.
  intros Hne Hw. unfold holds, stream_next.
  destruct (Subject.isStopped (stream w)) eqn:E; [done |].
  simpl. by apply (preserved_next _ _ HP).
Qed.

Lemma stream_error_preserved e w :
  holds w -> holds (stream_error observer e w).
Proof.
  intros Hw. unfold holds, stream_error.
  destruct (Subject.isStopped (stream w)) eqn:E; [done |].
  simpl. by apply (preserved_error _ _ HP).
Qed.

Lemma stream_complete_preserved w :
  holds w -> holds (stream_complete observer w).
Proof.
  intros Hw. unfold holds, stream_complete.
  destruct (Subject.isStopped (stream w)) eqn:E; [done |].
  simpl. by apply (preserved_complete _ _ HP).
Qed.

Lemma forAwait_preserved completion w :
  holds w -> holds (fst (forAwait observer completion w)).
Proof.
  revert w. induction completion as [| chunk rest IH]; intros w Hw;
    simpl; [done |].
  set (w1 := match choices0 chunk ≫= delta_content with
             | Some text =>
                 if JS.truthy (choices0 chunk ≫= delta_content)
                 then stream_next observer text w else w
             | None => w
             end).
  assert (holds w1) as Hw1.
  { subst w1. destruct (choices0 chunk ≫= delta_content) as [text |];
      [| done].
    simpl. destruct text; simpl; [done |].
    by apply stream_next_preserved. }
  destruct (JS.truthy (choices0 chunk ≫= finish_reason)); simpl; [done |].
  by apply IH.
Qed.

Lemma executeStream_preserved messages w :
  holds w -> holds (fst (executeStream openai observer messages w)).
Proof.
  intros Hw.
  assert (holds (entered openai messages w)) as He by done.
  pose proof (forAwait_preserved (chunks (openai (calls w) messages))
                _ He) as Hf.
  destruct (failure (openai (calls w) messages)) as [e |] eqn:E.
  - by rewrite (executeStream_failure _ _ _ E).
  - rewrite (executeStream_success _ _ E). simpl.
    by apply stream_complete_preserved.
Qed.

Lemma streamWithRetry_preserved fuel messages attempt w :
  holds w ->
  holds (fst (streamWithRetry openai observer fuel messages attempt w)).
Proof.
  revert attempt w. induction fuel as [| fuel IH]; intros attempt w Hw;
    simpl;
    pose proof (executeStream_preserved messages w Hw) as He;
    destruct (executeStream openai observer messages w) as [w1 [v | e]];
    simpl in *; try done.
  - by case_match.
  - case_match; [| done]. by apply IH.
Qed.

Lemma streamCompletion_preserved cfg (history : list Message.t) cb w :
  P Subject.fresh (sink w) ->
  holds (snd (streamCompletion openai observer cfg history cb w)).
Proof.
  intros Hw. unfold streamCompletion, CircuitBreakerService.execute.
  set (w0 := {| clock := clock w; calls := calls w;
                stream := Subject.fresh; sink := sink w |}).
  assert (holds w0) as Hw0 by done.
  destruct (CircuitBreakerService.gate cfg cb (clock w0)) as [exn | cb'].
  { simpl. by apply stream_error_preserved. }
  pose proof (streamWithRetry_preserved (maxRetries config)
                (toOpenAI history) 1%nat w0 Hw0) as Hr.
  destruct (streamWithRetry openai observer (maxRetries config)
              (toOpenAI history) 1%nat w0) as [w1 [v | e]]; simpl in *.
  - done.
  - by apply stream_error_preserved.
Qed.
End Preserved.

End PipelineFacts.

(** ** Fragments on the stream *)

Lemma well_formed_fresh : well_formed Subject.fresh.
Proof. exists []. by split. Qed.

Lemma well_formed_preserved {S : Type} (observer : Observer S) :
  preserved observer (fun sub _ => well_formed sub).
Proof.
  split.
  - intros chunk _ sub _ Hne Hrun (fragments & Hall & Hlog).
    rewrite Hrun in Hlog. exists (fragments ++ [chunk]).
    split; [apply Forall_app; split; [done | by constructor] |].
    unfold Subject.next. rewrite Hrun. simpl.
    by rewrite Hlog, map_app.
  - intros e _ sub _ Hrun (fragments & Hall & Hlog).
    rewrite Hrun in Hlog. exists fragments. split; [done |].
    unfold Subject.error. rewrite Hrun. simpl.
    exists (Error e). by rewrite Hlog.
  - intros _ sub _ Hrun (fragments & Hall & Hlog).
    rewrite Hrun in Hlog. exists fragments. split; [done |].
    unfold Subject.complete. rewrite Hrun. simpl.
    exists Complete. by rewrite Hlog.
Qed.

Lemma streamCompletion_well_formed {S : Type} (openai : OpenAI)
    (observer : Observer S) cfg (history : list Message.t) cb w :
  well_formed
    (AIService.stream
       (snd (AIService.streamCompletion openai observer cfg history cb w))).
Proof.
  apply (streamCompletion_preserved openai observer
           (fun sub _ => well_formed sub) (well_formed_preserved observer)).
  apply well_formed_fresh.
Qed.

(** The notifications of a finished request: fragments, then one
    terminal notification. *)
Lemma streamCompletion_shape {S : Type} (openai : OpenAI)
    (observer : Observer S) cfg (history : list Message.t) cb w :
  exists fragments t,
    Forall (fun chunk => chunk <> EmptyString) fragments /\
    terminal t = true /\
    Subject.emitted
      (AIService.stream
         (snd (AIService.streamCompletion openai observer cfg history cb w)))
    = map Next fragments ++ [t].
Proof.
  destruct (streamCompletion_well_formed openai observer cfg history cb w)
    as (fragments & Hall & Hlog).
  rewrite streamCompletion_isStopped in Hlog.
  destruct Hlog as (t & Ht & Hlog). by exists fragments, t.
Qed.

(** C10.  Every fragment emitted on the observable that [streamCompletion]
    returns is a non-empty string: chunks whose text is empty or missing
    are not forwarded.  The notifications are these fragments followed by
    exactly one terminal notification, [Complete] or [Error]; the end of
    the stream is never an empty fragment. *)
Theorem streamCompletion_fragments_nonempty {S : Type} (openai : OpenAI)
    (observer : Observer S) (cfg : CircuitBreakerConfig)
    (history : list Message.t) (cb : CircuitBreakerService.t)
    (w : AIService.World S) :
  let log :=
    Subject.emitted
      (AIService.stream
         (snd (AIService.streamCompletion openai observer cfg history cb w)))
  in
  (forall chunk, Next chunk ∈ log -> chunk <> EmptyString) /\
  exists fragments t,
    log = map Next fragments ++ [t] /\
    (t = Complete \/ exists e, t = Error e).
Proof.
  intros log.
  destruct (streamCompletion_shape openai observer cfg history cb w)
    as (fragments & t & Hall & Ht & Hlog).
  fold log in Hlog. split.
  - intros chunk Hin. rewrite Hlog in Hin.
    apply elem_of_app in Hin as [Hin | Hin].
    + apply list_elem_of_fmap in Hin as (c & [= ->] & Hc).
      by apply (proj1 (Forall_forall _ _) Hall).
    + apply list_elem_of_singleton in Hin. subst t. discriminate.
  - exists fragments, t. split; [done |].
    destruct t; [discriminate | right; eauto | by left].
Qed.

(** A chunk with empty text between two fragments is dropped, and the
    fragment after the finish marker is never read. *)
Example streamCompletion_drops_empty_chunks :
  Subject.emitted
    (AIService.stream
       (snd (AIService.streamCompletion
               (always {| latency := 0;
                          chunks := [text_chunk "Hi"; text_chunk EmptyString;
                                     {| choices0 := None |};
                                     text_chunk "!"; stop_chunk;
                                     text_chunk "late"];
                          ending := Exhausted |})
               silent CircuitBreakerService.defaultConfig [hello]
               CircuitBreakerService.initial (snd (boot 0)))))
  = [Next "Hi"; Next "!"; Complete].
Proof. reflexivity. Qed.

(* ===================================================================== *)
(** * Requests through the breaker                                        *)
(* ===================================================================== *)

(** A request that the breaker lets through and whose every attempt fails:
    three calls of the stub, one failure recorded by the breaker, at the
    time the last attempt failed, and the error of that last attempt
    delivered on the stream. *)
Lemma streamCompletion_fails {S : Type} (openai : OpenAI)
    (observer : Observer S) cfg (history : list Message.t)
    (err : nat -> ApiError) cb w :
  (forall n, failure (openai n (AIService.toOpenAI history)) = Some (err n)) ->
  CircuitBreakerService.state cb <> OPEN ->
  let res := AIService.streamCompletion openai observer cfg history cb w in
  AIService.calls (snd res) = (AIService.calls w + 3)%nat /\
  fst res = CircuitBreakerService.onFailure cfg cb (AIService.clock (snd res)) /\
  last (Subject.emitted (AIService.stream (snd res)))
  = Some (Error (AIService.handleOpenAIError
                   (err (AIService.calls w + 2)%nat))).
Proof.
  intros Hall Hno res. subst res.
  rewrite (streamCompletion_admitted openai observer cfg history _ _ Hno).
  set (w0 := {| AIService.clock := _ |}).
  destruct (streamWithRetry_all_fail openai observer _ err Hall
              (AIService.maxRetries AIService.config) 1%nat w0)
    as (Hcalls & Hrej & Hstop); [simpl; lia | simpl; lia |].
  rewrite Hrej. cbn [fst snd].
  destruct (stream_error_frame observer
              (AIService.handleOpenAIError
                 (err (AIService.calls w0
                       + (AIService.maxRetries AIService.config - 1))%nat))
              (fst (AIService.streamWithRetry openai observer
                      (AIService.maxRetries AIService.config)
                      (AIService.toOpenAI history) 1%nat w0)))
    as [Hclock Hcalls'].
  rewrite Hclock, Hcalls', Hcalls.
  split; [done |]. split; [done |].
  rewrite stream_error_last; [done |]. by rewrite Hstop.
Qed.

(** A first attempt that fails is followed by a second call of the stub,
    whatever the error. *)
Lemma streamCompletion_retries {S : Type} (openai : OpenAI)
    (observer : Observer S) cfg (history : list Message.t) cb w e :
  CircuitBreakerService.state cb <> OPEN ->
  failure (openai (AIService.calls w) (AIService.toOpenAI history)) = Some e ->
  (AIService.calls w + 2
   <= AIService.calls
        (snd (AIService.streamCompletion openai observer cfg history cb w)))%nat.
Proof.
  intros Hno Hf.
  rewrite (streamCompletion_admitted openai observer cfg history _ _ Hno).
  set (w0 := {| AIService.clock := _ |}).
  pose proof (streamWithRetry_retries openai observer 2
                (AIService.toOpenAI history) 1%nat w0 e Hf) as Hge.
  change (AIService.calls w0) with (AIService.calls w) in Hge.
  change (AIService.maxRetries AIService.config) with 3%nat in *.
  specialize (Hge ltac:(lia)).
  destruct (AIService.streamWithRetry _ _ _ _ _ _) as [w1 [v | e1]];
    cbn [fst snd] in *; [done |].
  by destruct (stream_error_frame observer e1 w1) as [_ ->].
Qed.

Section RequestFacts.
Variable cfg : CircuitBreakerConfig.
Variable openai : OpenAI.
Variable history : list Message.t.

Lemma request_fails (err : nat -> ApiError) gap st :
  (forall n, failure (openai n (AIService.toOpenAI history)) = Some (err n)) ->
  CircuitBreakerService.state (fst st) <> OPEN ->
  let st' := request cfg openai history gap st in
  AIService.calls (snd st') = (AIService.calls (snd st) + 3)%nat /\
  fst st' = CircuitBreakerService.onFailure cfg (fst st)
              (AIService.clock (snd st')) /\
  last (Subject.emitted (AIService.stream (snd st')))
  = Some (Error (AIService.handleOpenAIError
                   (err (AIService.calls (snd st) + 2)%nat))).
Proof.
  intros Hall Hno.
  exact (streamCompletion_fails openai silent cfg history err (fst st)
           (AIService.sleep gap (snd st)) Hall Hno).
Qed.

(** A request made while the breaker is open and the timeout has not
    passed: the stub is not called, the breaker is left as it is, and
    the only notification is the breaker's rejection. *)
Lemma request_fast_fails gap st last :
  CircuitBreakerService.state (fst st) = OPEN ->
  CircuitBreakerService.lastFailureTime (fst st) = Some last ->
  AIService.clock (snd st) + gap < last + timeout cfg ->
  let st' := request cfg openai history gap st in
  AIService.calls (snd st') = AIService.calls (snd st) /\
  fst st' = fst st /\
  Subject.emitted (AIService.stream (snd st'))
  = [Error (CircuitBreakerOpenException None
              (Some (CircuitBreakerService.failureCount (fst st))))].
Proof.
  intros Hopen Hlast Hlt st'. subst st'. unfold request.
  by rewrite (streamCompletion_rejected openai silent cfg history (fst st)
                (AIService.sleep gap (snd st)) last Hopen Hlast Hlt).
Qed.

End RequestFacts.

Section DefaultBreaker.
Variable openai : OpenAI.
Variable history : list Message.t.
Variable err : nat -> ApiError.
Hypothesis every_attempt_fails :
  forall n, failure (openai n (AIService.toOpenAI history)) = Some (err n).

Abbreviation cfg := CircuitBreakerService.defaultConfig.

(** One failed request against a closed default breaker. *)
Lemma request_fails_closed gap st k :
  CircuitBreakerService.state (fst st) = CLOSED ->
  CircuitBreakerService.failureCount (fst st) = k ->
  let st' := request cfg openai history gap st in
  AIService.calls (snd st') = (AIService.calls (snd st) + 3)%nat /\
  CircuitBreakerService.state (fst st')
  = (if 5 <=? k + 1 then OPEN else CLOSED) /\
  CircuitBreakerService.failureCount (fst st') = k + 1 /\
  CircuitBreakerService.lastFailureTime (fst st')
  = Some (AIService.clock (snd st')).
Proof.
  intros Hclosed Hk st'.
  destruct (request_fails cfg openai history err gap st every_attempt_fails)
    as (Hcalls & Hcb & _); [congruence |].
  fold st' in Hcalls, Hcb. rewrite Hcb.
  rewrite onFailure_state, onFailure_failureCount,
    onFailure_lastFailureTime, Hclosed, Hk.
  done.
Qed.

(** C1 (as the code has it).  The whole retry sequence of a stream
    request runs inside one [CircuitBreaker.execute]: a request whose
    every attempt fails calls the stub three times and counts as one
    failure.  If the stub fails every attempt, then after five failed
    requests (whenever they are made) the breaker is OPEN with a failure
    count of 5, the stub has been called exactly 15 times, and a further
    request made before the timeout has passed is rejected by the
    breaker without another call of the stub. *)
Theorem breaker_counts_requests_not_attempts (t0 : Z) (gaps : list Z) :
  length gaps = 5%nat ->
  let st := requests cfg openai history gaps (boot t0) in
  CircuitBreakerService.state (fst st) = OPEN /\
  CircuitBreakerService.failureCount (fst st) = 5 /\
  AIService.calls (snd st) = 15%nat /\
  forall gap, gap < 60000 ->
    let st' := request cfg openai history gap st in
    AIService.calls (snd st') = 15%nat /\
    fst st' = fst st /\
    Subject.emitted (AIService.stream (snd st'))
    = [Error (CircuitBreakerOpenException None (Some 5))].
Proof.
  intros Hlen.
  destruct gaps as [| g1 [| g2 [| g3 [| g4 [| g5 [| g6 rest]]]]]];
    try discriminate.
  unfold requests. cbn [fold_left].
  set (s0 := boot t0).
  destruct (request_fails_closed g1 s0 0 eq_refl eq_refl)
    as (C1 & S1 & F1 & _).
  set (s1 := request cfg openai history g1 s0) in *.
  destruct (request_fails_closed g2 s1 1 S1 F1) as (C2 & S2 & F2 & _).
  set (s2 := request cfg openai history g2 s1) in *.
  destruct (request_fails_closed g3 s2 2 S2 F2) as (C3 & S3 & F3 & _).
  set (s3 := request cfg openai history g3 s2) in *.
  destruct (request_fails_closed g4 s3 3 S3 F3) as (C4 & S4 & F4 & _).
  set (s4 := request cfg openai history g4 s3) in *.
  destruct (request_fails_closed g5 s4 4 S4 F4) as (C5 & S5 & F5 & L5).
  set (s5 := request cfg openai history g5 s4) in *.
  simpl in S5, F5.
  assert (AIService.calls (snd s5) = 15%nat) as Hcalls.
  { rewrite C5, C4, C3, C2, C1. reflexivity. }
  split; [done |]. split; [exact F5 |]. split; [done |].
  intros gap Hgap.
  destruct (request_fast_fails cfg openai history gap s5
              (AIService.clock (snd s5)) S5 L5) as (Hc & Hb & He).
  { change (timeout cfg) with 60000. lia. }
  by rewrite Hc, Hb, He, F5, Hcalls.
Qed.

End DefaultBreaker.

Lemma breaker_counts_requests_not_attempts_witness :
  (forall n,
     failure (always (rejects 500) n (AIService.toOpenAI [hello]))
     = Some (http_error 500)) /\
  length [0; 0; 0; 0; 0] = 5%nat /\
  let st :=
    requests CircuitBreakerService.defaultConfig (always (rejects 500))
      [hello] [0; 0; 0; 0; 0] (boot 0) in
  CircuitBreakerService.state (fst st) = OPEN /\
  CircuitBreakerService.failureCount (fst st) = 5 /\
  AIService.calls (snd st) = 15%nat /\
  forall gap, gap < 60000 ->
    let st' :=
      request CircuitBreakerService.defaultConfig (always (rejects 500))
        [hello] gap st in
    AIService.calls (snd st') = 15%nat /\
    fst st' = fst st /\
    Subject.emitted (AIService.stream (snd st'))
    = [Error (CircuitBreakerOpenException None (Some 5))].
Proof.
  split; [intros n; reflexivity |]. split; [reflexivity |].
  apply (breaker_counts_requests_not_attempts (always (rejects 500)) [hello]
           (fun _ => http_error 500)).
  - intros n. reflexivity.
  - reflexivity.
Defined.

(** C1 as stated fails: with a stub that always fails, the first request
    already makes three attempts and the breaker counts one failure; after
    two requests the stub has been called six times, the breaker is still
    CLOSED with two failures counted, and the next request calls the stub
    again. *)
Lemma breaker_does_not_count_each_attempt :
  let run := requests CircuitBreakerService.defaultConfig
               (always (rejects 500)) [hello] in
  let one := run [0] (boot 0) in
  let two := run [0; 0] (boot 0) in
  let three := run [0; 0; 0] (boot 0) in
  AIService.calls (snd one) = 3%nat /\
  CircuitBreakerService.failureCount (fst one) = 1 /\
  AIService.calls (snd two) = 6%nat /\
  CircuitBreakerService.state (fst two) = CLOSED /\
  CircuitBreakerService.failureCount (fst two) = 2 /\
  AIService.calls (snd three) = 9%nat.
Proof. repeat split; reflexivity. Qed.


(* ===================================================================== *)
(** * Properties of the context window                                    *)
(* ===================================================================== *)

Lemma estimateTokens_nonneg text : 0 <= AIService.estimateTokens text.
Proof. unfold AIService.estimateTokens. apply Z.div_pos; lia. Qed.

Lemma totalTokens_app l1 l2 :
  totalTokens (l1 ++ l2) = totalTokens l1 + totalTokens l2.
Proof.
  induction l1 as [| m l1 IH]; simpl; [lia |].
  unfold totalTokens in *. simpl. rewrite IH. lia.
Qed.

Lemma totalTokens_nonneg l : 0 <= totalTokens l.
Proof.
  induction l as [| m l IH]; unfold totalTokens in *; simpl; [lia |].
  pose proof (estimateTokens_nonneg (Message.content m)). lia.
Qed.

Lemma elem_of_rev_list {A : Type} (x : A) (l : list A) :
  x ∈ rev l -> x ∈ l.
Proof. rewrite !list_elem_of_In. apply in_rev. Qed.

Section ContextWindowFacts.
Variable maxContextTokens : Z.

(** The loop puts in front of [fittedMessages] a list [kept] of messages
    of [pending], none of them a System message; it adds their cost to
    [totalTokens]; and if it kept any, the total is within the budget. *)
Lemma backwards_spec pending total fitted :
  exists kept,
    AIService.backwards maxContextTokens pending total fitted
    = (total + totalTokens kept, kept ++ fitted) /\
    Forall (fun m => Message.isSystem m = false /\ m ∈ pending) kept /\
    (kept = [] \/ total + totalTokens kept <= maxContextTokens).
Proof.
  revert total fitted.
  induction pending as [| message older IH]; intros total fitted; simpl.
  - exists []. simpl. split; [f_equal; unfold totalTokens; simpl; lia |].
    split; [constructor | by left].
  - destruct (Message.isSystem message) eqn:Hsys.
    + destruct (IH total fitted) as (kept & Heq & Hall & Hfit).
      exists kept. split; [done |]. split; [| done].
      eapply Forall_impl; [exact Hall |].
      intros m [? ?]. split; [done | by right].
    + destruct (Z.ltb_spec maxContextTokens
                  (total + AIService.estimateTokens
                             (Message.content message))) as [Hover | Hok].
      * exists []. simpl.
        split; [f_equal; unfold totalTokens; simpl; lia |].
        split; [constructor | by left].
      * destruct (IH (total + AIService.estimateTokens
                                (Message.content message))
                    (message :: fitted)) as (kept & Heq & Hall & Hfit).
        exists (kept ++ [message]).
        assert (totalTokens (kept ++ [message])
                = totalTokens kept
                  + AIService.estimateTokens (Message.content message))
          as Htot.
        { rewrite totalTokens_app. unfold totalTokens. simpl. lia. }
        rewrite Heq, Htot, <- app_assoc. simpl.
        split; [f_equal; lia |]. split.
        -- apply Forall_app. split.
           ++ eapply Forall_impl; [exact Hall |].
              intros m [? ?]. split; [done | by right].
           ++ constructor; [| constructor]. split; [done | by left].
        -- right. destruct Hfit as [-> | Hle].
           ++ unfold totalTokens. simpl. lia.
           ++ lia.
Qed.

(** The result of [fitToContextWindow]: the kept messages, then the
    first System message of the input if there is one. *)
Lemma fitToContextWindow_spec messages :
  exists kept,
    AIService.fitToContextWindow maxContextTokens messages
    = kept ++ option_list (List.find Message.isSystem messages) /\
    Forall (fun m => Message.isSystem m = false /\ m ∈ messages) kept /\
    (kept = [] \/
     systemCost messages + totalTokens kept <= maxContextTokens).
Proof.
  unfold AIService.fitToContextWindow, systemCost.
  destruct (List.find Message.isSystem messages) as [sys |]; simpl.
  - destruct (backwards_spec (rev messages)
                (AIService.estimateTokens (Message.content sys)) [sys])
      as (kept & Heq & Hall & Hfit).
    exists kept. rewrite Heq. simpl. split; [done |]. split; [| done].
    eapply Forall_impl; [exact Hall |].
    intros m [? Hin]. split; [done |]. by apply elem_of_rev_list in Hin.
  - destruct (backwards_spec (rev messages) 0 [])
      as (kept & Heq & Hall & Hfit).
    exists kept. rewrite Heq. simpl. split; [done |]. split; [| done].
    eapply Forall_impl; [exact Hall |].
    intros m [? Hin]. split; [done |]. by apply elem_of_rev_list in Hin.
Qed.

Lemma totalTokens_fitToContextWindow messages kept :
  AIService.fitToContextWindow maxContextTokens messages
  = kept ++ option_list (List.find Message.isSystem messages) ->
  totalTokens (AIService.fitToContextWindow maxContextTokens messages)
  = systemCost messages + totalTokens kept.
Proof.
  intros ->. rewrite totalTokens_app. unfold systemCost.
  destruct (List.find Message.isSystem messages); unfold totalTokens;
    simpl; lia.
Qed.

(** C7 (as the code has it).  The System message is included whatever
    the budget; the total estimated cost of the result is within the
    budget whenever that message alone is (whenever the budget is not
    negative, if the input has no System message). *)
Theorem fitToContextWindow_within_budget (messages : list Message.t) :
  systemCost messages <= maxContextTokens ->
  totalTokens (AIService.fitToContextWindow maxContextTokens messages)
  <= maxContextTokens.
Proof.
  intros Hsys.
  destruct (fitToContextWindow_spec messages) as (kept & Heq & _ & Hfit).
  rewrite (totalTokens_fitToContextWindow _ _ Heq).
  destruct Hfit as [-> | Hle]; [| done].
  unfold totalTokens. simpl. lia.
Qed.

(** In any case the total is at most the larger of the budget and the
    cost of the System message. *)
Lemma fitToContextWindow_bound messages :
  totalTokens (AIService.fitToContextWindow maxContextTokens messages)
  <= Z.max maxContextTokens (systemCost messages).
Proof.
  destruct (fitToContextWindow_spec messages) as (kept & Heq & _ & Hfit).
  rewrite (totalTokens_fitToContextWindow _ _ Heq).
  destruct Hfit as [-> | Hle]; [| lia].
  unfold totalTokens. simpl. lia.
Qed.

Lemma find_isSystem messages sys :
  List.find Message.isSystem messages = Some sys ->
  Message.isSystem sys = true /\ sys ∈ messages.
Proof.
  intros H. apply find_some in H as [Hin Hsys].
  split; [done | by apply list_elem_of_In].
Qed.

End ContextWindowFacts.

Lemma fitToContextWindow_within_budget_witness :
  systemCost [persona "12345678"; hello] <= 4 /\
  totalTokens (AIService.fitToContextWindow 4 [persona "12345678"; hello])
  <= 4.
Proof.
  split; [vm_compute; discriminate |].
  apply (fitToContextWindow_within_budget 4 [persona "12345678"; hello]).
  vm_compute. discriminate.
Defined.

(** C7 as stated fails: a System message of 8 characters costs 2 tokens
    and is returned under a budget of 1. *)
Lemma fitToContextWindow_exceeds_budget :
  AIService.fitToContextWindow 1 [persona "12345678"; hello]
  = [persona "12345678"] /\
  ~ totalTokens (AIService.fitToContextWindow 1 [persona "12345678"; hello])
    <= 1.
Proof. split; [reflexivity | vm_compute; congruence]. Qed.

Lemma filter_isSystem_kept (kept all : list Message.t) :
  Forall (fun m => Message.isSystem m = false /\ m ∈ all) kept ->
  List.filter Message.isSystem kept = [].
Proof.
  induction 1 as [| m kept [Hm _] _ IH]; simpl; [done |].
  by rewrite Hm.
Qed.

Lemma buildConversationContext_system_first (randomUUID : nat -> string)
    (session : ChatSession.t) (now : Z) (st : ChatService.State) :
  exists first rest,
    fst (ChatService.buildConversationContext randomUUID session now st)
    = first :: rest /\
    Message.role first = SYSTEM /\
    (ChatSession.messages session = [] ->
     rest = [] /\ Message.content first = ChatService.getSystemPrompt).
Proof.
  unfold ChatService.buildConversationContext.
  destruct (ChatService.slice_last _ (ChatSession.messages session))
    as [| m recent] eqn:Hrecent.
  - simpl. eexists _, []. repeat split; reflexivity.
  - destruct (Message.isSystem m) eqn:Hsys.
    + simpl. exists m, recent. split; [done |]. split.
      * unfold Message.isSystem in Hsys. by destruct (Message.role m).
      * intros Hnil. rewrite Hnil in Hrecent. discriminate.
    + simpl. eexists _, (m :: recent). split; [reflexivity |].
      split; [reflexivity |].
      intros Hnil. rewrite Hnil in Hrecent. discriminate.
Qed.

(** C3 (as the code has it).  [fitToContextWindow] synthesizes nothing:
    every message of its result is a message of its input, and fitting an
    empty list yields the empty list.  The result holds exactly one System
    message when the input holds any, namely the first one of the input,
    and none otherwise; its cost is counted against the budget, so that
    whenever any other message is kept the total, System message
    included, is within the budget.  The synthesized System message is
    the work of [ChatService.buildConversationContext], which applies no
    token budget: its result always begins with a System message, and for
    a session without messages it is that message alone, carrying the
    persona prompt. *)
Theorem fitToContextWindow_system_message (maxContextTokens : Z)
    (messages : list Message.t) :
  AIService.fitToContextWindow maxContextTokens [] = [] /\
  List.filter Message.isSystem
    (AIService.fitToContextWindow maxContextTokens messages)
  = option_list (List.find Message.isSystem messages) /\
  (forall m, m ∈ AIService.fitToContextWindow maxContextTokens messages ->
             m ∈ messages) /\
  (forall m, m ∈ AIService.fitToContextWindow maxContextTokens messages ->
             Message.isSystem m = false ->
             totalTokens
               (AIService.fitToContextWindow maxContextTokens messages)
             <= maxContextTokens) /\
  (forall randomUUID session now st,
     exists first rest,
       fst (ChatService.buildConversationContext randomUUID session now st)
       = first :: rest /\
       Message.role first = SYSTEM /\
       (ChatSession.messages session = [] ->
        rest = [] /\ Message.content first = ChatService.getSystemPrompt)).
Proof.
  split; [reflexivity |].
  destruct (fitToContextWindow_spec maxContextTokens messages)
    as (kept & Heq & Hall & Hfit).
  split; [| split; [| split]].
  - rewrite Heq, List.filter_app, (filter_isSystem_kept _ _ Hall). simpl.
    destruct (List.find Message.isSystem messages) as [sys |] eqn:Hfind;
      simpl; [| done].
    by destruct (find_isSystem _ _ Hfind) as [-> _].
  - intros m. rewrite Heq. intros Hin.
    apply elem_of_app in Hin as [Hin | Hin].
    + by destruct (proj1 (Forall_forall _ _) Hall m Hin).
    + destruct (List.find Message.isSystem messages) as [sys |] eqn:Hfind;
        simpl in Hin.
      * apply list_elem_of_singleton in Hin. subst m.
        by destruct (find_isSystem _ _ Hfind).
      * by apply elem_of_nil in Hin.
  - intros m Hin Hsys.
    rewrite (totalTokens_fitToContextWindow _ _ _ Heq).
    destruct Hfit as [-> | Hle]; [| done].
    rewrite Heq in Hin. simpl in Hin.
    destruct (List.find Message.isSystem messages) as [sys |] eqn:Hfind;
      simpl in Hin.
    + apply list_elem_of_singleton in Hin. subst m.
      destruct (find_isSystem _ _ Hfind). congruence.
    + by apply elem_of_nil in Hin.
  - apply buildConversationContext_system_first.
Qed.

(** C3 as stated fails: nothing is returned for the empty list, and a
    System message of the input ends up after the messages kept. *)
Lemma fitToContextWindow_no_synthesized_system :
  AIService.fitToContextWindow 4000 [] = [] /\
  AIService.fitToContextWindow 4000 [persona "Be brief"; hello]
  = [hello; persona "Be brief"] /\
  AIService.fitToContextWindow 4000 [hello] = [hello].
Proof. repeat split; reflexivity. Qed.

(* ===================================================================== *)
(** * Properties of the chat service                                      *)
(* ===================================================================== *)

Section ChatFacts.
Variable breakerConfig : CircuitBreakerConfig.
Variable openai : OpenAI.
Variable randomUUID : nat -> string.

Lemma createMessage_spec role content sid id now st :
  let r := ChatService.createMessage randomUUID role content sid id now st in
  Message.role (fst r) = role /\
  Message.content (fst r) = content /\
  Message.timestamp (fst r) = now /\
  Message.sessionId (fst r) = Some sid /\
  ChatService.sessions (snd r) = ChatService.sessions st.
Proof.
  unfold ChatService.createMessage, ChatService.draw.
  destruct id as [i |]; [destruct (JS.truthy_string i) |]; done.
Qed.

Lemma buildConversationContext_sessions session now st :
  ChatService.sessions
    (snd (ChatService.buildConversationContext randomUUID session now st))
  = ChatService.sessions st.
Proof.
  unfold ChatService.buildConversationContext.
  case_match; [done |].
  pose proof (createMessage_spec SYSTEM ChatService.getSystemPrompt
                (ChatSession.id session) None now st)
    as (_ & _ & _ & _ & Hsess).
  by destruct (ChatService.createMessage _ _ _ _ _ _ _).
Qed.

Lemma getOrCreateSession_sessions sid now st :
  ChatService.sessions (ChatService.getOrCreateSession sid now st)
  = <[sid := default (ChatService.newSession sid now)
               (ChatService.sessions st !! sid)]> (ChatService.sessions st).
Proof.
  unfold ChatService.getOrCreateSession.
  destruct (ChatService.sessions st !! sid) as [s |] eqn:E; simpl.
  - by rewrite insert_id.
  - done.
Qed.

(** The caller's identifier is used as it is unless it is missing or
    empty. *)
Lemma resolveSession_supplied sid now st :
  sid <> EmptyString ->
  resolveSession randomUUID (Some sid) now st = (sid, st).
Proof. intros Hne. unfold resolveSession. by destruct sid. Qed.

Lemma resolveSession_sessions sessionId now st :
  let r := resolveSession randomUUID sessionId now st in
  ChatService.sessions (snd r) = ChatService.sessions st \/
  ChatService.sessions (snd r)
  = <[fst r := ChatService.newSession (fst r) now]> (ChatService.sessions st).
Proof.
  unfold resolveSession, ChatService.createSession, ChatService.draw.
  destruct sessionId as [sid |]; [destruct (JS.truthy_string sid) |];
    simpl; auto.
Qed.

(** The synchronous part of [processMessage]: the session map afterwards
    is the one before with the user message appended to the session of
    the request, and the user message carries the caller's text as it
    was given. *)
Lemma submit_spec messageContent sessionId srv :
  let sub := submit randomUUID messageContent sessionId (now srv) (chat srv) in
  actualSessionId sub
  = fst (resolveSession randomUUID sessionId (now srv) (chat srv)) /\
  Message.role (userMessage sub) = USER /\
  Message.content (userMessage sub) = messageContent /\
  ChatService.sessions (submitted sub)
  = <[actualSessionId sub :=
        ChatService.push (userMessage sub)
          (sessionBefore randomUUID sessionId srv)]>
      (ChatService.sessions (chat srv)).
Proof.
  unfold submit, sessionBefore.
  pose proof (resolveSession_sessions sessionId (now srv) (chat srv)) as Hres.
  destruct (resolveSession randomUUID sessionId (now srv) (chat srv))
    as [sid st1]. cbn [fst snd] in Hres.
  set (st2 := ChatService.getOrCreateSession sid (now srv) st1).
  pose proof (createMessage_spec USER messageContent sid None (now srv) st2)
    as (Hrole & Hcontent & _ & _ & Hsess).
  destruct (ChatService.createMessage randomUUID USER messageContent sid
              None (now srv) st2) as [u st3]. cbn [fst snd] in *.
  set (st4 := ChatService.modify sid (ChatService.push u) st3).
  pose proof (buildConversationContext_sessions
                (default (ChatService.newSession sid (now srv))
                   (ChatService.sessions st4 !! sid)) (now srv) st4) as Hctx.
  destruct (ChatService.buildConversationContext _ _ _ _) as [ctx st5].
  cbn [fst snd] in *. simpl.
  split; [done |]. split; [done |]. split; [done |].
  rewrite Hctx. subst st4. simpl. rewrite Hsess. subst st2.
  rewrite getOrCreateSession_sessions, alter_insert_eq.
  destruct Hres as [-> | ->].
  - done.
  - by rewrite lookup_insert_eq, insert_insert_eq.
Qed.

(** ** The subscriber of the AI stream *)

Lemma subscriber_settles sid aid st0 :
  preserved (ChatService.subscriber randomUUID sid aid) (settles sid st0).
Proof.
  split.
  - intros chunk t sub s _ Hrun. unfold settles, Subject.next.
    by rewrite !Hrun.
  - intros e t sub s Hrun. unfold settles, Subject.error.
    rewrite !Hrun. simpl. intros Hs. left. exists e.
    by rewrite last_snoc.
  - intros t sub s Hrun. unfold settles, Subject.complete.
    rewrite !Hrun. simpl. intros Hs. right.
    rewrite last_snoc. split; [done |].
    pose proof (createMessage_spec ASSISTANT
                  (ChatService.assistantContent s) sid (Some aid) t
                  (ChatService.service s)) as (Hrole & _ & _ & _ & Hsess).
    destruct (ChatService.createMessage _ _ _ _ _ _ _) as [answer st].
    cbn [fst snd] in *. simpl.
    exists answer, t. split; [done |].
    unfold ChatService.modify. simpl. by rewrite Hsess, Hs.
Qed.

(** Where a call of [processMessage] leaves the service, by the way its
    AI stream ended. *)
Lemma processMessage_settles messageContent sessionId srv pm out ai srv' :
  processMessage breakerConfig openai randomUUID messageContent sessionId srv
  = (pm, out, ai, srv') ->
  let sub := submit randomUUID messageContent sessionId (now srv) (chat srv) in
  ChatService.sessionId pm = actualSessionId sub /\
  ((exists e, last (Subject.emitted ai) = Some (Error e) /\
              chat srv' = submitted sub) \/
   (last (Subject.emitted ai) = Some Complete /\
    committed (actualSessionId sub) (submitted sub) (chat srv'))).
Proof.
  intros Hrun sub. unfold processMessage in Hrun. fold sub in Hrun.
  set (w := {| AIService.clock := now srv |}) in Hrun.
  pose proof (streamCompletion_preserved openai
                (ChatService.subscriber randomUUID (actualSessionId sub)
                   (assistantMessageId sub))
                (settles (actualSessionId sub) (submitted sub))
                (subscriber_settles _ _ _)
                breakerConfig (context sub) (breaker srv) w eq_refl) as Hs.
  pose proof (streamCompletion_isStopped openai
                (ChatService.subscriber randomUUID (actualSessionId sub)
                   (assistantMessageId sub))
                breakerConfig (context sub) (breaker srv) w) as Hstop.
  destruct (AIService.streamCompletion _ _ _ _ _ _) as [cb w'].
  cbn [fst snd] in *. injection Hrun as <- <- <- <-. simpl.
  split; [done |]. unfold holds, settles in Hs. cbn [AIService.stream AIService.sink] in Hs.
  by rewrite Hstop in Hs.
Qed.

End ChatFacts.

Section SessionFacts.
Variable breakerConfig : CircuitBreakerConfig.
Variable openai : OpenAI.
Variable randomUUID : nat -> string.

(** The session of a request after [processMessage]: the session as it
    was, with the user message appended, followed by the assistant's
    answer exactly when the AI stream completed; [updatedAt] is the old
    one when the stream ended in an error.  No other session changes. *)
Lemma processMessage_session messageContent sessionId srv pm out ai srv' :
  processMessage breakerConfig openai randomUUID messageContent sessionId srv
  = (pm, out, ai, srv') ->
  let before := sessionBefore randomUUID sessionId srv in
  exists user rest t,
    Message.role user = USER /\
    Message.content user = messageContent /\
    ChatService.sessions (chat srv')
    = <[ChatService.sessionId pm :=
          {| ChatSession.id := ChatSession.id before;
             ChatSession.messages :=
               ChatSession.messages before ++ user :: rest;
             ChatSession.createdAt := ChatSession.createdAt before;
             ChatSession.updatedAt := t |}]>
        (ChatService.sessions (chat srv)) /\
    ((rest = [] /\ t = ChatSession.updatedAt before /\
      exists e, last (Subject.emitted ai) = Some (Error e)) \/
     (exists answer, rest = [answer] /\ Message.role answer = ASSISTANT /\
                     last (Subject.emitted ai) = Some Complete)).
Proof.
  intros Hrun before.
  destruct (processMessage_settles _ _ _ _ _ _ _ _ _ _ Hrun)
    as (Hsid & Hend).
  destruct (submit_spec randomUUID messageContent sessionId srv)
    as (_ & Hrole & Hcontent & Hsess).
  fold before in Hsess. rewrite Hsid.
  set (sub := submit randomUUID messageContent sessionId (now srv)
                (chat srv)) in *.
  exists (userMessage sub).
  destruct Hend as [(e & Hlast & ->) | (Hlast & answer & t & Hans & ->)].
  - exists [], (ChatSession.updatedAt before).
    split; [done |]. split; [done |]. split; [exact Hsess |].
    left. eauto.
  - exists [answer], t.
    split; [done |]. split; [done |]. split.
    + rewrite Hsess, alter_insert_eq. f_equal.
      unfold ChatService.touch, ChatService.push. simpl.
      by rewrite <- app_assoc.
    + right. eauto.
Qed.

(** C5.  When the completion stream of a [processMessage] call ends in
    an error, no assistant message is appended: the messages of the
    session afterwards are those it had before the call followed by the
    one user message, its [updatedAt] is what it was, and no other
    session has changed. *)
Theorem failed_stream_commits_no_answer (messageContent : string)
    (sessionId : option string) (srv : Server)
    (pm : ChatService.ProcessedMessage) (out ai : Subject.t)
    (srv' : Server) (e : Exception) :
  processMessage breakerConfig openai randomUUID messageContent sessionId srv
  = (pm, out, ai, srv') ->
  last (Subject.emitted ai) = Some (Error e) ->
  let before := sessionBefore randomUUID sessionId srv in
  exists user after,
    Message.role user = USER /\
    Message.content user = messageContent /\
    ChatService.sessions (chat srv') !! ChatService.sessionId pm
    = Some after /\
    ChatSession.messages after = ChatSession.messages before ++ [user] /\
    ChatSession.updatedAt after = ChatSession.updatedAt before /\
    ChatService.sessions (chat srv')
    = <[ChatService.sessionId pm := after]>
        (ChatService.sessions (chat srv)).
Proof.
  intros Hrun Hlast before.
  destruct (processMessage_session _ _ _ _ _ _ _ Hrun)
    as (user & rest & t & Hrole & Hcontent & Hsess & Hend).
  fold before in Hsess, Hend.
  destruct Hend as [(-> & -> & _) | (answer & _ & _ & Hcomplete)];
    [| congruence].
  exists user. eexists. split; [done |]. split; [done |].
  split; [rewrite Hsess; apply lookup_insert_eq |].
  split; [reflexivity |]. split; [reflexivity | exact Hsess].
Qed.

(** C8 (as the code has it).  The user message that [processMessage]
    appends to the session carries the caller's text exactly as it was
    given: nothing trims it, neither in the service nor in the gateway,
    which passes [data.message] on unchanged. *)
Theorem user_message_stored_verbatim (messageContent : string)
    (sessionId : option string) (srv : Server) :
  let '(pm, _, _, srv') :=
    processMessage breakerConfig openai randomUUID messageContent
      sessionId srv in
  (exists user rest after,
     ChatService.sessions (chat srv') !! ChatService.sessionId pm
     = Some after /\
     ChatSession.messages after
     = ChatSession.messages (sessionBefore randomUUID sessionId srv)
       ++ user :: rest /\
     Message.role user = USER /\
     Message.content user = messageContent /\
     (rest = [] \/
      exists answer, rest = [answer] /\ Message.role answer = ASSISTANT)) /\
  forall data,
    snd (ChatGateway.handleMessage breakerConfig openai randomUUID data srv)
    = snd (processMessage breakerConfig openai randomUUID
             (dto_message data) (dto_sessionId data) srv).
Proof.
  destruct (processMessage breakerConfig openai randomUUID messageContent
              sessionId srv) as [[[pm out] ai] srv'] eqn:Hrun.
  split.
  - destruct (processMessage_session _ _ _ _ _ _ _ Hrun)
      as (user & rest & t & Hrole & Hcontent & Hsess & Hend).
    exists user, rest. eexists.
    split; [rewrite Hsess; apply lookup_insert_eq |].
    split; [reflexivity |]. split; [done |]. split; [done |].
    destruct Hend as [(-> & _) | (answer & -> & Hans & _)]; eauto.
  - intros data. unfold ChatGateway.handleMessage.
    by destruct (processMessage breakerConfig openai randomUUID
                   (dto_message data) (dto_sessionId data) srv)
      as [[[? ?] ?] ?].
Qed.

(** C9 (as the code has it).  For a caller-supplied session identifier
    that is not the empty string, [processMessage] answers for that very
    identifier and the session map contains it afterwards; if it named no
    session before, the session found there was created by the call, at
    the time of the call, and begins with the user message. *)
Theorem supplied_session_is_created (messageContent sid : string)
    (srv : Server) :
  sid <> EmptyString ->
  let '(pm, _, _, srv') :=
    processMessage breakerConfig openai randomUUID messageContent
      (Some sid) srv in
  ChatService.sessionId pm = sid /\
  is_Some (ChatService.sessions (chat srv') !! sid) /\
  (ChatService.sessions (chat srv) !! sid = None ->
   exists after user rest,
     ChatService.sessions (chat srv') !! sid = Some after /\
     ChatSession.id after = sid /\
     ChatSession.createdAt after = now srv /\
     ChatSession.messages after = user :: rest /\
     Message.role user = USER /\
     Message.content user = messageContent).
Proof.
  intros Hne.
  destruct (processMessage breakerConfig openai randomUUID messageContent
              (Some sid) srv) as [[[pm out] ai] srv'] eqn:Hrun.
  destruct (processMessage_settles _ _ _ _ _ _ _ _ _ _ Hrun) as (Hsid & _).
  destruct (submit_spec randomUUID messageContent (Some sid) srv)
    as (Hactual & _).
  rewrite (resolveSession_supplied randomUUID sid _ _ Hne) in Hactual.
  simpl in Hactual. rewrite Hactual in Hsid.
  destruct (processMessage_session _ _ _ _ _ _ _ Hrun)
    as (user & rest & t & Hrole & Hcontent & Hsess & _).
  rewrite Hsid in Hsess.
  split; [done |]. split; [rewrite Hsess, lookup_insert_eq; eauto |].
  intros Hnew. eexists _, user, rest.
  split; [rewrite Hsess; apply lookup_insert_eq |].
  unfold sessionBefore.
  rewrite (resolveSession_supplied randomUUID sid _ _ Hne), Hnew.
  simpl. done.
Qed.

End SessionFacts.

Lemma failed_stream_commits_no_answer_witness :
  let openai := first_then (answers ["Hi"]) (rejects 500) in
  let cfg := CircuitBreakerService.defaultConfig in
  let srv :=
    snd (processMessage cfg openai uuid_of "Hello" (Some "abc") (start 0)) in
  let r := processMessage cfg openai uuid_of "Again" (Some "abc") srv in
  let pm := fst (fst (fst r)) in
  let ai := snd (fst r) in
  let srv' := snd r in
  r = (pm, snd (fst (fst r)), ai, srv') /\
  last (Subject.emitted ai)
  = Some (Error (AIUnexpectedErrorException "request failed" (Some 500))) /\
  exists user after,
    Message.role user = USER /\
    Message.content user = "Again" /\
    ChatService.sessions (chat srv') !! ChatService.sessionId pm
    = Some after /\
    ChatSession.messages after
    = ChatSession.messages (sessionBefore uuid_of (Some "abc") srv)
      ++ [user] /\
    ChatSession.updatedAt after
    = ChatSession.updatedAt (sessionBefore uuid_of (Some "abc") srv) /\
    ChatService.sessions (chat srv')
    = <[ChatService.sessionId pm := after]> (ChatService.sessions (chat srv)).
Proof.
  intros openai cfg srv r pm ai srv'.
  assert (r = (pm, snd (fst (fst r)), ai, srv')) as Hrun
    by (vm_compute; reflexivity).
  assert (last (Subject.emitted ai)
          = Some (Error (AIUnexpectedErrorException "request failed"
                           (Some 500)))) as Hlast
    by (vm_compute; reflexivity).
  split; [exact Hrun |]. split; [exact Hlast |].
  exact (failed_stream_commits_no_answer cfg openai uuid_of "Again"
           (Some "abc") srv pm (snd (fst (fst r))) ai srv' _ Hrun Hlast).
Defined.

(** The session of that run: two messages from the first exchange, then
    the second user message and nothing after it. *)
Example failed_stream_session :
  let openai := first_then (answers ["Hi"]) (rejects 500) in
  let cfg := CircuitBreakerService.defaultConfig in
  let srv :=
    snd (processMessage cfg openai uuid_of "Hello" (Some "abc") (start 0)) in
  let srv' :=
    snd (processMessage cfg openai uuid_of "Again" (Some "abc") srv) in
  (map (fun m => (Message.role m, Message.content m)) ∘ ChatSession.messages)
    <$> (ChatService.sessions (chat srv') !! "abc")
  = Some [(USER, "Hello"); (ASSISTANT, "Hi"); (USER, "Again")].
Proof. vm_compute. reflexivity. Qed.

(** C8 as stated fails: the text is stored with its leading and trailing
    blanks, where the trimmed input would be ["hi"]. *)
Lemma user_message_is_not_trimmed :
  let srv' :=
    snd (processMessage CircuitBreakerService.defaultConfig
           (always (answers ["Hi"])) uuid_of "  hi " (Some "abc") (start 0)) in
  (Message.content <$>
     (ChatService.sessions (chat srv') !! "abc"
        ≫= fun session => head (ChatSession.messages session)))
  = Some "  hi " /\
  trim "  hi " = "hi" /\
  trim "  hi " <> "  hi ".
Proof.
  split; [vm_compute; reflexivity |]. split; [reflexivity | discriminate].
Qed.

Lemma supplied_session_is_created_witness :
  "abc" <> EmptyString /\
  let '(pm, _, _, srv') :=
    processMessage CircuitBreakerService.defaultConfig
      (always (answers ["Hi"])) uuid_of "Hello" (Some "abc") (start 0) in
  ChatService.sessionId pm = "abc" /\
  is_Some (ChatService.sessions (chat srv') !! "abc") /\
  (ChatService.sessions (chat (start 0)) !! "abc" = None ->
   exists after user rest,
     ChatService.sessions (chat srv') !! "abc" = Some after /\
     ChatSession.id after = "abc" /\
     ChatSession.createdAt after = now (start 0) /\
     ChatSession.messages after = user :: rest /\
     Message.role user = USER /\
     Message.content user = "Hello").
Proof.
  split; [discriminate |].
  apply (supplied_session_is_created CircuitBreakerService.defaultConfig
           (always (answers ["Hi"])) uuid_of "Hello" "abc" (start 0)).
  discriminate.
Defined.

(** C9 as stated fails for the empty string: it is treated as no
    identifier at all, a session with a generated identifier is created,
    and the session map does not contain the identifier supplied. *)
Lemma empty_session_id_is_replaced :
  let r :=
    processMessage CircuitBreakerService.defaultConfig
      (always (answers ["Hi"])) uuid_of "Hello" (Some EmptyString) (start 0) in
  ChatService.sessionId (fst (fst (fst r))) = "uuid-0" /\
  ChatService.sessions (chat (snd r)) !! EmptyString = None /\
  is_Some (ChatService.sessions (chat (snd r)) !! "uuid-0").
Proof.
  split; [vm_compute; reflexivity |].
  split; [vm_compute; reflexivity |].
  vm_compute. eauto.
Qed.

(* ===================================================================== *)
(** * Further properties of the circuit breaker                           *)
(* ===================================================================== *)

(** The five goals of [sound], each by its arithmetic. *)
Ltac sound_cases :=
  split; simpl; intros; try discriminate; try congruence;
  repeat split; try lia; eauto.

Section BreakerDynamics.
Import CircuitBreakerService.
Variable config : CircuitBreakerConfig.
Hypothesis failureThreshold_pos : 0 < failureThreshold config.
Hypothesis successThreshold_pos : 0 < successThreshold config.

Lemma sound_initial : sound config initial.
Proof. sound_cases. Qed.

Lemma sound_reset cb : sound config (reset cb).
Proof. apply sound_initial. Qed.

Lemma sound_gate cb now cb' :
  sound config cb -> gate config cb now = inr cb' -> sound config cb'.
Proof.
  intros Hs Hgate. unfold gate in Hgate. destruct (state cb) eqn:E.
  - by injection Hgate as <-.
  - destruct (shouldAttemptReset config cb now); [| discriminate].
    injection Hgate as <-.
    destruct (sound_open _ _ Hs E) as (Hz & Hl).
    pose proof (sound_failures _ _ Hs). sound_cases.
  - by injection Hgate as <-.
Qed.

(** [onSuccess] and [onFailure] on a breaker in any state, also one that
    has been opened by another call since this one began. *)
Lemma sound_onSuccess cb : sound config cb -> sound config (onSuccess config cb).
Proof.
  intros Hs. unfold onSuccess. simpl.
  pose proof (sound_successes _ _ Hs) as Hnn.
  destruct (state cb) eqn:E.
  - destruct (sound_closed _ _ Hs E) as [_ Hz]. sound_cases.
  - destruct (sound_open _ _ Hs E) as [Hz Hl]. sound_cases.
  - destruct (sound_half_open _ _ Hs E) as [Hlt Hl].
    destruct (Z.leb_spec (successThreshold config) (successCount cb + 1));
      sound_cases.
Qed.

Lemma sound_onFailure cb now :
  sound config cb -> sound config (onFailure config cb now).
Proof.
  intros Hs. pose proof (sound_failures _ _ Hs) as Hnn.
  unfold onFailure. simpl.
  destruct (Z.leb_spec (failureThreshold config) (failureCount cb + 1));
    sound_cases.
Qed.

(** A whole call of [execute] is an entry followed by the step of its
    outcome, or no step at all when the call is turned away. *)
Lemma reachable_execute {W T : Type} (Date_now : W -> Z)
    (fn : W -> W * Settled T) cb w pending :
  reachable config cb pending ->
  reachable config (fst (fst (execute config Date_now fn cb w))) pending.
Proof.
  intros Hr. unfold execute.
  destruct (gate config cb (Date_now w)) as [exn | cb1] eqn:Hgate; [done |].
  pose proof (reachable_enter _ _ _ _ _ Hr Hgate) as Hin.
  destruct (fn w) as [w' [v | e]]; simpl.
  - by apply reachable_success.
  - by apply reachable_failure.
Qed.

Lemma serial_reachable cb : serial config cb -> reachable config cb O.
Proof.
  induction 1 as [| W T Date_now fn cb w _ IH | cb _ IH].
  - apply reachable_initial.
  - by apply reachable_execute.
  - by apply reachable_reset.
Qed.

(** With calls taken one after the other, an open circuit has counted at
    least the threshold of failures.  Overlapping calls lose this: a call
    that began before the circuit opened and succeeds afterwards sets the
    count back to zero and leaves the circuit open. *)
Lemma serial_open_failures cb :
  serial config cb -> state cb = OPEN ->
  failureThreshold config <= failureCount cb.
Proof.
  induction 1 as [| W T Date_now fn cb w _ IH | cb _ _]; [done | | done].
  unfold execute.
  destruct (gate config cb (Date_now w)) as [exn | cb1] eqn:Hgate; [done |].
  pose proof (gate_passes_not_open _ _ _ _ Hgate) as Hno.
  destruct (fn w) as [w' [v | e]]; cbn [fst].
  - intros Hopen. exfalso. revert Hopen. unfold onSuccess. simpl.
    destruct (state cb1) eqn:E; [done | done |].
    by destruct (successThreshold config <=? successCount cb1 + 1).
  - unfold onFailure. simpl.
    destruct (Z.leb_spec (failureThreshold config) (failureCount cb1 + 1));
      simpl; [intros _; lia | done].
Qed.

(** Whatever is executed, however the calls overlap and whenever the
    breaker is reset, its counters agree with its state: closed with fewer
    failures counted than the threshold and no success counted; open with
    no success counted and the time of the last failure recorded; half
    open with fewer successes than the success threshold and the time of
    the last failure recorded. *)
Theorem reachable_sound (cb : t) (pending : nat) :
  reachable config cb pending -> sound config cb.
Proof.
  induction 1 as [| cb cb1 now pending _ IH Hgate | cb pending _ IH
                  | cb now pending _ IH | cb pending _ _].
  - apply sound_initial.
  - by apply (sound_gate cb now).
  - by apply sound_onSuccess.
  - by apply sound_onFailure.
  - apply sound_reset.
Qed.

(** ** Closed: consecutive failures *)

Lemma drive_cons step script cb :
  drive config (step :: script) cb
  = drive config script
      (fst (fst (execute config (fun w : Z => w) (operation (snd step)) cb
                   (fst step)))).
Proof. reflexivity. Qed.

Lemma execute_operation_closed t ok cb :
  state cb <> OPEN ->
  fst (fst (execute config (fun w : Z => w) (operation ok) cb t))
  = if ok then onSuccess config cb else onFailure config cb t.
Proof.
  intros Hno. unfold execute. rewrite (gate_not_open _ _ _ Hno).
  by destruct ok.
Qed.

(** As long as no run of consecutive failures reaches the threshold, a
    closed breaker stays closed through any mix of successes and failures,
    and its failure count is the length of the run of failures it has just
    seen: every success starts the count again. *)
Theorem closed_while_streaks_short (script : list (Z * bool)) (cb : t) :
  state cb = CLOSED ->
  successCount cb = 0 ->
  Forall (fun k => k < failureThreshold config)
    (streaks (failureCount cb) script) ->
  state (drive config script cb) = CLOSED /\
  failureCount (drive config script cb)
  = default (failureCount cb) (last (streaks (failureCount cb) script)).
Proof.
  revert cb. induction script as [| [t ok] script IH]; intros cb Hc Hz Hall.
  - done.
  - rewrite drive_cons. cbn [fst snd].
    rewrite execute_operation_closed by congruence.
    simpl in Hall. apply Forall_cons in Hall as [Hk Hall].
    set (cb' := if ok then onSuccess config cb else onFailure config cb t).
    assert (state cb' = CLOSED /\ successCount cb' = 0 /\
            failureCount cb' = (if ok then 0 else failureCount cb + 1))
      as (Hc' & Hz' & Hf').
    { subst cb'. destruct ok.
      - unfold onSuccess. simpl. by rewrite Hc.
      - rewrite onFailure_state, onFailure_successCount,
          onFailure_failureCount.
        destruct (Z.leb_spec (failureThreshold config) (failureCount cb + 1));
          [lia | done]. }
    rewrite <- Hf' in Hall.
    destruct (IH cb' Hc' Hz' Hall) as [Hstate Hcount].
    split; [done |]. rewrite Hcount. simpl streaks.
    rewrite <- Hf', last_cons.
    by destruct (last (streaks (failureCount cb') script)).
Qed.

(** The failure that completes a run of [failureThreshold] consecutive
    failures opens the circuit and records when it happened. *)
Theorem closed_opens_at_threshold (cb : t) (now : Z) :
  state cb = CLOSED ->
  failureCount cb + 1 = failureThreshold config ->
  let cb' := drive config [(now, false)] cb in
  state cb' = OPEN /\
  failureCount cb' = failureThreshold config /\
  lastFailureTime cb' = Some now.
Proof.
  intros Hc Hk. simpl. unfold drive. simpl.
  rewrite execute_operation_closed by congruence.
  rewrite onFailure_state, onFailure_failureCount, onFailure_lastFailureTime.
  destruct (Z.leb_spec (failureThreshold config) (failureCount cb + 1));
    [done | lia].
Qed.

End BreakerDynamics.

Section BreakerRecovery.
Import CircuitBreakerService.
Variable config : CircuitBreakerConfig.

(** Once the timeout has passed, [execute] on an open breaker runs the
    operation as it would without a breaker, and hands back its world and
    its outcome.  If the probe fails the circuit is open again and the
    timeout starts anew from that failure; if it succeeds the failure
    count is cleared and the circuit is half open with one success
    counted, or closed at once when one success is all it takes. *)
Theorem open_probe_after_timeout {W T : Type} (Date_now : W -> Z)
    (fn : W -> W * Settled T) (cb : t) (w : W) (last : Z) :
  state cb = OPEN ->
  lastFailureTime cb = Some last ->
  last + timeout config <= Date_now w ->
  failureThreshold config <= failureCount cb ->
  successCount cb = 0 ->
  let '(cb', w', outcome) := execute config Date_now fn cb w in
  (w', outcome) = fn w /\
  match outcome with
  | Rejected _ =>
      state cb' = OPEN /\
      failureCount cb' = failureCount cb + 1 /\
      lastFailureTime cb' = Some (Date_now w')
  | Resolved _ =>
      failureCount cb' = 0 /\
      lastFailureTime cb' = Some last /\
      if successThreshold config <=? 1
      then state cb' = CLOSED /\ successCount cb' = 0
      else state cb' = HALF_OPEN /\ successCount cb' = 1
  end.
Proof.
  intros Hopen Hlast Hdue Hthr Hz. unfold execute, gate.
  rewrite Hopen, (shouldAttemptReset_after _ _ _ _ Hlast Hdue).
  destruct (fn w) as [w' [v | e]]; split; try done.
  - unfold onSuccess. simpl. rewrite Hz.
    change (0 + 1) with 1.
    by destruct (successThreshold config <=? 1).
  - rewrite onFailure_state, onFailure_failureCount,
      onFailure_lastFailureTime. simpl.
    destruct (Z.leb_spec (failureThreshold config) (failureCount cb + 1));
      [done | lia].
Qed.

Lemma execute_operation_success t cb :
  state cb = HALF_OPEN ->
  fst (fst (execute config (fun w : Z => w) (operation true) cb t))
  = onSuccess config cb.
Proof.
  intros Hh. rewrite execute_operation_closed; [done | congruence].
Qed.

(** A half-open breaker closes with the success that brings its count of
    consecutive successes to [successThreshold], with both counters back
    at zero; until then it stays half open and counts. *)
Theorem half_open_closes_at_threshold (script : list (Z * bool)) (cb : t) :
  state cb = HALF_OPEN ->
  Forall (fun step => snd step = true) script ->
  script <> [] ->
  successCount cb + Z.of_nat (length script) <= successThreshold config ->
  let reached :=
    successCount cb + Z.of_nat (length script) =? successThreshold config in
  drive config script cb
  = {| state := if reached then CLOSED else HALF_OPEN;
       failureCount := 0;
       successCount :=
         if reached then 0 else successCount cb + Z.of_nat (length script);
       lastFailureTime := lastFailureTime cb |}.
Proof.
  revert cb. induction script as [| [t ok] script IH];
    intros cb Hh Hall Hne Hle; [done |].
  apply Forall_cons in Hall as [Hok Hall]. simpl in Hok. subst ok.
  rewrite drive_cons. cbn [fst snd]. rewrite execute_operation_success by done.
  cbn [length] in *. rewrite Nat2Z.inj_succ in *.
  destruct script as [| step script].
  - change (Z.of_nat (length [])) with 0 in *.
    replace (successCount cb + Z.succ 0) with (successCount cb + 1) in * by lia.
    unfold drive. simpl. unfold onSuccess. simpl. rewrite Hh.
    destruct (Z.leb_spec (successThreshold config) (successCount cb + 1)),
      (Z.eqb_spec (successCount cb + 1) (successThreshold config));
      try lia; done.
  - assert (onSuccess config cb
            = {| state := HALF_OPEN; failureCount := 0;
                 successCount := successCount cb + 1;
                 lastFailureTime := lastFailureTime cb |}) as ->.
    { unfold onSuccess. simpl. rewrite Hh.
      pose proof (Nat2Z.is_nonneg (length (step :: script))).
      cbn [length] in *. rewrite Nat2Z.inj_succ in *.
      destruct (Z.leb_spec (successThreshold config) (successCount cb + 1));
        [lia | done]. }
    rewrite IH; try done.
    + cbn [successCount lastFailureTime].
      by replace (successCount cb + 1 + Z.of_nat (length (step :: script)))
        with (successCount cb + Z.succ (Z.of_nat (length (step :: script))))
        by lia.
    + cbn [successCount]. lia.
Qed.

End BreakerRecovery.

Lemma reachable_sound_witness :
  let cfg := CircuitBreakerService.defaultConfig in
  let cb :=
    {| CircuitBreakerService.state := OPEN;
       CircuitBreakerService.failureCount := 0;
       CircuitBreakerService.successCount := 0;
       CircuitBreakerService.lastFailureTime := Some 5 |} in
  0 < failureThreshold cfg /\
  0 < successThreshold cfg /\
  reachable cfg cb O /\
  sound cfg cb.
Proof.
  intros cfg cb.
  pose (enter := fun n H =>
          reachable_enter cfg CircuitBreakerService.initial
            CircuitBreakerService.initial 0 n H eq_refl).
  pose proof (enter _ (enter _ (enter _ (enter _ (enter _ (enter _
                (reachable_initial cfg))))))) as Hsix.
  pose proof (reachable_failure cfg _ 1 _ Hsix) as H1.
  pose proof (reachable_failure cfg _ 2 _ H1) as H2.
  pose proof (reachable_failure cfg _ 3 _ H2) as H3.
  pose proof (reachable_failure cfg _ 4 _ H3) as H4.
  pose proof (reachable_failure cfg _ 5 _ H4) as H5.
  pose proof (reachable_success cfg _ _ H5) as Hreach.
  change (reachable cfg cb O) in Hreach.
  split; [reflexivity |]. split; [reflexivity |]. split; [exact Hreach |].
  exact (reachable_sound cfg eq_refl eq_refl cb O Hreach).
Defined.

Lemma closed_while_streaks_short_witness :
  let cfg := CircuitBreakerService.defaultConfig in
  let script :=
    [(0, false); (1, false); (2, false); (3, false); (4, true);
     (5, false); (6, false); (7, false); (8, false)] in
  CircuitBreakerService.state CircuitBreakerService.initial = CLOSED /\
  CircuitBreakerService.successCount CircuitBreakerService.initial = 0 /\
  Forall (fun k => k < failureThreshold cfg) (streaks 0 script) /\
  CircuitBreakerService.state
    (drive cfg script CircuitBreakerService.initial) = CLOSED /\
  CircuitBreakerService.failureCount
    (drive cfg script CircuitBreakerService.initial)
  = default 0 (last (streaks 0 script)).
Proof.
  intros cfg script.
  assert (Forall (fun k => k < failureThreshold cfg) (streaks 0 script))
    as Hall by (repeat constructor).
  split; [reflexivity |]. split; [reflexivity |]. split; [exact Hall |].
  exact (closed_while_streaks_short cfg script CircuitBreakerService.initial
           eq_refl eq_refl Hall).
Defined.

Lemma closed_opens_at_threshold_witness :
  let cfg := CircuitBreakerService.defaultConfig in
  let cb :=
    drive cfg [(0, false); (1, false); (2, false); (3, false)]
      CircuitBreakerService.initial in
  CircuitBreakerService.state cb = CLOSED /\
  CircuitBreakerService.failureCount cb + 1 = failureThreshold cfg /\
  let cb' := drive cfg [(9, false)] cb in
  CircuitBreakerService.state cb' = OPEN /\
  CircuitBreakerService.failureCount cb' = failureThreshold cfg /\
  CircuitBreakerService.lastFailureTime cb' = Some 9.
Proof.
  intros cfg cb. split; [reflexivity |]. split; [reflexivity |].
  apply (closed_opens_at_threshold cfg cb 9); reflexivity.
Defined.

Lemma open_probe_after_timeout_witness :
  let cfg := CircuitBreakerService.defaultConfig in
  let cb := {| CircuitBreakerService.state := OPEN;
               CircuitBreakerService.failureCount := 5;
               CircuitBreakerService.successCount := 0;
               CircuitBreakerService.lastFailureTime := Some 1000 |} in
  CircuitBreakerService.state cb = OPEN /\
  CircuitBreakerService.lastFailureTime cb = Some 1000 /\
  1000 + timeout cfg <= fst (61000, O) /\
  failureThreshold cfg <= CircuitBreakerService.failureCount cb /\
  CircuitBreakerService.successCount cb = 0 /\
  let '(cb', w', outcome) :=
    CircuitBreakerService.execute cfg fst counting_stub cb (61000, O) in
  (w', outcome) = counting_stub (61000, O) /\
  match outcome with
  | Rejected _ =>
      CircuitBreakerService.state cb' = OPEN /\
      CircuitBreakerService.failureCount cb'
      = CircuitBreakerService.failureCount cb + 1 /\
      CircuitBreakerService.lastFailureTime cb' = Some (fst w')
  | Resolved _ =>
      CircuitBreakerService.failureCount cb' = 0 /\
      CircuitBreakerService.lastFailureTime cb' = Some 1000 /\
      if successThreshold cfg <=? 1
      then CircuitBreakerService.state cb' = CLOSED /\
           CircuitBreakerService.successCount cb' = 0
      else CircuitBreakerService.state cb' = HALF_OPEN /\
           CircuitBreakerService.successCount cb' = 1
  end.
Proof.
  intros cfg cb.
  split; [reflexivity |]. split; [reflexivity |].
  split; [vm_compute; discriminate |].
  split; [vm_compute; discriminate |]. split; [reflexivity |].
  apply (open_probe_after_timeout cfg fst counting_stub cb (61000, O) 1000);
    try reflexivity; vm_compute; discriminate.
Defined.

Lemma half_open_closes_at_threshold_witness :
  let cfg := CircuitBreakerService.defaultConfig in
  let cb := {| CircuitBreakerService.state := HALF_OPEN;
               CircuitBreakerService.failureCount := 5;
               CircuitBreakerService.successCount := 0;
               CircuitBreakerService.lastFailureTime := Some 1000 |} in
  let script := [(61000, true); (61001, true)] in
  CircuitBreakerService.state cb = HALF_OPEN /\
  Forall (fun step => snd step = true) script /\
  script <> [] /\
  CircuitBreakerService.successCount cb + Z.of_nat (length script)
  <= successThreshold cfg /\
  drive cfg script cb
  = {| CircuitBreakerService.state := CLOSED;
       CircuitBreakerService.failureCount := 0;
       CircuitBreakerService.successCount := 0;
       CircuitBreakerService.lastFailureTime := Some 1000 |}.
Proof.
  intros cfg cb script.
  assert (Forall (fun step : Z * bool => snd step = true) script) as Hall
    by (repeat constructor).
  split; [reflexivity |]. split; [exact Hall |]. split; [discriminate |].
  split; [vm_compute; discriminate |].
  apply (half_open_closes_at_threshold cfg script cb eq_refl Hall).
  - discriminate.
  - vm_compute. discriminate.
Defined.

(* ===================================================================== *)
(** * Further properties of the AI service                                *)
(* ===================================================================== *)

(** [estimateTokens] is the ceiling of a quarter of the length: the least
    number of four-character tokens that cover the text; only the empty
    text costs nothing. *)
Theorem estimateTokens_ceiling (text : string) :
  let tokens := AIService.estimateTokens text in
  4 * (tokens - 1) < Z.of_nat (String.length text) <= 4 * tokens /\
  (tokens = 0 <-> text = EmptyString).
Proof.
  unfold AIService.estimateTokens. simpl.
  pose proof (Z.div_mod (Z.of_nat (String.length text) + 3) 4 ltac:(lia)).
  pose proof (Z.mod_pos_bound (Z.of_nat (String.length text) + 3) 4
                ltac:(lia)).
  split; [lia |]. split.
  - intros Hz. destruct text; [done |]. simpl in *. lia.
  - intros ->. reflexivity.
Qed.

Lemma pow2_ge_16 (n : Z) : 4 <= n -> 16 <= 2 ^ n.
Proof.
  intros Hn. change 16 with (2 ^ 4). apply Z.pow_le_mono_r; lia.
Qed.

(** The backoff doubles from one second, [1000 * 2^(attempt-1)] for the
    first four attempts, and is capped at ten seconds from the fifth on;
    it never decreases with the attempt number. *)
Theorem calculateRetryDelay_backoff (attempt : nat) :
  (1 <= attempt)%nat ->
  1000 <= AIService.calculateRetryDelay attempt <= 10000 /\
  ((attempt <= 4)%nat ->
   AIService.calculateRetryDelay attempt = 1000 * 2 ^ (Z.of_nat attempt - 1)) /\
  ((5 <= attempt)%nat -> AIService.calculateRetryDelay attempt = 10000) /\
  AIService.calculateRetryDelay attempt
  <= AIService.calculateRetryDelay (Datatypes.S attempt).
Proof.
  intros Hge. unfold AIService.calculateRetryDelay.
  assert (1 <= 2 ^ (Z.of_nat attempt - 1)) as Hone.
  { change 1 with (2 ^ 0) at 1. apply Z.pow_le_mono_r; lia. }
  assert (2 ^ (Z.of_nat attempt - 1)
          <= 2 ^ (Z.of_nat (Datatypes.S attempt) - 1)) as Hmono.
  { apply Z.pow_le_mono_r; lia. }
  split; [lia |]. split; [| split].
  - intros Hle.
    assert (2 ^ (Z.of_nat attempt - 1) <= 2 ^ 3) as Hup
      by (apply Z.pow_le_mono_r; lia).
    change (2 ^ 3) with 8 in Hup. lia.
  - intros Hfive.
    pose proof (pow2_ge_16 (Z.of_nat attempt - 1) ltac:(lia)). lia.
  - lia.
Qed.

Lemma handleOpenAIError_classes (error : ApiError) :
  match response error with
  | None => AIService.handleOpenAIError error = RawError error
  | Some r =>
      let text := JS.or_else (data_error_message r) (message error) in
      (status r = 429 ->
       AIService.handleOpenAIError error = AIRateLimitException text) /\
      (status r = 401 ->
       AIService.handleOpenAIError error = AIAuthenticationException text) /\
      (status r <> 429 -> status r <> 401 ->
       AIService.handleOpenAIError error
       = AIUnexpectedErrorException text (Some (status r)))
  end /\
  ((exists text,
      AIService.handleOpenAIError error = AIAuthenticationException text) <->
   (exists r, response error = Some r /\ status r = 401)) /\
  ((exists text, AIService.handleOpenAIError error = AIRateLimitException text)
   <-> (exists r, response error = Some r /\ status r = 429)).
Proof.
  unfold AIService.handleOpenAIError.
  destruct (response error) as [r |].
  - destruct (Z.eqb_spec (status r) 429) as [H429 | H429];
      destruct (Z.eqb_spec (status r) 401) as [H401 | H401];
      try lia.
    + split; [repeat split; intros; (done || lia) |]. split; split.
      * intros [text Heq]. discriminate.
      * intros (r' & [= <-] & Hs). lia.
      * eauto.
      * eauto.
    + split; [repeat split; intros; (done || lia) |]. split; split.
      * eauto.
      * eauto.
      * intros [text Heq]. discriminate.
      * intros (r' & [= <-] & Hs). lia.
    + split.
      { repeat split; intros; try lia.
        by destruct ((status r =? 500) || (status r =? 502)
                     || (status r =? 503)). }
      destruct ((status r =? 500) || (status r =? 502) || (status r =? 503));
        split; split;
        try (intros [text Heq]; discriminate);
        intros (r' & [= <-] & Hs); lia.
  - split; [done |]. split; split;
      try (intros [text Heq]; discriminate);
      intros (r' & Hr & _); discriminate.
Qed.

(** The message of what [handleOpenAIError] throws, as the exception
    classes build it. *)
Lemma handleOpenAIError_message (error : ApiError) :
  error_message (AIService.handleOpenAIError error)
  = match response error with
    | None => message error
    | Some r =>
        let text := JS.or_else (data_error_message r) (message error) in
        if status r =? 429
        then if JS.truthy_string text then text
             else "AI service rate limit exceeded. Please try again later."
        else if status r =? 401
        then if JS.truthy_string text then text
             else "AI service authentication failed"
        else "AI service error"
             +:+ (if status r =? 0 then EmptyString
                  else " (" +:+ pretty (status r) +:+ ")")
             +:+ ": " +:+ text
    end.
Proof.
  unfold AIService.handleOpenAIError.
  destruct (response error) as [r |]; [| reflexivity].
  cbn zeta.
  destruct (status r =? 429); [reflexivity |].
  destruct (status r =? 401); [reflexivity |].
  assert (error_message
            (AIUnexpectedErrorException
               (JS.or_else (data_error_message r) (message error))
               (Some (status r)))
          = "AI service error"
            +:+ (if status r =? 0 then EmptyString
                 else " (" +:+ pretty (status r) +:+ ")")
            +:+ ": " +:+ JS.or_else (data_error_message r) (message error))
    as Hother.
  { unfold error_message, unexpectedErrorText, JS.truthy_number.
    by destruct (status r =? 0). }
  by destruct ((status r =? 500) || (status r =? 502) || (status r =? 503)).
Qed.

(** [handleOpenAIError] decides by the HTTP status alone: 429 and only 429
    gives [AIRateLimitException], 401 and only 401 gives
    [AIAuthenticationException], every other status gives
    [AIUnexpectedErrorException] carrying that status, and an error
    without [response] is rethrown as it is.  The text handed to the
    exception's constructor is the one of the response body when it has a
    non-empty one, else the error's own.  The message of the exception is
    not always that text: the rate limit and authentication classes put
    their default text in place of an empty one, and the unexpected error
    class puts ['AI service error (status): '] in front. *)
Theorem handleOpenAIError_by_status (error : ApiError) :
  (match response error with
    | None => AIService.handleOpenAIError error = RawError error
    | Some r =>
        let text := JS.or_else (data_error_message r) (message error) in
        (status r = 429 ->
         AIService.handleOpenAIError error = AIRateLimitException text) /\
        (status r = 401 ->
         AIService.handleOpenAIError error = AIAuthenticationException text) /\
        (status r <> 429 -> status r <> 401 ->
         AIService.handleOpenAIError error
         = AIUnexpectedErrorException text (Some (status r)))
    end /\
    ((exists text,
        AIService.handleOpenAIError error = AIAuthenticationException text) <->
     (exists r, response error = Some r /\ status r = 401)) /\
    ((exists text, AIService.handleOpenAIError error = AIRateLimitException text)
     <-> (exists r, response error = Some r /\ status r = 429))) /\
  error_message (AIService.handleOpenAIError error)
  = match response error with
    | None => message error
    | Some r =>
        let text := JS.or_else (data_error_message r) (message error) in
        if status r =? 429
        then if JS.truthy_string text then text
             else "AI service rate limit exceeded. Please try again later."
        else if status r =? 401
        then if JS.truthy_string text then text
             else "AI service authentication failed"
        else "AI service error"
             +:+ (if status r =? 0 then EmptyString
                  else " (" +:+ pretty (status r) +:+ ")")
             +:+ ": " +:+ text
    end.
Proof.
  split; [apply handleOpenAIError_classes | apply handleOpenAIError_message].
Qed.

(** ** A request, attempt by attempt *)

(** The closing steps of the cases of a run that makes a single call. *)
Ltac run_single :=
  repeat split; try lia; try done;
  try (intros [? ?]; discriminate);
  try (intros _; change (AIService.maxRetries AIService.config) with 3%nat in *;
       lia);
  try (unfold latencies, waits; simpl; lia).

Section RunFacts.
Import AIService.
Context {S : Type}.
Variable openai : OpenAI.
Variable observer : Observer S.
Variable messages : list AIMessage.

Lemma stream_next_emitted content w :
  Subject.isStopped (stream w) = false ->
  Subject.emitted (stream (stream_next observer content w))
  = Subject.emitted (stream w) ++ [Next content].
Proof.
  intros Hrun. unfold stream_next. rewrite Hrun. simpl.
  unfold Subject.next. by rewrite Hrun.
Qed.

(** Reading a completion forwards its fragments in the order of the
    chunks. *)
Lemma forAwait_emitted completion w :
  Subject.isStopped (stream w) = false ->
  Subject.emitted (stream (fst (forAwait observer completion w)))
  = Subject.emitted (stream w) ++ map Next (delivered completion).
Proof.
  revert w. induction completion as [| chunk rest IH]; intros w Hrun; simpl.
  - by rewrite app_nil_r.
  - set (w1 := match choices0 chunk ≫= delta_content with
               | Some text =>
                   if JS.truthy (choices0 chunk ≫= delta_content)
                   then stream_next observer text w else w
               | None => w
               end).
    set (here := match choices0 chunk ≫= delta_content with
                 | Some text => if JS.truthy_string text then [text] else []
                 | None => []
                 end).
    assert (Subject.isStopped (stream w1) = false /\
            Subject.emitted (stream w1)
            = Subject.emitted (stream w) ++ map Next here) as [Hrun1 Hlog1].
    { subst w1 here.
      destruct (choices0 chunk ≫= delta_content) as [text |]; simpl.
      - destruct (JS.truthy_string text); simpl.
        + by rewrite stream_next_isStopped, stream_next_emitted.
        + by rewrite app_nil_r.
      - by rewrite app_nil_r. }
    destruct (JS.truthy (choices0 chunk ≫= finish_reason)); simpl.
    + done.
    + by rewrite IH, Hlog1, map_app, app_assoc.
Qed.

Lemma stream_complete_emitted w :
  Subject.isStopped (stream w) = false ->
  Subject.emitted (stream (stream_complete observer w))
  = Subject.emitted (stream w) ++ [Complete].
Proof.
  intros Hrun. unfold stream_complete. rewrite Hrun. simpl.
  unfold Subject.complete. by rewrite Hrun.
Qed.

Lemma fragments_of_S from n :
  fragments_of openai messages from (Datatypes.S n)
  = delivered (chunks (openai from messages))
    ++ fragments_of openai messages (Datatypes.S from) n.
Proof. reflexivity. Qed.

Lemma latencies_S from n :
  latencies openai messages from (Datatypes.S n)
  = latency (openai from messages)
    + latencies openai messages (Datatypes.S from) n.
Proof. reflexivity. Qed.

Lemma waits_S attempt n :
  waits attempt (Datatypes.S n)
  = calculateRetryDelay attempt + waits (Datatypes.S attempt) n.
Proof. reflexivity. Qed.

(** What one run of [streamWithRetry] does, in terms of the calls it makes:
    [made] calls, all failed but possibly the last; the fragments of all of
    them on the stream, in order, followed by [Complete] exactly when the
    last call succeeded; the latencies of the calls and the backoff
    between them on the clock; all the attempts used up when it rejects. *)
Lemma streamWithRetry_run fuel attempt w :
  Subject.isStopped (stream w) = false ->
  (attempt <= maxRetries config)%nat ->
  (maxRetries config <= attempt + fuel)%nat ->
  let r := streamWithRetry openai observer fuel messages attempt w in
  let made := (calls (fst r) - calls w)%nat in
  (1 <= made <= maxRetries config - attempt + 1)%nat /\
  (forall i, (calls w <= i < calls w + made - 1)%nat ->
             is_Some (failure (openai i messages))) /\
  snd r = match failure (openai (calls w + made - 1)%nat messages) with
          | Some e => Rejected (handleOpenAIError e)
          | None => Resolved tt
          end /\
  (is_Some (failure (openai (calls w + made - 1)%nat messages)) ->
   made = (maxRetries config - attempt + 1)%nat) /\
  Subject.emitted (stream (fst r))
  = Subject.emitted (stream w)
    ++ map Next (fragments_of openai messages (calls w) made)
    ++ match snd r with Resolved _ => [Complete] | Rejected _ => [] end /\
  Subject.isStopped (stream (fst r))
  = match snd r with Resolved _ => true | Rejected _ => false end /\
  clock (fst r)
  = clock w + latencies openai messages (calls w) made
    + waits attempt (made - 1).
Proof.
  revert attempt w.
  induction fuel as [| fuel IH]; intros attempt w Hrun Hle Hfuel r made;
    subst r made;
    [rewrite streamWithRetry_O | rewrite streamWithRetry_S];
    pose proof (forAwait_emitted (chunks (openai (calls w) messages))
                  (entered openai messages w) Hrun) as Hlog;
    pose proof (forAwait_isStopped observer
                  (chunks (openai (calls w) messages))
                  (entered openai messages w)) as Hstop;
    pose proof (forAwait_frame observer
                  (chunks (openai (calls w) messages))
                  (entered openai messages w)) as [Hclock Hcalls];
    set (w1 := fst (forAwait observer (chunks (openai (calls w) messages))
                      (entered openai messages w))) in *;
    cbn [entered clock calls stream] in Hlog, Hstop, Hclock, Hcalls;
    destruct (failure (openai (calls w) messages)) as [e |] eqn:Hf.
  - (* no fuel, the call fails *)
    rewrite (executeStream_failure _ _ _ _ _ Hf). fold w1. cbn [fst snd].
    rewrite Hcalls.
    replace (Datatypes.S (calls w) - calls w)%nat with 1%nat by lia.
    replace (calls w + 1 - 1)%nat with (calls w) by lia.
    rewrite Hf, Hlog, Hstop, Hrun, Hclock, fragments_of_S, latencies_S.
    simpl. rewrite !app_nil_r.
    run_single.
  - (* no fuel, the call succeeds *)
    rewrite (executeStream_success _ _ _ _ Hf). fold w1. cbn [fst snd].
    destruct (stream_complete_frame observer w1) as [-> ->].
    rewrite Hcalls.
    replace (Datatypes.S (calls w) - calls w)%nat with 1%nat by lia.
    replace (calls w + 1 - 1)%nat with (calls w) by lia.
    rewrite Hf, stream_complete_isStopped, stream_complete_emitted, Hlog,
      Hclock, fragments_of_S, latencies_S by (by rewrite Hstop).
    simpl. rewrite !app_nil_r, <- ?app_assoc.
    run_single.
  - (* the call fails *)
    rewrite (executeStream_failure _ _ _ _ _ Hf). fold w1.
    destruct (Nat.ltb_spec attempt (maxRetries config)) as [Hlt | Hlast].
    + set (w2 := sleep (calculateRetryDelay attempt) w1).
      assert (Subject.isStopped (stream w2) = false) as Hrun2
        by (by rewrite <- Hrun, <- Hstop).
      destruct (IH (Datatypes.S attempt) w2 Hrun2 ltac:(lia) ltac:(lia))
        as (Hmade & Hfailed & Hout & Hused & Hlog2 & Hstop2 & Hclock2).
      change (calls w2) with (calls w1) in *.
      change (clock w2) with (clock w1 + calculateRetryDelay attempt) in *.
      change (stream w2) with (stream w1) in *.
      rewrite Hcalls in *.
      set (r := streamWithRetry openai observer fuel messages
                  (Datatypes.S attempt) w2) in *.
      set (made' := (calls (fst r) - Datatypes.S (calls w))%nat) in *.
      replace (calls (fst r) - calls w)%nat with (Datatypes.S made') by lia.
      replace (calls w + Datatypes.S made' - 1)%nat
        with (Datatypes.S (calls w) + made' - 1)%nat by lia.
      split; [lia |]. split.
      { intros i Hi. destruct (decide (i = calls w)) as [-> | Hne].
        - rewrite Hf. eauto.
        - apply Hfailed. lia. }
      split; [exact Hout |]. split; [intros Hs; specialize (Hused Hs); lia |].
      split; [| split; [exact Hstop2 |]].
      * rewrite Hlog2, Hlog, fragments_of_S, map_app, <- !app_assoc. done.
      * rewrite Hclock2, Hclock, latencies_S.
        replace (Datatypes.S made' - 1)%nat
          with (Datatypes.S (made' - 1)) by lia.
        rewrite waits_S. lia.
    + cbn [fst snd]. rewrite Hcalls.
      replace (Datatypes.S (calls w) - calls w)%nat with 1%nat by lia.
      replace (calls w + 1 - 1)%nat with (calls w) by lia.
      rewrite Hf, Hlog, Hstop, Hrun, Hclock, fragments_of_S, latencies_S.
      simpl. rewrite !app_nil_r.
      run_single.
  - (* the call succeeds *)
    rewrite (executeStream_success _ _ _ _ Hf). fold w1. cbn [fst snd].
    destruct (stream_complete_frame observer w1) as [-> ->].
    rewrite Hcalls.
    replace (Datatypes.S (calls w) - calls w)%nat with 1%nat by lia.
    replace (calls w + 1 - 1)%nat with (calls w) by lia.
    rewrite Hf, stream_complete_isStopped, stream_complete_emitted, Hlog,
      Hclock, fragments_of_S, latencies_S by (by rewrite Hstop).
    simpl. rewrite !app_nil_r, <- ?app_assoc.
    run_single.
Qed.

End RunFacts.

Section RequestRun.
Context {S : Type}.
Variable openai : OpenAI.
Variable observer : Observer S.
Variable cfg : CircuitBreakerConfig.
Variable history : list Message.t.

(** [streamCompletion] once the breaker has let the request through,
    closed, half open, or open past its timeout. *)
Lemma streamCompletion_gate cb cb1 w :
  CircuitBreakerService.gate cfg cb (AIService.clock w) = inr cb1 ->
  let w0 := {| AIService.clock := AIService.clock w;
               AIService.calls := AIService.calls w;
               AIService.stream := Subject.fresh;
               AIService.sink := AIService.sink w |} in
  let r := AIService.streamWithRetry openai observer
             (AIService.maxRetries AIService.config)
             (AIService.toOpenAI history) 1%nat w0 in
  AIService.streamCompletion openai observer cfg history cb w
  = match snd r with
    | Resolved _ => (CircuitBreakerService.onSuccess cfg cb1, fst r)
    | Rejected error =>
        (CircuitBreakerService.onFailure cfg cb1 (AIService.clock (fst r)),
         AIService.stream_error observer error (fst r))
    end.
Proof.
  intros Hgate w0 r. unfold AIService.streamCompletion,
    CircuitBreakerService.execute.
  fold w0. change (AIService.clock w0) with (AIService.clock w).
  rewrite Hgate. fold r. by destruct r as [w1 [v | e]].
Qed.

(** [streamCompletion] when the breaker turns the request away. *)
Lemma streamCompletion_turned_away cb exn w :
  CircuitBreakerService.gate cfg cb (AIService.clock w) = inl exn ->
  AIService.streamCompletion openai observer cfg history cb w
  = (cb,
     AIService.stream_error observer exn
       {| AIService.clock := AIService.clock w;
          AIService.calls := AIService.calls w;
          AIService.stream := Subject.fresh;
          AIService.sink := AIService.sink w |}).
Proof.
  intros Hgate. unfold AIService.streamCompletion,
    CircuitBreakerService.execute. simpl. by rewrite Hgate.
Qed.

(** One request never calls the upstream more than [maxRetries] = 3
    times, whatever the upstream does, and never moves the call count
    back. *)
Theorem streamCompletion_calls_bounded (cb : CircuitBreakerService.t)
    (w : AIService.World S) :
  let res := AIService.streamCompletion openai observer cfg history cb w in
  (AIService.calls w <= AIService.calls (snd res) <= AIService.calls w + 3)%nat.
Proof.
  intros res. subst res.
  destruct (CircuitBreakerService.gate cfg cb (AIService.clock w))
    as [exn | cb1] eqn:Hgate.
  - rewrite (streamCompletion_turned_away _ _ _ Hgate). cbn [snd].
    destruct (stream_error_frame observer exn
                {| AIService.clock := AIService.clock w;
                   AIService.calls := AIService.calls w;
                   AIService.stream := Subject.fresh;
                   AIService.sink := AIService.sink w |}) as [_ ->].
    simpl. lia.
  - rewrite (streamCompletion_gate _ _ _ Hgate).
    set (w0 := {| AIService.clock := _ |}).
    destruct (streamWithRetry_run openai observer (AIService.toOpenAI history)
                (AIService.maxRetries AIService.config) 1%nat w0 eq_refl
                ltac:(simpl; lia) ltac:(simpl; lia)) as (Hmade & _).
    change (AIService.maxRetries AIService.config) with 3%nat in *.
    change (AIService.calls w0) with (AIService.calls w) in Hmade.
    destruct (AIService.streamWithRetry _ _ _ _ _ _) as [w1 [v | e]];
      cbn [fst snd] in *; [lia |].
    destruct (stream_error_frame observer e w1) as [_ ->]. lia.
Qed.

(** The run of a request that the breaker lets through. *)
Lemma streamCompletion_let_through (cb cb1 : CircuitBreakerService.t)
    (w : AIService.World S) :
  CircuitBreakerService.gate cfg cb (AIService.clock w) = inr cb1 ->
  let res := AIService.streamCompletion openai observer cfg history cb w in
  let messages := AIService.toOpenAI history in
  let first := AIService.calls w in
  let made := (AIService.calls (snd res) - first)%nat in
  let log := Subject.emitted (AIService.stream (snd res)) in
  (1 <= made <= 3)%nat /\
  (forall i, (first <= i < first + made - 1)%nat ->
             is_Some (failure (openai i messages))) /\
  match failure (openai (first + made - 1)%nat messages) with
  | None =>
      log = map Next (fragments_of openai messages first made) ++ [Complete] /\
      fst res = CircuitBreakerService.onSuccess cfg cb1
  | Some e =>
      made = 3%nat /\
      log = map Next (fragments_of openai messages first made)
            ++ [Error (AIService.handleOpenAIError e)] /\
      fst res = CircuitBreakerService.onFailure cfg cb1
                  (AIService.clock (snd res))
  end.
Proof.
  intros Hgate res messages first made log. subst res made log.
  rewrite (streamCompletion_gate _ _ _ Hgate).
  set (w0 := {| AIService.clock := _ |}).
  destruct (streamWithRetry_run openai observer messages
              (AIService.maxRetries AIService.config) 1%nat w0 eq_refl
              ltac:(simpl; lia) ltac:(simpl; lia))
    as (Hmade & Hfailed & Hout & Hused & Hlog & Hstop & _).
  change (AIService.maxRetries AIService.config) with 3%nat in *.
  change (AIService.calls w0) with first in *.
  fold messages.
  set (r := AIService.streamWithRetry openai observer 3 messages 1%nat w0)
    in *.
  destruct (snd r) as [v | e1] eqn:Hsnd; cbn [fst snd].
  - split; [lia |]. split; [exact Hfailed |].
    destruct (failure (openai (first + (AIService.calls (fst r) - first) - 1)%nat
                         messages)); [discriminate |].
    by rewrite Hlog.
  - destruct (stream_error_frame observer e1 (fst r)) as [Hclock Hcalls].
    rewrite Hcalls, Hclock.
    split; [lia |]. split; [exact Hfailed |].
    destruct (failure (openai (first + (AIService.calls (fst r) - first) - 1)%nat
                         messages)) as [e |]; [| discriminate].
    injection Hout as ->.
    split; [apply Hused; eauto |]. split; [| done].
    unfold AIService.stream_error. rewrite Hstop. simpl.
    unfold Subject.error. rewrite Hstop. simpl.
    by rewrite Hlog, app_nil_r.
Qed.

(** A request that the breaker lets through makes between one and three
    calls, each one but the last a failure.  The caller receives the
    fragments of every call made, in order (those of failed attempts are
    not taken back), followed by [Complete] if the last call succeeded, and
    the breaker then records a success; or by the error of the last call if
    all three failed, and the breaker then records one failure. *)
Theorem streamCompletion_run (cb cb1 : CircuitBreakerService.t)
    (w : AIService.World S) :
  CircuitBreakerService.gate cfg cb (AIService.clock w) = inr cb1 ->
  let res := AIService.streamCompletion openai observer cfg history cb w in
  let messages := AIService.toOpenAI history in
  let first := AIService.calls w in
  let made := (AIService.calls (snd res) - first)%nat in
  let log := Subject.emitted (AIService.stream (snd res)) in
  (1 <= made <= 3)%nat /\
  (forall i, (first <= i < first + made - 1)%nat ->
             is_Some (failure (openai i messages))) /\
  match failure (openai (first + made - 1)%nat messages) with
  | None =>
      log = map Next (fragments_of openai messages first made) ++ [Complete] /\
      fst res = CircuitBreakerService.onSuccess cfg cb1
  | Some e =>
      made = 3%nat /\
      log = map Next (fragments_of openai messages first made)
            ++ [Error (AIService.handleOpenAIError e)] /\
      fst res = CircuitBreakerService.onFailure cfg cb1
                  (AIService.clock (snd res))
  end.
Proof. apply streamCompletion_let_through. Qed.

(** The time a request takes is the latency of the calls it makes plus the
    backoff between them: nothing after one call, one second after two,
    three seconds in all after three. *)
Theorem streamCompletion_elapsed (cb cb1 : CircuitBreakerService.t)
    (w : AIService.World S) :
  CircuitBreakerService.gate cfg cb (AIService.clock w) = inr cb1 ->
  let res := AIService.streamCompletion openai observer cfg history cb w in
  let made := (AIService.calls (snd res) - AIService.calls w)%nat in
  AIService.clock (snd res)
  = AIService.clock w
    + latencies openai (AIService.toOpenAI history) (AIService.calls w) made
    + match made with
      | 0%nat | 1%nat => 0
      | 2%nat => 1000
      | _ => 3000
      end.
Proof.
  intros Hgate res made. subst res made.
  rewrite (streamCompletion_gate _ _ _ Hgate).
  set (w0 := {| AIService.clock := _ |}).
  destruct (streamWithRetry_run openai observer (AIService.toOpenAI history)
              (AIService.maxRetries AIService.config) 1%nat w0 eq_refl
              ltac:(simpl; lia) ltac:(simpl; lia))
    as (Hmade & _ & _ & _ & _ & _ & Hclock).
  change (AIService.maxRetries AIService.config) with 3%nat in *.
  change (AIService.calls w0) with (AIService.calls w) in *.
  change (AIService.clock w0) with (AIService.clock w) in *.
  set (r := AIService.streamWithRetry openai observer 3
              (AIService.toOpenAI history) 1%nat w0) in *.
  assert (AIService.clock (snd match snd r with
                               | Resolved _ =>
                                   (CircuitBreakerService.onSuccess cfg cb1,
                                    fst r)
                               | Rejected error =>
                                   (CircuitBreakerService.onFailure cfg cb1
                                      (AIService.clock (fst r)),
                                    AIService.stream_error observer error
                                      (fst r))
                               end) = AIService.clock (fst r) /\
          AIService.calls (snd match snd r with
                               | Resolved _ =>
                                   (CircuitBreakerService.onSuccess cfg cb1,
                                    fst r)
                               | Rejected error =>
                                   (CircuitBreakerService.onFailure cfg cb1
                                      (AIService.clock (fst r)),
                                    AIService.stream_error observer error
                                      (fst r))
                               end) = AIService.calls (fst r)) as [-> ->].
  { destruct (snd r) as [v | e]; [done |]. apply stream_error_frame. }
  rewrite Hclock.
  destruct (AIService.calls (fst r) - AIService.calls w)%nat
    as [| [| [| [| n]]]]; try lia; reflexivity.
Qed.

End RequestRun.

(** ** Authentication failures *)

(** C4 (as the code has it).  A 401 from the stub is turned into an
    [AIAuthenticationException], and [streamWithRetry] retries it like any
    other error.  For a request that the breaker lets through (closed,
    half open, or open past its timeout) and whose first attempt fails
    with 401, a second call of the stub follows; when the second and the
    third attempt fail as well, the stub has been called three times and,
    the third failure being a 401, it is the exception of that third
    attempt, with its own message, that is delivered on the stream. *)
Theorem auth_failure_is_retried {S : Type} (openai : OpenAI)
    (observer : Observer S) (cfg : CircuitBreakerConfig)
    (history : list Message.t) (cb cb1 : CircuitBreakerService.t)
    (w : AIService.World S) (e : ApiError) (r : ApiResponse) :
  CircuitBreakerService.gate cfg cb (AIService.clock w) = inr cb1 ->
  failure (openai (AIService.calls w) (AIService.toOpenAI history)) = Some e ->
  response e = Some r ->
  status r = 401 ->
  let res := AIService.streamCompletion openai observer cfg history cb w in
  let messages := AIService.toOpenAI history in
  AIService.handleOpenAIError e
  = AIAuthenticationException
      (JS.or_else (data_error_message r) (message e)) /\
  (AIService.calls w + 2 <= AIService.calls (snd res))%nat /\
  forall (e2 e3 : ApiError) (r3 : ApiResponse),
    failure (openai (AIService.calls w + 1)%nat messages) = Some e2 ->
    failure (openai (AIService.calls w + 2)%nat messages) = Some e3 ->
    response e3 = Some r3 ->
    status r3 = 401 ->
    AIService.calls (snd res) = (AIService.calls w + 3)%nat /\
    last (Subject.emitted (AIService.stream (snd res)))
    = Some (Error (AIAuthenticationException
                     (JS.or_else (data_error_message r3) (message e3)))) /\
    fst res = CircuitBreakerService.onFailure cfg cb1
                (AIService.clock (snd res)).
Proof.
  intros Hgate Hf Hr H401 res messages. subst messages.
  assert (forall e' r', response e' = Some r' -> status r' = 401 ->
            AIService.handleOpenAIError e'
            = AIAuthenticationException
                (JS.or_else (data_error_message r') (message e'))) as Hmap.
  { intros e' r' Hr' Hs'. unfold AIService.handleOpenAIError.
    rewrite Hr', Hs'. reflexivity. }
  destruct (streamCompletion_let_through openai observer cfg history cb cb1 w
              Hgate) as (Hmade & Hfailed & Hlast).
  fold res in Hmade, Hfailed, Hlast.
  set (first := AIService.calls w) in *.
  set (made := (AIService.calls (snd res) - first)%nat) in *.
  assert (2 <= made)%nat as Htwo.
  { destruct (decide (made = 1%nat)) as [Hone | Hne]; [| lia].
    rewrite Hone in Hlast.
    replace (first + 1 - 1)%nat with first in Hlast by lia.
    rewrite Hf in Hlast. lia. }
  split; [by apply Hmap |]. split; [lia |].
  intros e2 e3 r3 Hf2 Hf3 Hr3 H3.
  assert (made = 3%nat) as Hthree.
  { destruct (decide (made = 2%nat)) as [Hm | Hne]; [| lia].
    rewrite Hm in Hlast.
    replace (first + 2 - 1)%nat with (first + 1)%nat in Hlast by lia.
    rewrite Hf2 in Hlast. lia. }
  rewrite Hthree in Hlast.
  replace (first + 3 - 1)%nat with (first + 2)%nat in Hlast by lia.
  rewrite Hf3 in Hlast. destruct Hlast as (_ & Hlog & Hcb).
  split; [lia |]. split; [| exact Hcb].
  by rewrite Hlog, last_snoc, (Hmap e3 r3).
Qed.

(** An instance: the circuit is open and its timeout has just run out, so
    the request is the probe; each attempt is refused with a message of
    its own, and the message delivered is that of the third. *)
Lemma auth_failure_is_retried_witness :
  let denied := fun text : string =>
    {| message := text;
       response := Some {| status := 401; data_error_message := None |} |} in
  let openai : OpenAI := fun n _ =>
    {| latency := 0; chunks := [];
       ending := Throws (denied (match n with
                                 | O => "first"
                                 | 1%nat => "second"
                                 | _ => "third"
                                 end)) |} in
  let cfg := CircuitBreakerService.defaultConfig in
  let cb :=
    {| CircuitBreakerService.state := OPEN;
       CircuitBreakerService.failureCount := 5;
       CircuitBreakerService.successCount := 0;
       CircuitBreakerService.lastFailureTime := Some 0 |} in
  let w := snd (boot 60000) in
  let res := AIService.streamCompletion openai silent cfg [hello] cb w in
  CircuitBreakerService.gate cfg cb (AIService.clock w)
  = inr (CircuitBreakerService.transitionToHalfOpen cb) /\
  failure (openai (AIService.calls w) (AIService.toOpenAI [hello]))
  = Some (denied "first") /\
  response (denied "first")
  = Some {| status := 401; data_error_message := None |} /\
  status {| status := 401; data_error_message := None |} = 401 /\
  AIService.calls (snd res) = 3%nat /\
  last (Subject.emitted (AIService.stream (snd res)))
  = Some (Error (AIAuthenticationException "third")) /\
  CircuitBreakerService.state (fst res) = OPEN.
Proof.
  intros denied openai cfg cb w res.
  do 4 (split; [reflexivity |]).
  destruct (auth_failure_is_retried openai silent cfg [hello] cb
              (CircuitBreakerService.transitionToHalfOpen cb) w
              (denied "first")
              {| status := 401; data_error_message := None |}
              eq_refl eq_refl eq_refl eq_refl)
    as (_ & _ & Hall).
  destruct (Hall (denied "second") (denied "third")
              {| status := 401; data_error_message := None |}
              eq_refl eq_refl eq_refl eq_refl) as (Hcalls & Hlast & Hcb).
  split; [exact Hcalls |]. split; [exact Hlast |].
  fold res in Hcb. rewrite Hcb. reflexivity.
Defined.

(** C4 as stated fails: a stub that always answers 401 is called three
    times by one request, with 1000 ms and 2000 ms of backoff in between;
    and when the second call succeeds the request completes and no
    authentication error reaches the caller at all. *)
Lemma auth_failure_is_not_fatal :
  let always401 :=
    AIService.streamCompletion (always (rejects 401)) silent
      CircuitBreakerService.defaultConfig [hello]
      CircuitBreakerService.initial (snd (boot 0)) in
  let recovers :=
    AIService.streamCompletion (first_then (rejects 401) (answers ["Hi"]))
      silent CircuitBreakerService.defaultConfig [hello]
      CircuitBreakerService.initial (snd (boot 0)) in
  AIService.calls (snd always401) = 3%nat /\
  AIService.clock (snd always401) = 3000 /\
  AIService.calls (snd recovers) = 2%nat /\
  Subject.emitted (AIService.stream (snd recovers)) = [Next "Hi"; Complete] /\
  CircuitBreakerService.failureCount (fst recovers) = 0.
Proof. repeat split; reflexivity. Qed.

(** [generateCompletion] makes a single call per request that the breaker
    lets through and never retries: a failure is counted once by the
    breaker and reaches the caller as the upstream's own error, without
    the mapping to AI exceptions that streaming applies; a completion
    without text is answered with the empty string. *)
Theorem generateCompletion_single_call (cfg : CircuitBreakerConfig)
    (client : CompletionClient) (history : list Message.t)
    (cb cb1 : CircuitBreakerService.t) (w : Upstream) :
  CircuitBreakerService.gate cfg cb (at_time w) = inr cb1 ->
  let attempt := client (received w) (AIService.toOpenAI history) in
  let '(cb', w', outcome) := generateCompletion cfg client history cb w in
  received w' = Datatypes.S (received w) /\
  at_time w' = at_time w + completion_latency attempt /\
  match completion_result attempt with
  | inl error =>
      outcome = Rejected (RawError error) /\
      cb' = CircuitBreakerService.onFailure cfg cb1 (at_time w')
  | inr content =>
      outcome = Resolved (default EmptyString content) /\
      cb' = CircuitBreakerService.onSuccess cfg cb1
  end.
Proof.
  intros Hgate. unfold generateCompletion, CircuitBreakerService.execute,
    createCompletion.
  rewrite Hgate.
  destruct (completion_result _) as [error | [[| a text] |]]; simpl; done.
Qed.

(* ===================================================================== *)
(** * Further properties of the context window                            *)
(* ===================================================================== *)

Section ContextWindowRecency.
Variable maxContextTokens : Z.

(** The loop keeps a run of the most recent messages that are not System
    messages and stops at the first one that does not fit. *)
Lemma backwards_most_recent pending total fitted :
  exists kept dropped,
    AIService.backwards maxContextTokens pending total fitted
    = (total + totalTokens kept, kept ++ fitted) /\
    others pending = rev kept ++ dropped /\
    match dropped with
    | [] => True
    | m :: _ =>
        maxContextTokens
        < total + totalTokens kept
          + AIService.estimateTokens (Message.content m)
    end.
Proof.
  revert total fitted.
  induction pending as [| message older IH]; intros total fitted; simpl.
  - exists [], []. split; [f_equal; unfold totalTokens; simpl; lia | done].
  - unfold others. simpl. fold (others older).
    destruct (Message.isSystem message) eqn:Hsys; simpl.
    + apply IH.
    + destruct (Z.ltb_spec maxContextTokens
                  (total + AIService.estimateTokens
                             (Message.content message))) as [Hover | Hok].
      * exists [], (message :: others older). simpl.
        split; [f_equal; unfold totalTokens; simpl; lia |].
        split; [done |]. unfold totalTokens. simpl. lia.
      * destruct (IH (total + AIService.estimateTokens
                                (Message.content message))
                    (message :: fitted))
          as (kept & dropped & Heq & Hsplit & Hmax).
        exists (kept ++ [message]), dropped.
        assert (totalTokens (kept ++ [message])
                = totalTokens kept
                  + AIService.estimateTokens (Message.content message))
          as Htot.
        { rewrite totalTokens_app. unfold totalTokens. simpl. lia. }
        rewrite Heq, Htot, <- app_assoc, rev_app_distr, Hsplit. simpl.
        split; [f_equal; lia |]. split; [done |].
        destruct dropped; [done | lia].
Qed.

Lemma others_rev messages : others (rev messages) = rev (others messages).
Proof.
  unfold others. induction messages as [| m l IH]; simpl; [done |].
  rewrite List.filter_app, IH. simpl.
  destruct (negb (Message.isSystem m)); simpl; [done |].
  by rewrite app_nil_r.
Qed.

Lemma fitToContextWindow_most_recent (messages : list Message.t) :
  exists dropped kept,
    others messages = dropped ++ kept /\
    AIService.fitToContextWindow maxContextTokens messages
    = kept ++ option_list (List.find Message.isSystem messages) /\
    forall m, last dropped = Some m ->
      maxContextTokens
      < systemCost messages + totalTokens kept
        + AIService.estimateTokens (Message.content m).
Proof.
  unfold AIService.fitToContextWindow, systemCost.
  set (sys := List.find Message.isSystem messages).
  set (start := match sys with
                | Some m => (AIService.estimateTokens (Message.content m), [m])
                | None => (0, [])
                end).
  assert (start = (match sys with
                   | Some m => AIService.estimateTokens (Message.content m)
                   | None => 0
                   end, option_list sys)) as Hstart
    by (subst start; by destruct sys).
  destruct (backwards_most_recent (rev messages) (fst start) (snd start))
    as (kept & dropped & Heq & Hsplit & Hmax).
  exists (rev dropped), kept.
  rewrite others_rev in Hsplit.
  apply (f_equal (@rev Message.t)) in Hsplit.
  rewrite rev_involutive, rev_app_distr, rev_involutive in Hsplit.
  split; [exact Hsplit |].
  destruct start as [total fitted]. injection Hstart as -> ->.
  cbn [fst snd] in *. rewrite Heq. split; [done |].
  intros m Hlast.
  destruct dropped as [| d dropped]; [discriminate |].
  simpl in Hlast. rewrite last_snoc in Hlast. by injection Hlast as <-.
Qed.

Lemma totalTokens_last (l : list Message.t) (m : Message.t) :
  last l = Some m ->
  AIService.estimateTokens (Message.content m) <= totalTokens l.
Proof.
  intros Hlast. apply last_Some in Hlast as [l' ->].
  rewrite totalTokens_app. pose proof (totalTokens_nonneg l').
  unfold totalTokens at 2. simpl. lia.
Qed.

(** When the whole conversation fits, nothing is dropped: the result is
    every message that is not a System message, in order, followed by the
    first System message if there is one. *)
Theorem fitToContextWindow_all_fit (messages : list Message.t) :
  systemCost messages + totalTokens (others messages) <= maxContextTokens ->
  AIService.fitToContextWindow maxContextTokens messages
  = others messages ++ option_list (List.find Message.isSystem messages).
Proof.
  intros Hfit.
  destruct (fitToContextWindow_most_recent messages)
    as (dropped & kept & Hsplit & Heq & Hmax).
  destruct (last dropped) as [m |] eqn:Hlast.
  - specialize (Hmax m eq_refl).
    pose proof (totalTokens_last _ _ Hlast) as Hm.
    rewrite Hsplit, totalTokens_app in Hfit. lia.
  - apply last_None in Hlast. subst dropped. by rewrite Heq, Hsplit.
Qed.

(** [fitToContextWindow] keeps the most recent of the messages that are not
    System messages, in their order, without a gap: what it drops is a
    beginning of the conversation, and the last message dropped is one
    that would have taken the total over the budget. *)
Theorem fitToContextWindow_keeps_most_recent (messages : list Message.t) :
  exists dropped kept,
    others messages = dropped ++ kept /\
    AIService.fitToContextWindow maxContextTokens messages
    = kept ++ option_list (List.find Message.isSystem messages) /\
    forall m, last dropped = Some m ->
      maxContextTokens
      < systemCost messages + totalTokens kept
        + AIService.estimateTokens (Message.content m).
Proof. apply fitToContextWindow_most_recent. Qed.

End ContextWindowRecency.

Lemma streamCompletion_run_witness :
  let openai := first_then (falters ["Hel"] 503) (answers ["Hello"; "!"]) in
  let cfg := CircuitBreakerService.defaultConfig in
  let cb := CircuitBreakerService.initial in
  let w := snd (boot 0) in
  let res := AIService.streamCompletion openai silent cfg [hello] cb w in
  CircuitBreakerService.gate cfg cb (AIService.clock w) = inr cb /\
  AIService.calls (snd res) = 2%nat /\
  Subject.emitted (AIService.stream (snd res))
  = [Next "Hel"; Next "Hello"; Next "!"; Complete] /\
  fst res = CircuitBreakerService.onSuccess cfg cb.
Proof.
  intros openai cfg cb w res.
  pose proof (streamCompletion_run openai silent cfg [hello] cb cb w eq_refl)
    as (_ & _ & Hlast).
  split; [reflexivity |]. split; [reflexivity |].
  exact Hlast.
Defined.

Lemma streamCompletion_elapsed_witness :
  let openai := first_then (falters ["Hel"] 503) (answers ["Hello"; "!"]) in
  let cfg := CircuitBreakerService.defaultConfig in
  let cb := CircuitBreakerService.initial in
  let w := snd (boot 0) in
  let res := AIService.streamCompletion openai silent cfg [hello] cb w in
  CircuitBreakerService.gate cfg cb (AIService.clock w) = inr cb /\
  AIService.clock (snd res) = 0 + (250 + (0 + 0)) + 1000.
Proof.
  intros openai cfg cb w res. split; [reflexivity |].
  exact (streamCompletion_elapsed openai silent cfg [hello] cb cb w eq_refl).
Defined.

Lemma generateCompletion_single_call_witness :
  let client : CompletionClient :=
    fun _ _ => {| completion_latency := 40;
                  completion_result := inl (http_error 401) |} in
  let cfg := CircuitBreakerService.defaultConfig in
  let cb := CircuitBreakerService.initial in
  let w := {| at_time := 0; received := O |} in
  CircuitBreakerService.gate cfg cb (at_time w) = inr cb /\
  let '(cb', w', outcome) := generateCompletion cfg client [hello] cb w in
  received w' = 1%nat /\
  at_time w' = 0 + 40 /\
  outcome = Rejected (RawError (http_error 401)) /\
  cb' = CircuitBreakerService.onFailure cfg cb (at_time w').
Proof.
  intros client cfg cb w. split; [reflexivity |].
  exact (generateCompletion_single_call cfg client [hello] cb cb w eq_refl).
Defined.

Lemma fitToContextWindow_all_fit_witness :
  let messages := [hello; persona "Be brief"; hello; persona "Be late"] in
  systemCost messages + totalTokens (others messages) <= 6 /\
  AIService.fitToContextWindow 6 messages
  = others messages ++ option_list (List.find Message.isSystem messages).
Proof.
  intros messages. split; [vm_compute; discriminate |].
  apply (fitToContextWindow_all_fit 6 messages). vm_compute. discriminate.
Defined.

(* ===================================================================== *)
(** * Further properties of the chat service                              *)
(* ===================================================================== *)

Lemma append_assoc (s1 s2 s3 : string) :
  (s1 +:+ s2) +:+ s3 = s1 +:+ (s2 +:+ s3).
Proof.
  induction s1 as [| a s1 IH]; [reflexivity |].
  change (String a ((s1 +:+ s2) +:+ s3) = String a (s1 +:+ (s2 +:+ s3))).
  by rewrite IH.
Qed.

Lemma append_nil_r (s : string) : s +:+ EmptyString = s.
Proof.
  induction s as [| a s IH]; [reflexivity |].
  change (String a (s +:+ EmptyString) = String a s). by rewrite IH.
Qed.

Lemma transcript_app (l1 l2 : list Notification) :
  transcript (l1 ++ l2) = transcript l1 +:+ transcript l2.
Proof.
  induction l1 as [| [chunk | e |] l1 IH]; simpl; try done.
  by rewrite IH, append_assoc.
Qed.

Lemma transcript_fragments (fragments : list string) (t : Notification) :
  terminal t = true ->
  transcript (map Next fragments ++ [t]) = join fragments.
Proof.
  intros Ht. induction fragments as [| chunk rest IH]; simpl.
  - by destruct t.
  - by rewrite IH.
Qed.

(** ** How a stream that completes comes to its end *)

Section Settled.
Import AIService.
Context {S : Type}.
Variable openai : OpenAI.
Variable observer : Observer S.
Variable P : Subject.t -> S -> Prop.
Hypothesis HP : preserved observer P.

(** A run of [streamWithRetry] that resolves ends with [stream.complete()]
    on a stream that was still running; one that rejects leaves the stream
    running. *)
Lemma streamWithRetry_settled fuel messages attempt w :
  Subject.isStopped (stream w) = false ->
  holds P w ->
  let r := streamWithRetry openai observer fuel messages attempt w in
  match snd r with
  | Resolved _ =>
      exists w', Subject.isStopped (stream w') = false /\ holds P w' /\
                 fst r = stream_complete observer w'
  | Rejected _ =>
      Subject.isStopped (stream (fst r)) = false /\ holds P (fst r)
  end.
Proof.
  revert attempt w. induction fuel as [| fuel IH]; intros attempt w Hrun Hw;
    [rewrite streamWithRetry_O | rewrite streamWithRetry_S];
    pose proof (forAwait_preserved observer P HP
                  (chunks (openai (calls w) messages))
                  (entered openai messages w) Hw) as Hw1;
    pose proof (forAwait_isStopped observer
                  (chunks (openai (calls w) messages))
                  (entered openai messages w)) as Hstop;
    cbn [entered stream] in Hstop; rewrite Hrun in Hstop;
    destruct (failure (openai (calls w) messages)) as [e |] eqn:Hf.
  - by rewrite (executeStream_failure _ _ _ _ _ Hf).
  - rewrite (executeStream_success _ _ _ _ Hf). cbn [fst snd]. eauto.
  - rewrite (executeStream_failure _ _ _ _ _ Hf).
    destruct (attempt <? maxRetries config)%nat; [| done].
    by apply IH.
  - rewrite (executeStream_success _ _ _ _ Hf). cbn [fst snd]. eauto.
Qed.

(** A request ends either in an error, or with [stream.complete()] on a
    stream that was running until then. *)
Lemma streamCompletion_settled cfg (history : list Message.t) cb w :
  P Subject.fresh (sink w) ->
  let res := streamCompletion openai observer cfg history cb w in
  (exists e, last (Subject.emitted (stream (snd res))) = Some (Error e)) \/
  (exists w', Subject.isStopped (stream w') = false /\ holds P w' /\
              snd res = stream_complete observer w').
Proof.
  intros Hfresh res. subst res.
  set (w0 := {| clock := clock w; calls := calls w;
                stream := Subject.fresh; sink := sink w |}).
  destruct (CircuitBreakerService.gate cfg cb (clock w))
    as [exn | cb1] eqn:Hgate.
  - rewrite (streamCompletion_turned_away _ _ _ _ _ _ _ Hgate). cbn [snd].
    left. exists exn. by apply stream_error_last.
  - rewrite (streamCompletion_gate _ _ _ _ _ _ _ Hgate). fold w0.
    pose proof (streamWithRetry_settled (maxRetries config)
                  (toOpenAI history) 1%nat w0 eq_refl Hfresh) as Hs.
    destruct (streamWithRetry openai observer (maxRetries config)
                (toOpenAI history) 1%nat w0) as [w1 [v | e]];
      cbn [fst snd] in *.
    + by right.
    + left. exists e. destruct Hs as [Hrun _]. by apply stream_error_last.
Qed.

End Settled.

Section ExchangeFacts.
Variable breakerConfig : CircuitBreakerConfig.
Variable openai : OpenAI.
Variable randomUUID : nat -> string.

Lemma running_preserved sid aid st0 :
  preserved (ChatService.subscriber randomUUID sid aid) (running st0).
Proof.
  split.
  - intros chunk t sub s _ Hrun Hs _.
    destruct (Hs Hrun) as (Hst & Hbuf & Hout). simpl.
    rewrite Hst, Hbuf, Hout. unfold Subject.next. rewrite Hrun. simpl.
    split; [done |]. split; [| done].
    rewrite transcript_app. cbn [transcript]. by rewrite append_nil_r.
  - intros e t sub s Hrun _. unfold running, Subject.error.
    rewrite Hrun. simpl. discriminate.
  - intros t sub s Hrun _. unfold running, Subject.complete.
    rewrite Hrun. simpl. discriminate.
Qed.

Lemma mirror_preserved sid aid :
  preserved (ChatService.subscriber randomUUID sid aid)
    (fun sub s => ChatService.out s = mirror sub).
Proof.
  split.
  - intros chunk t sub s _ Hrun Hs. simpl. rewrite Hs.
    unfold mirror, Subject.next. simpl. rewrite Hrun. simpl.
    by rewrite map_app.
  - intros e t sub s Hrun Hs. simpl. rewrite Hs.
    unfold mirror, Subject.error. simpl. rewrite Hrun. simpl.
    by rewrite map_app.
  - intros t sub s Hrun Hs. simpl.
    destruct (ChatService.createMessage _ _ _ _ _ _ _) as [answer st].
    simpl. rewrite Hs.
    unfold mirror, Subject.complete. simpl. rewrite Hrun. simpl.
    by rewrite map_app.
Qed.

Lemma createMessage_id role content sid id now st :
  Message.id
    (fst (ChatService.createMessage randomUUID role content sid id now st))
  = match id with
    | Some i =>
        if JS.truthy_string i then i else randomUUID (ChatService.uuids st)
    | None => randomUUID (ChatService.uuids st)
    end.
Proof.
  unfold ChatService.createMessage, ChatService.draw.
  destruct id as [i |]; [destruct (JS.truthy_string i) |]; done.
Qed.

Lemma processMessage_forwards_aux (messageContent : string)
    (sessionId : option string) (srv : Server) :
  let '(_, out, ai, _) :=
    processMessage breakerConfig openai randomUUID messageContent
      sessionId srv in
  out = mirror ai.
Proof.
  unfold processMessage.
  set (sub := submit randomUUID messageContent sessionId (now srv) (chat srv)).
  set (w := {| AIService.clock := now srv |}).
  pose proof (streamCompletion_preserved openai
                (ChatService.subscriber randomUUID (actualSessionId sub)
                   (assistantMessageId sub))
                (fun sub s => ChatService.out s = mirror sub)
                (mirror_preserved _ _)
                breakerConfig (context sub) (breaker srv) w eq_refl) as Hs.
  by destruct (AIService.streamCompletion _ _ _ _ _ _) as [cb w'].
Qed.

Lemma processMessage_completed_aux (messageContent : string)
    (sessionId : option string) (srv : Server)
    (pm : ChatService.ProcessedMessage) (out ai : Subject.t) (srv' : Server) :
  processMessage breakerConfig openai randomUUID messageContent sessionId srv
  = (pm, out, ai, srv') ->
  last (Subject.emitted ai) = Some Complete ->
  let before := sessionBefore randomUUID sessionId srv in
  exists user answer,
    Message.role user = USER /\
    Message.content user = messageContent /\
    Message.role answer = ASSISTANT /\
    Message.content answer = transcript (Subject.emitted ai) /\
    Message.timestamp answer = now srv' /\
    Message.sessionId answer = Some (ChatService.sessionId pm) /\
    (ChatService.messageId pm <> EmptyString ->
     Message.id answer = ChatService.messageId pm) /\
    ChatService.sessions (chat srv')
    = <[ChatService.sessionId pm :=
          {| ChatSession.id := ChatSession.id before;
             ChatSession.messages :=
               ChatSession.messages before ++ [user; answer];
             ChatSession.createdAt := ChatSession.createdAt before;
             ChatSession.updatedAt := now srv' |}]>
        (ChatService.sessions (chat srv)) /\
    out = ai.
Proof.
  intros Hrun Hlast before. unfold processMessage in Hrun.
  destruct (submit_spec randomUUID messageContent sessionId srv)
    as (_ & Hrole & Hcontent & Hsess).
  fold before in Hsess.
  set (sub := submit randomUUID messageContent sessionId (now srv)
                (chat srv)) in *.
  set (w := {| AIService.clock := now srv |}) in Hrun.
  pose proof (streamCompletion_settled openai
                (ChatService.subscriber randomUUID (actualSessionId sub)
                   (assistantMessageId sub))
                (running (submitted sub)) (running_preserved _ _ _)
                breakerConfig (context sub) (breaker srv) w
                ltac:(by intros _)) as Hend.
  destruct (AIService.streamCompletion _ _ _ _ _ _) as [cb wf].
  cbn [fst snd] in Hend. injection Hrun as <- <- <- <-.
  destruct Hend as [[e He] | (w' & Hrun' & Hhold & ->)]; [congruence |].
  destruct (Hhold Hrun') as (Hst & Hbuf & Hout).
  exists (userMessage sub).
  unfold AIService.stream_complete. rewrite Hrun'.
  cbn [AIService.sink AIService.stream AIService.clock on_complete
       ChatService.subscriber ChatService.messageId ChatService.sessionId
       now chat].
  pose proof (createMessage_spec randomUUID ASSISTANT
                (ChatService.assistantContent (AIService.sink w'))
                (actualSessionId sub) (Some (assistantMessageId sub))
                (AIService.clock w')
                (ChatService.service (AIService.sink w')))
    as (Harole & Hacontent & Hatime & Hasid & Hasess).
  pose proof (createMessage_id ASSISTANT
                (ChatService.assistantContent (AIService.sink w'))
                (actualSessionId sub) (Some (assistantMessageId sub))
                (AIService.clock w')
                (ChatService.service (AIService.sink w'))) as Haid.
  destruct (ChatService.createMessage randomUUID ASSISTANT _ _ _ _ _)
    as [answer st]. cbn [fst snd] in *.
  exists answer. cbn [ChatService.service ChatService.out].
  split; [done |]. split; [done |]. split; [done |].
  split.
  { unfold Subject.complete. rewrite Hrun'. simpl.
    rewrite Hacontent, Hbuf, transcript_app. cbn [transcript].
    by rewrite append_nil_r. }
  split; [done |]. split; [done |]. split.
  { intros Hne. rewrite Haid.
    by destruct (assistantMessageId sub). }
  split; [| by rewrite Hout].
  unfold ChatService.modify. cbn [ChatService.sessions].
  rewrite Hasess, Hst, Hsess, alter_insert_eq. f_equal.
  unfold ChatService.touch, ChatService.push. simpl.
  by rewrite <- app_assoc.
Qed.

(** The stream handed to the caller of [processMessage] is the AI stream
    with its error wrapped: the same fragments in the same order, ended by
    [Complete] where the AI stream completed and by a
    [MessageProcessingException] around the AI stream's error where it
    failed. *)
Theorem processMessage_forwards (messageContent : string)
    (sessionId : option string) (srv : Server) :
  let '(_, out, ai, _) :=
    processMessage breakerConfig openai randomUUID messageContent
      sessionId srv in
  out = mirror ai.
Proof. apply processMessage_forwards_aux. Qed.

(** When the AI stream of a [processMessage] call completes, the session
    holds what it held before, then the user message, then one assistant
    message whose text is the text of all the fragments delivered, in
    order; that message has the identifier announced to the caller, its
    time and the session's [updatedAt] are the time of completion, and the
    caller has received exactly the notifications of the AI stream. *)
Theorem processMessage_completed (messageContent : string)
    (sessionId : option string) (srv : Server)
    (pm : ChatService.ProcessedMessage) (out ai : Subject.t) (srv' : Server) :
  processMessage breakerConfig openai randomUUID messageContent sessionId srv
  = (pm, out, ai, srv') ->
  last (Subject.emitted ai) = Some Complete ->
  let before := sessionBefore randomUUID sessionId srv in
  exists user answer,
    Message.role user = USER /\
    Message.content user = messageContent /\
    Message.role answer = ASSISTANT /\
    Message.content answer = transcript (Subject.emitted ai) /\
    Message.timestamp answer = now srv' /\
    Message.sessionId answer = Some (ChatService.sessionId pm) /\
    (ChatService.messageId pm <> EmptyString ->
     Message.id answer = ChatService.messageId pm) /\
    ChatService.sessions (chat srv')
    = <[ChatService.sessionId pm :=
          {| ChatSession.id := ChatSession.id before;
             ChatSession.messages :=
               ChatSession.messages before ++ [user; answer];
             ChatSession.createdAt := ChatSession.createdAt before;
             ChatSession.updatedAt := now srv' |}]>
        (ChatService.sessions (chat srv)) /\
    out = ai.
Proof. apply processMessage_completed_aux. Qed.

End ExchangeFacts.

Section SurfaceFacts.
Variable breakerConfig : CircuitBreakerConfig.
Variable openai : OpenAI.
Variable randomUUID : nat -> string.

Lemma processMessage_out messageContent sessionId srv pm out ai srv' :
  processMessage breakerConfig openai randomUUID messageContent sessionId srv
  = (pm, out, ai, srv') ->
  out = mirror ai.
Proof.
  intros Hrun.
  pose proof (processMessage_forwards_aux breakerConfig openai randomUUID
                messageContent sessionId srv) as H.
  by rewrite Hrun in H.
Qed.

Lemma processMessage_ai_shape messageContent sessionId srv pm out ai srv' :
  processMessage breakerConfig openai randomUUID messageContent sessionId srv
  = (pm, out, ai, srv') ->
  exists fragments t,
    Forall (fun chunk => chunk <> EmptyString) fragments /\
    terminal t = true /\
    Subject.emitted ai = map Next fragments ++ [t].
Proof.
  unfold processMessage.
  set (sub := submit randomUUID messageContent sessionId (now srv) (chat srv)).
  set (w := {| AIService.clock := now srv |}).
  pose proof (streamCompletion_shape openai
                (ChatService.subscriber randomUUID (actualSessionId sub)
                   (assistantMessageId sub))
                breakerConfig (context sub) (breaker srv) w) as Hshape.
  destruct (AIService.streamCompletion _ _ _ _ _ _) as [cb w'].
  by intros [= <- <- <- <-].
Qed.

Lemma map_wrap_fragments fragments :
  map wrap (map Next fragments) = map Next fragments.
Proof. induction fragments; simpl; congruence. Qed.

(** ** The gateway *)

(** The events that [handleMessage] sends for one message: one
    ['message-chunk'] with [isComplete: false] per fragment, none of them
    with an empty chunk, all under the identifier of the answer, followed
    by exactly one closing event: the empty chunk with [isComplete: true]
    when the answer completed, an ['error'] event when it failed.  The
    [details] of that event are the message of the
    [MessageProcessingException], a fixed text: what went wrong upstream
    is not passed on to the client. *)
Theorem handleMessage_events (data : SendMessageDto) (srv : Server) :
  let '(pm, _, ai, _) :=
    processMessage breakerConfig openai randomUUID
      (dto_message data) (dto_sessionId data) srv in
  let events :=
    fst (ChatGateway.handleMessage breakerConfig openai randomUUID data srv) in
  let id := ChatService.messageId pm in
  exists fragments,
    Forall (fun chunk => chunk <> EmptyString) fragments /\
    ((Subject.emitted ai = map Next fragments ++ [Complete] /\
      events = map (fun chunk => message_chunk id chunk false) fragments
               ++ [message_chunk id EmptyString true]) \/
     (exists e,
        Subject.emitted ai = map Next fragments ++ [Error e] /\
        events = map (fun chunk => message_chunk id chunk false) fragments
                 ++ [error_event "Failed to generate response"
                       "Failed to generate AI response"])).
Proof.
  unfold ChatGateway.handleMessage.
  destruct (processMessage breakerConfig openai randomUUID
              (dto_message data) (dto_sessionId data) srv)
    as [[[pm out] ai] srv'] eqn:Hrun.
  cbn [fst].
  destruct (processMessage_ai_shape _ _ _ _ _ _ _ Hrun)
    as (fragments & t & Hall & Ht & Hlog).
  rewrite (processMessage_out _ _ _ _ _ _ _ Hrun). unfold mirror. simpl.
  rewrite Hlog, !map_app, map_wrap_fragments, map_map. simpl.
  exists fragments. split; [done |].
  destruct t as [chunk | e |]; [discriminate | right; eauto | by left].
Qed.

(** ** The HTTP route *)

Lemma collect_fragments fragments rest chunks :
  collect (map Next fragments ++ rest) chunks
  = collect rest (chunks ++ fragments).
Proof.
  revert chunks. induction fragments as [| chunk fragments IH];
    intros chunks; simpl.
  - by rewrite app_nil_r.
  - by rewrite IH, <- app_assoc.
Qed.

(** [POST sessions/:id/messages] always answers.  When the answer
    completed, the content returned is the text of the assistant message
    that was stored last in the session, under the same identifier; when
    it failed, the request is rejected with the
    [MessageProcessingException] and the session ends with the user
    message. *)
Theorem sendMessage_answers (id : string) (dto : SendMessageDto)
    (srv : Server) :
  let '(pm, _, ai, _) :=
    processMessage breakerConfig openai randomUUID
      (dto_message dto) (Some id) srv in
  let '(answer, srv') :=
    sendMessage breakerConfig openai randomUUID id dto srv in
  exists session stored,
    ChatService.sessions (chat srv') !! ChatService.sessionId pm
    = Some session /\
    last (ChatSession.messages session) = Some stored /\
    match answer with
    | Some (Resolved response) =>
        Message.role stored = ASSISTANT /\
        Message.content stored = response_content response /\
        (response_id response <> EmptyString ->
         Message.id stored = response_id response) /\
        response_sessionId response = id
    | Some (Rejected e) =>
        Message.role stored = USER /\
        Message.content stored = dto_message dto /\
        exists cause,
          e = MessageProcessingException "Failed to generate AI response"
                cause
    | None => False
    end.
Proof.
  unfold sendMessage.
  destruct (processMessage breakerConfig openai randomUUID
              (dto_message dto) (Some id) srv)
    as [[[pm out] ai] srv'] eqn:Hrun.
  destruct (processMessage_ai_shape _ _ _ _ _ _ _ Hrun)
    as (fragments & t & Hall & Ht & Hlog).
  rewrite (processMessage_out _ _ _ _ _ _ _ Hrun). unfold mirror. simpl.
  rewrite Hlog, map_app, map_wrap_fragments, collect_fragments. simpl.
  destruct t as [chunk | e |]; [discriminate | |]; simpl.
  - destruct (processMessage_session _ _ _ _ _ _ _ _ _ _ Hrun)
      as (user & rest & t & Hrole & Hcontent & Hsess & Hend).
    destruct Hend as [(-> & _ & _) | (answer & _ & _ & Hcomplete)].
    + eexists _, user. rewrite Hsess, lookup_insert_eq.
      split; [reflexivity |]. simpl. rewrite last_snoc.
      split; [done |]. eauto.
    + rewrite Hlog, last_snoc in Hcomplete. discriminate.
  - destruct (processMessage_completed_aux _ _ _ _ _ _ _ _ _ _ Hrun)
      as (user & answer & _ & _ & Harole & Hacontent & Hatime & _ & Haid
          & Hsess & _).
    { by rewrite Hlog, last_snoc. }
    eexists _, answer. rewrite Hsess, lookup_insert_eq.
    split; [reflexivity |]. simpl.
    change (ChatSession.messages (sessionBefore randomUUID (Some id) srv)
            ++ [user; answer])
      with (ChatSession.messages (sessionBefore randomUUID (Some id) srv)
            ++ [user] ++ [answer]).
    rewrite app_assoc, last_snoc. split; [done |].
    split; [done |]. split.
    { rewrite Hacontent, Hlog. by apply transcript_fragments. }
    by repeat split.
Qed.

(** ** The context sent upstream *)



(** ** Sessions *)

(** A call of [processMessage] adds one session when the session it
    answers for did not exist, and none otherwise. *)
Theorem processMessage_session_count (messageContent : string)
    (sessionId : option string) (srv : Server) :
  let '(pm, _, _, srv') :=
    processMessage breakerConfig openai randomUUID messageContent
      sessionId srv in
  getActiveSessionsCount (chat srv')
  = match getSession (ChatService.sessionId pm) (chat srv) with
    | Some _ => getActiveSessionsCount (chat srv)
    | None => Datatypes.S (getActiveSessionsCount (chat srv))
    end.
Proof.
  destruct (processMessage breakerConfig openai randomUUID messageContent
              sessionId srv) as [[[pm out] ai] srv'] eqn:Hrun.
  destruct (processMessage_session _ _ _ _ _ _ _ _ _ _ Hrun)
    as (user & rest & t & _ & _ & Hsess & _).
  unfold getActiveSessionsCount, getSession.
  rewrite Hsess, map_size_insert.
  by destruct (ChatService.sessions (chat srv) !! ChatService.sessionId pm).
Qed.

(** Deleting the session of a request right after it: the delete answers
    [true], the session map is the one before the request without that
    session (whatever the request stored is gone, and so is an earlier
    session of that id), the session is then reported as not found, and a
    second delete answers [false]. *)
Theorem deleteSession_after_processMessage (messageContent sid : string)
    (srv : Server) :
  sid <> EmptyString ->
  let '(_, _, _, srv') :=
    processMessage breakerConfig openai randomUUID messageContent
      (Some sid) srv in
  let '(deleted, st) := deleteSession sid (chat srv') in
  deleted = true /\
  ChatService.sessions st = delete sid (ChatService.sessions (chat srv)) /\
  getSessionOrFail sid st = inl (SessionNotFoundException sid) /\
  fst (deleteSession sid st) = false.
Proof.
  intros Hne.
  destruct (processMessage breakerConfig openai randomUUID messageContent
              (Some sid) srv) as [[[pm out] ai] srv'] eqn:Hrun.
  destruct (processMessage_settles _ _ _ _ _ _ _ _ _ _ Hrun) as (Hsid & _).
  destruct (submit_spec randomUUID messageContent (Some sid) srv)
    as (Hactual & _).
  rewrite (resolveSession_supplied randomUUID sid _ _ Hne) in Hactual.
  simpl in Hactual. rewrite Hactual in Hsid.
  destruct (processMessage_session _ _ _ _ _ _ _ _ _ _ Hrun)
    as (user & rest & t & _ & _ & Hsess & _).
  rewrite Hsid in Hsess.
  unfold deleteSession, getSessionOrFail.
  rewrite Hsess, lookup_insert_eq. simpl.
  rewrite delete_insert_eq, !lookup_delete_eq. done.
Qed.

End SurfaceFacts.

(** ** The idle sweep *)

Section SweepFacts.
Variable maxAge now : Z.

Abbreviation old :=
  (fun entry : string * ChatSession.t => Is_true (expired maxAge now (snd entry))).

(** The loop of [clearOldSessions] over the entries [m], on a count [n]
    and a map [M]: it counts the expired entries of [m] and deletes their
    keys from [M]. *)
Lemma sweep_fold (m M : gmap string ChatSession.t) (n : nat) :
  let r := map_fold (sweep maxAge now) (n, M) m in
  fst r = (n + size (filter old m))%nat /\
  forall id,
    snd r !! id
    = match m !! id with
      | Some session =>
          if expired maxAge now session then None else M !! id
      | None => M !! id
      end.
Proof.
  apply (map_fold_weak_ind
           (fun r m =>
              fst r = (n + size (filter old m))%nat /\
              forall id,
                snd r !! id
                = match m !! id with
                  | Some session =>
                      if expired maxAge now session then None else M !! id
                  | None => M !! id
                  end)).
  - split.
    + by rewrite map_filter_empty, map_size_empty, Nat.add_0_r.
    + intros id. by rewrite lookup_empty.
  - intros i x m' r Hfresh [Hcount Hlookup]. unfold sweep.
    destruct (expired maxAge now x) eqn:Hx; cbn [fst snd].
    + split.
      * rewrite map_filter_insert_True by (simpl; by rewrite Hx).
        rewrite map_size_insert_None, Hcount; [lia |].
        apply map_lookup_filter_None_2. by left.
      * intros id. destruct (decide (id = i)) as [-> | Hne].
        -- by rewrite lookup_delete_eq, lookup_insert_eq, Hx.
        -- by rewrite lookup_delete_ne, lookup_insert_ne, Hlookup.
    + split.
      * rewrite map_filter_insert_False by (simpl; rewrite Hx; tauto).
        by rewrite delete_id.
      * intros id. destruct (decide (id = i)) as [-> | Hne].
        -- by rewrite lookup_insert_eq, Hx, Hlookup, Hfresh.
        -- by rewrite lookup_insert_ne, Hlookup.
Qed.

Lemma sweep_all (M : gmap string ChatSession.t) :
  let r := map_fold (sweep maxAge now) (O, M) M in
  snd r = filter (fun entry => ~ old entry) M /\
  (fst r + size (snd r))%nat = size M.
Proof.
  destruct (sweep_fold M M O) as [Hcount Hlookup]. simpl in *.
  set (r := map_fold (sweep maxAge now) (O, M) M) in *.
  assert (snd r = filter (fun entry => ~ old entry) M) as Heq.
  { apply map_eq. intros id. rewrite Hlookup.
    destruct (M !! id) as [session |] eqn:Hid.
    - destruct (expired maxAge now session) eqn:Hx.
      + symmetry. apply map_lookup_filter_None_2. right.
        intros x Hx' Hnot. assert (x = session) as -> by congruence.
        apply Hnot. simpl. by rewrite Hx.
      + symmetry. apply map_lookup_filter_Some_2; [done |].
        simpl. rewrite Hx. tauto.
    - symmetry. apply map_lookup_filter_None_2. by left. }
  split; [exact Heq |].
  rewrite Hcount, Heq.
  rewrite <- (map_filter_union_complement old M) at 3.
  rewrite map_size_disj_union by apply map_disjoint_filter_complement.
  done.
Qed.

End SweepFacts.

Lemma clearOldSessions_sweeps_aux (maxAgeMinutes : option Z) (now : Z)
    (st : ChatService.State) :
  let maxAge := default 60 maxAgeMinutes * 60 * 1000 in
  let '(deleted, st') := clearOldSessions maxAgeMinutes now st in
  (forall id,
     getSession id st'
     = match getSession id st with
       | Some session =>
           if maxAge <? now - ChatSession.updatedAt session then None
           else Some session
       | None => None
       end) /\
  (deleted + getActiveSessionsCount st')%nat = getActiveSessionsCount st /\
  ChatService.uuids st' = ChatService.uuids st.
Proof.
  unfold clearOldSessions.
  change (ChatService.maxSessionAgeMinutes ChatService.config) with 60.
  set (maxAge := default 60 maxAgeMinutes * 60 * 1000).
  destruct (sweep_fold maxAge now (ChatService.sessions st)
              (ChatService.sessions st) O) as [_ Hlookup].
  destruct (sweep_all maxAge now (ChatService.sessions st)) as [_ Hsize].
  simpl in *.
  destruct (map_fold (sweep maxAge now) (O, ChatService.sessions st)
              (ChatService.sessions st)) as [deleted sessions].
  cbn [fst snd] in *. unfold getSession, getActiveSessionsCount. simpl.
  split; [| done].
  intros id. rewrite Hlookup. unfold expired.
  by destruct (ChatService.sessions st !! id).
Qed.

(** [clearOldSessions] removes exactly the sessions whose [updatedAt] lies
    more than the maximum age before now, a session exactly that old
    stays; the sessions that stay are unchanged, and the number returned
    is the number removed. *)
Theorem clearOldSessions_sweeps (maxAgeMinutes : option Z) (now : Z)
    (st : ChatService.State) :
  let maxAge := default 60 maxAgeMinutes * 60 * 1000 in
  let '(deleted, st') := clearOldSessions maxAgeMinutes now st in
  (forall id,
     getSession id st'
     = match getSession id st with
       | Some session =>
           if maxAge <? now - ChatSession.updatedAt session then None
           else Some session
       | None => None
       end) /\
  (deleted + getActiveSessionsCount st')%nat = getActiveSessionsCount st /\
  ChatService.uuids st' = ChatService.uuids st.
Proof. apply clearOldSessions_sweeps_aux. Qed.

(** The cleanup route reads a missing or zero [maxAgeMinutes] as 60: asked
    to clear everything older than 0 minutes, it leaves every session that
    was active during the last hour as it is. *)
Theorem cleanupOldSessions_zero_is_an_hour (now : Z) (st : ChatService.State)
    (id : string) (session : ChatSession.t) :
  getSession id st = Some session ->
  now - ChatSession.updatedAt session <= 3600000 ->
  snd (fst (cleanupOldSessions (Some 0) now st)) = 60 /\
  getSession id (snd (cleanupOldSessions (Some 0) now st)) = Some session.
Proof.
  intros Hid Hage. unfold cleanupOldSessions. simpl.
  pose proof (clearOldSessions_sweeps_aux (Some 60) now st) as Hsweep.
  destruct (clearOldSessions (Some 60) now st) as [deleted st'].
  destruct Hsweep as (Hlookup & _). cbn [fst snd default] in *.
  split; [reflexivity |]. rewrite Hlookup, Hid.
  change (Datatypes.id 60 * 60 * 1000) with 3600000.
  destruct (Z.ltb_spec 3600000 (now - ChatSession.updatedAt session));
    [lia | done].
Qed.


(** ** Instances of the preceding statements *)

Lemma calculateRetryDelay_backoff_witness :
  (1 <= 2)%nat /\
  AIService.calculateRetryDelay 2 = 2000 /\
  AIService.calculateRetryDelay 2 <= AIService.calculateRetryDelay 3.
Proof.
  split; [lia |].
  destruct (calculateRetryDelay_backoff 2 ltac:(lia))
    as (_ & Hexact & _ & Hmono).
  split; [exact (Hexact ltac:(lia)) | exact Hmono].
Defined.

Lemma processMessage_completed_witness :
  let openai := always (answers ["Hel"; "lo"]) in
  let cfg := CircuitBreakerService.defaultConfig in
  let r := processMessage cfg openai uuid_of "Hello" (Some "abc") (start 0) in
  let pm := fst (fst (fst r)) in
  let out := snd (fst (fst r)) in
  let ai := snd (fst r) in
  let srv' := snd r in
  r = (pm, out, ai, srv') /\
  last (Subject.emitted ai) = Some Complete /\
  exists user answer,
    Message.content user = "Hello" /\
    Message.content answer = transcript (Subject.emitted ai) /\
    ChatService.sessions (chat srv')
    = <[ChatService.sessionId pm :=
          {| ChatSession.id :=
               ChatSession.id (sessionBefore uuid_of (Some "abc") (start 0));
             ChatSession.messages :=
               ChatSession.messages
                 (sessionBefore uuid_of (Some "abc") (start 0))
               ++ [user; answer];
             ChatSession.createdAt :=
               ChatSession.createdAt
                 (sessionBefore uuid_of (Some "abc") (start 0));
             ChatSession.updatedAt := now srv' |}]>
        (ChatService.sessions (chat (start 0))).
Proof.
  intros openai cfg r pm out ai srv'.
  assert (r = (pm, out, ai, srv')) as Hrun by (vm_compute; reflexivity).
  assert (last (Subject.emitted ai) = Some Complete) as Hlast
    by (vm_compute; reflexivity).
  split; [exact Hrun |]. split; [exact Hlast |].
  destruct (processMessage_completed cfg openai uuid_of "Hello" (Some "abc")
              (start 0) pm out ai srv' Hrun Hlast)
    as (user & answer & _ & Huser & _ & Hanswer & _ & _ & _ & Hsessions & _).
  exists user, answer. split; [exact Huser |]. split; [exact Hanswer |].
  exact Hsessions.
Defined.

Lemma deleteSession_after_processMessage_witness :
  let openai := always (answers ["Hi"]) in
  let cfg := CircuitBreakerService.defaultConfig in
  "abc" <> EmptyString /\
  let '(_, _, _, srv') :=
    processMessage cfg openai uuid_of "Hello" (Some "abc") (start 0) in
  let '(deleted, st) := deleteSession "abc" (chat srv') in
  deleted = true /\
  ChatService.sessions st = delete "abc" (ChatService.sessions (chat (start 0))) /\
  getSessionOrFail "abc" st = inl (SessionNotFoundException "abc") /\
  fst (deleteSession "abc" st) = false.
Proof.
  intros openai cfg. split; [discriminate |].
  apply (deleteSession_after_processMessage cfg openai uuid_of "Hello" "abc"
           (start 0)).
  discriminate.
Defined.

Lemma cleanupOldSessions_zero_is_an_hour_witness :
  let openai := always (answers ["Hi"]) in
  let cfg := CircuitBreakerService.defaultConfig in
  let srv :=
    snd (processMessage cfg openai uuid_of "Hello" (Some "abc") (start 0)) in
  exists session,
    getSession "abc" (chat srv) = Some session /\
    now srv + 1000 - ChatSession.updatedAt session <= 3600000 /\
    snd (fst (cleanupOldSessions (Some 0) (now srv + 1000) (chat srv))) = 60 /\
    getSession "abc"
      (snd (cleanupOldSessions (Some 0) (now srv + 1000) (chat srv)))
    = Some session.
Proof.
  intros openai cfg srv.
  destruct (getSession "abc" (chat srv)) as [session |] eqn:Hid;
    [| vm_compute in Hid; discriminate].
  assert (now srv + 1000 - ChatSession.updatedAt session <= 3600000) as Hage.
  { vm_compute in Hid. injection Hid as <-. vm_compute. discriminate. }
  exists session. split; [reflexivity |]. split; [exact Hage |].
  exact (cleanupOldSessions_zero_is_an_hour (now srv + 1000) (chat srv) "abc"
           session Hid Hage).
Defined.
